(** * scholar_search.py: fan-out of five scholar queries, JSON dump, summary

    A shallow embedding of [src/code/scholar_search.py].

    - Python values are the ones [json.dump] takes: [None], [bool], [int]
      (as [Z]), [float], [str], [list], [tuple] and [dict] with keys that
      are [str], [int], [float], [bool] or [None].  A [str] is the list of
      its code points.  A [dict] keeps insertion order, so it is an
      association list; keys are unique in every dict the interpreter can
      build.
    - What belongs to the interpreter and not to the script is a parameter
      of the development, the class [runtime]: the floats, with their
      comparison, the digits [repr] gives them and [float(text)], and which
      code points beyond Latin-1 the character database calls printable.
    - Effects are threaded through a small monad over a [world] (files,
      event loops, thread pools, console); exit paths are [Ret], [Raise] and
      [Hang].
    - [asyncio.gather] is the callback state machine of the runtime, driven
      by a completion schedule chosen by the environment.
    - [json.dump(..., indent=2)] and [json.load] follow the runtime's
      encoder and scanner. *)

From Stdlib Require Import ZArith NArith String Ascii List Lia Bool.
From Stdlib Require Import Decimal DecimalString DecimalFacts DecimalPos DecimalN DecimalZ.
From stdpp Require Import gmap strings list.

Open Scope Z_scope.
Open Scope string_scope.

(** ** Text *)

(** A Python [str]: its code points, in order.  Program text (the literals
    of the script, paths, the JSON text of a file) is written as a Rocq
    [string], each character standing for the code point of the same
    number. *)
Definition codepoint : Type := N.
Definition pystr : Type := list codepoint.

Definition code (c : ascii) : codepoint := N_of_ascii c.

Definition str_of (s : string) : pystr := map code (list_ascii_of_string s).
Coercion str_of : string >-> pystr.

(** [a + b] on two strs, and what an f-string does with its pieces. *)
Definition str_cat (a b : pystr) : pystr := (a ++ b)%list.
Infix "+++" := str_cat (at level 60, right associativity).

Fixpoint str_eqb (a b : pystr) : bool :=
  match a, b with
  | [], [] => true
  | x :: a', y :: b' => (x =? y)%N && str_eqb a' b'
  | _, _ => false
  end.

Definition dquote : ascii := "034".
Definition squote : ascii := "039".
Definition backslash : ascii := "092".
Definition LF : ascii := "010".
Definition CR : ascii := "013".
Definition TAB : ascii := "009".
Definition BS : ascii := "008".
Definition FF : ascii := "012".

Definition char (c : ascii) : string := String c "".

Definition hexdigit (n : N) : ascii :=
  match String.get (N.to_nat n) "0123456789abcdef" with
  | Some c => c
  | None => "0"%char
  end.

(** [int.__repr__] *)
Definition int_repr (n : Z) : string := NilZero.string_of_int (Z.to_int n).

(** ** Floats, as far as the script and the json module use them *)

(** The text [float.__repr__] gives a finite float: a sign, the integer
    digits, then a fraction, an exponent, or both ([1.5], [1e+16],
    [2.5e-07], [-0.0]). *)
Record exponent : Type := { exp_minus : bool; exp_digits : uint }.

Inductive float_tail : Type :=
| Fraction (frac : uint) (e : option exponent)
| Exponent (e : exponent).

Record float_text : Type := {
  text_minus : bool;
  text_int : N;
  text_tail : float_tail
}.

Definition print_exponent (e : exponent) : string :=
  "e" ++ (if exp_minus e then "-" else "+") ++ NilZero.string_of_uint (exp_digits e).

Definition print_tail (t : float_tail) : string :=
  match t with
  | Fraction frac None => "." ++ NilZero.string_of_uint frac
  | Fraction frac (Some e) => "." ++ NilZero.string_of_uint frac ++ print_exponent e
  | Exponent e => print_exponent e
  end.

Definition print_float (t : float_text) : string :=
  (if text_minus t then "-" else "")
  ++ NilZero.string_of_uint (N.to_uint (text_int t)) ++ print_tail (text_tail t).

(** What the interpreter brings: the floats and the character database. *)
Class runtime : Type := {
  float : Type;
  (** [x == y] on two floats *)
  float_eqb : float -> float -> bool;
  (** the digits of [repr(x)] for a finite [x] *)
  float_digits : float -> float_text;
  (** [float(text)] *)
  float_of_str : string -> float;
  (** [float('inf')], [float('-inf')], [float('nan')] *)
  inf : float;
  neg_inf : float;
  nan : float;
  (** [str.isprintable] on one code point from 256 on *)
  wide_printable : codepoint -> bool
}.

(** What the language promises of them: only infinity equals infinity, and
    the text [repr] gives a finite float reads back as that float. *)
Class runtime_laws (rt : runtime) : Prop := {
  eqb_inf : forall x, float_eqb x inf = true -> x = inf;
  eqb_neg_inf : forall x, float_eqb x neg_inf = true -> x = neg_inf;
  repr_reads_back : forall x,
    float_eqb x x = true -> float_eqb x inf = false -> float_eqb x neg_inf = false ->
    float_of_str (print_float (float_digits x)) = x
}.

(** A runtime cut down to a handful of floats (0.0, 0.5, 1.5, 1e16, the
    infinities and NaN) and of printable code points from 256 on (an en
    dash, a Greek and a Chinese letter), for the sample runs. *)
Inductive sample_float : Type :=
| F_zero
| F_half
| F_1_5
| F_1e16
| F_inf
| F_neg_inf
| F_nan.

Definition sample_float_eqb (x y : sample_float) : bool :=
  match x, y with
  | F_zero, F_zero | F_half, F_half | F_1_5, F_1_5 | F_1e16, F_1e16
  | F_inf, F_inf | F_neg_inf, F_neg_inf => true
  | _, _ => false
  end.

Definition sample_float_digits (x : sample_float) : float_text :=
  match x with
  | F_half => {| text_minus := false; text_int := 0; text_tail := Fraction (D5 Nil) None |}
  | F_1_5 => {| text_minus := false; text_int := 1; text_tail := Fraction (D5 Nil) None |}
  | F_1e16 =>
      {| text_minus := false; text_int := 1;
         text_tail := Exponent {| exp_minus := false; exp_digits := D1 (D6 Nil) |} |}
  | _ => {| text_minus := false; text_int := 0; text_tail := Fraction (D0 Nil) None |}
  end.

Definition sample_float_of_str (s : string) : sample_float :=
  if String.eqb s "0.5" then F_half
  else if String.eqb s "1.5" then F_1_5
  else if String.eqb s "1e+16" then F_1e16
  else if String.eqb s "inf" then F_inf
  else if String.eqb s "-inf" then F_neg_inf
  else if String.eqb s "nan" then F_nan
  else F_zero.

Definition sample_runtime : runtime :=
  {| float := sample_float;
     float_eqb := sample_float_eqb;
     float_digits := sample_float_digits;
     float_of_str := sample_float_of_str;
     inf := F_inf;
     neg_inf := F_neg_inf;
     nan := F_nan;
     wide_printable := fun c => existsb (N.eqb c) [8211; 945; 20013]%N |}.

(** ** Outcomes *)

Inductive exn : Type :=
| AttributeError
| TypeError
| IndexError
| OSError
| RuntimeError
| ClientFault (what : string).

(** The three ways a call can end: it returns, it raises, or it never
    comes back. *)
Inductive result (A : Type) : Type :=
| Ret (a : A)
| Raise (e : exn)
| Hang.
Arguments Ret {A} a.
Arguments Raise {A} e.
Arguments Hang {A}.

Definition rbind {A B} (r : result A) (k : A -> result B) : result B :=
  match r with
  | Ret a => k a
  | Raise e => Raise e
  | Hang => Hang
  end.

(** A scan gives a value and the rest of the text, or fails as the decoder
    does, or is cut off for want of fuel (which never happens under
    [json_loads]). *)
Inductive scan (A : Type) : Type :=
| Scanned (a : A) (rest : string)
| DecodeError
| Exhausted.
Arguments Scanned {A} a rest.
Arguments DecodeError {A}.
Arguments Exhausted {A}.

Definition scan_map {A B} (f : A -> B) (r : scan A) : scan B :=
  match r with
  | Scanned a rest => Scanned (f a) rest
  | DecodeError => DecodeError
  | Exhausted => Exhausted
  end.

Section Script.
Context {rt : runtime}.

(** [float.__repr__] *)
Definition float_repr (x : float) : string :=
  if negb (float_eqb x x) then "nan"
  else if float_eqb x inf then "inf"
  else if float_eqb x neg_inf then "-inf"
  else print_float (float_digits x).

(** [float.__bool__]: [x != 0.0] *)
Definition float_bool (x : float) : bool := negb (float_eqb x (float_of_str "0.0")).

(** ** Python values *)

Inductive key : Type :=
| KNone
| KBool (b : bool)
| KInt (n : Z)
| KFloat (x : float)
| KStr (s : pystr).

#[local] Unset Elimination Schemes.
Inductive value : Type :=
| PyNone
| PyBool (b : bool)
| PyInt (n : Z)
| PyFloat (x : float)
| PyStr (s : pystr)
| PyList (xs : list value)
| PyTuple (xs : list value)
| PyDict (items : list (key * value)).
#[local] Set Elimination Schemes.

(** *** dict *)

(** A key as the value it is. *)
Definition key_value (k : key) : value :=
  match k with
  | KNone => PyNone
  | KBool b => PyBool b
  | KInt n => PyInt n
  | KFloat x => PyFloat x
  | KStr s => PyStr s
  end.

(** Is the key the str [k]?  (A str equals no key of another type.) *)
Definition key_is (k' : key) (k : pystr) : bool :=
  match k' with
  | KStr s => str_eqb s k
  | _ => false
  end.

(** Lookup of a str key. *)
Fixpoint dict_get (d : list (key * value)) (k : pystr) : option value :=
  match d with
  | [] => None
  | (k', v) :: d' => if key_is k' k then Some v else dict_get d' k
  end.

(** [d[k] = v] for a str [k]: an existing key keeps its place, a new one
    goes last. *)
Fixpoint dict_set (d : list (key * value)) (k : pystr) (v : value)
  : list (key * value) :=
  match d with
  | [] => [(KStr k, v)]
  | (k', v') :: d' =>
      if key_is k' k then (k', v) :: d' else (k', v') :: dict_set d' k v
  end.

(** A dict display [{k0: v0, k1: v1, ...}] and [dict(pairs)], with str
    keys. *)
Definition dict_of_pairs (kvs : list (pystr * value)) : list (key * value) :=
  fold_left (fun d kv => dict_set d (fst kv) (snd kv)) kvs [].

(** [o.get(k, default)]: only a dict has the method. *)
Definition py_get (o : value) (k : pystr) (default : value) : result value :=
  match o with
  | PyDict d =>
      match dict_get d k with
      | Some v => Ret v
      | None => Ret default
      end
  | _ => Raise AttributeError
  end.

(** Truth value testing. *)
Definition truthy (v : value) : bool :=
  match v with
  | PyNone => false
  | PyBool b => b
  | PyInt n => negb (n =? 0)%Z
  | PyFloat x => float_bool x
  | PyStr s => match s with [] => false | _ => true end
  | PyList xs => match xs with [] => false | _ => true end
  | PyTuple xs => match xs with [] => false | _ => true end
  | PyDict d => match d with [] => false | _ => true end
  end.

(** [len(o)] *)
Definition py_len (o : value) : result Z :=
  match o with
  | PyStr s => Ret (Z.of_nat (List.length s))
  | PyList xs => Ret (Z.of_nat (List.length xs))
  | PyTuple xs => Ret (Z.of_nat (List.length xs))
  | PyDict d => Ret (Z.of_nat (List.length d))
  | _ => Raise TypeError
  end.

(** [xs[i]] on a list *)
Definition getitem (xs : list value) (i : nat) : result value :=
  match xs !! i with
  | Some v => Ret v
  | None => Raise IndexError
  end.

(** ** [repr] and [str] *)

(** [str.isprintable] on one code point: below 256, printable ASCII and
    everything from U+00A1 on except the soft hyphen U+00AD; from 256 on,
    what the character database says. *)
Definition isprintable (c : codepoint) : bool :=
  if (c <? 256)%N
  then ((32 <=? c) && (c <? 127))%N || ((161 <=? c) && negb (c =? 173))%N
  else wide_printable c.

(** [n] as [k] hexadecimal digits, the lowest [k] if it has more. *)
Fixpoint hex (k : nat) (n : N) : string :=
  match k with
  | O => ""
  | S k' => hex k' (n / 16)%N ++ char (hexdigit (n mod 16)%N)
  end.

(** One character of [repr(s)] for a str, [quote] being the chosen quote. *)
Definition repr_char (quote : codepoint) (c : codepoint) : pystr :=
  if (c =? quote)%N || (c =? code backslash)%N then [code backslash; c]
  else if (c =? code TAB)%N then "\t"
  else if (c =? code LF)%N then "\n"
  else if (c =? code CR)%N then "\r"
  else if (c <? 32)%N || (c =? 127)%N then "\x" ++ hex 2 c
  else if (c <? 127)%N then [c]
  else if isprintable c then [c]
  else if (c <=? 255)%N then "\x" ++ hex 2 c
  else if (c <=? 65535)%N then "\u" ++ hex 4 c
  else "\U" ++ hex 8 c.

Definition str_mem (c : codepoint) (s : pystr) : bool := existsb (N.eqb c) s.

Definition str_repr (s : pystr) : pystr :=
  let quote :=
    if str_mem (code squote) s && negb (str_mem (code dquote) s)
    then code dquote else code squote in
  [quote] +++ flat_map (repr_char quote) s +++ [quote].

(** [sep.join(f(x) for x in xs)] *)
Definition join {A} (sep : pystr) (f : A -> pystr) : list A -> pystr :=
  fix go xs :=
    match xs with
    | [] => []
    | [x] => f x
    | x :: xs' => f x +++ sep +++ go xs'
    end.

Definition py_repr_key (k : key) : pystr :=
  match k with
  | KNone => "None"
  | KBool true => "True"
  | KBool false => "False"
  | KInt n => int_repr n
  | KFloat x => float_repr x
  | KStr s => str_repr s
  end.

Fixpoint py_repr (v : value) : pystr :=
  match v with
  | PyNone => "None"
  | PyBool true => "True"
  | PyBool false => "False"
  | PyInt n => int_repr n
  | PyFloat x => float_repr x
  | PyStr s => str_repr s
  | PyList xs => "[" +++ join ", " py_repr xs +++ "]"
  | PyTuple [x] => "(" +++ py_repr x +++ ",)"
  | PyTuple xs => "(" +++ join ", " py_repr xs +++ ")"
  | PyDict d =>
      "{" +++ join ", " (fun kv => py_repr_key (fst kv) +++ ": " +++ py_repr (snd kv)) d
          +++ "}"
  end.

(** [str(v)], which is what a replacement field [{v}] of an f-string puts. *)
Definition py_str (v : value) : pystr :=
  match v with
  | PyStr s => s
  | _ => py_repr v
  end.

(** ** json.dump(obj, fp, indent=2): the encoder *)

(** One code point of [encode_basestring_ascii]: quote and backslash get a
    backslash, printable ASCII stays, the short escapes come from the escape
    table, the rest becomes [\uXXXX], a code point above U+FFFF as its two
    surrogates. *)
Definition escape_char (c : codepoint) : string :=
  if (c =? code dquote)%N then String backslash (char dquote)
  else if (c =? code backslash)%N then "\\"
  else if ((32 <=? c) && (c <=? 126))%N then char (ascii_of_N c)
  else if (c =? code LF)%N then "\n"
  else if (c =? code CR)%N then "\r"
  else if (c =? code TAB)%N then "\t"
  else if (c =? code BS)%N then "\b"
  else if (c =? code FF)%N then "\f"
  else if (c <? 65536)%N then "\u" ++ hex 4 c
  else
    let v := (c - 65536)%N in
    let s1 := N.lor 55296 (N.land (N.shiftr v 10) 1023) in
    let s2 := N.lor 56320 (N.land v 1023) in
    "\u" ++ hex 4 s1 ++ "\u" ++ hex 4 s2.

Fixpoint escape_str (s : pystr) : string :=
  match s with
  | [] => ""
  | c :: s' => escape_char c ++ escape_str s'
  end.

Definition encode_basestring_ascii (s : pystr) : string :=
  String dquote (escape_str s ++ char dquote).

(** [floatstr]: the three values that are no JSON numbers have names of
    their own, the others go through [float.__repr__]. *)
Definition floatstr (o : float) : string :=
  if negb (float_eqb o o) then "NaN"
  else if float_eqb o inf then "Infinity"
  else if float_eqb o neg_inf then "-Infinity"
  else float_repr o.

(** The str a key becomes. *)
Definition key_str (k : key) : pystr :=
  match k with
  | KStr s => s
  | KFloat x => floatstr x
  | KBool true => "true"
  | KBool false => "false"
  | KNone => "null"
  | KInt n => int_repr n
  end.

Fixpoint spaces (n : nat) : string :=
  match n with
  | O => ""
  | S n' => String " " (spaces n')
  end.

(** ['\n' + ' ' * (indent * level)] with [indent = 2] *)
Definition newline_indent (level : nat) : string :=
  String LF (spaces (2 * level)).

(** Everything after the first item: each further item follows the item
    separator and the newline. *)
Definition encode_rest {A} (level : nat) (f : A -> string) : list A -> string :=
  fix go xs :=
    match xs with
    | [] => ""
    | x :: xs' => "," ++ newline_indent level ++ f x ++ go xs'
    end.

(** A list and a tuple are written alike. *)
Definition encode_list (level : nat) (f : value -> string) (xs : list value) : string :=
  match xs with
  | [] => "[]"
  | x :: xs' =>
      "[" ++ newline_indent (S level) ++ f x
          ++ encode_rest (S level) f xs'
          ++ newline_indent level ++ "]"
  end.

Fixpoint iterencode (o : value) (level : nat) : string :=
  match o with
  | PyStr s => encode_basestring_ascii s
  | PyNone => "null"
  | PyBool true => "true"
  | PyBool false => "false"
  | PyInt n => int_repr n
  | PyFloat x => floatstr x
  | PyList xs => encode_list level (fun y => iterencode y (S level)) xs
  | PyTuple xs => encode_list level (fun y => iterencode y (S level)) xs
  | PyDict [] => "{}"
  | PyDict ((k, v) :: d) =>
      "{" ++ newline_indent (S level)
          ++ encode_basestring_ascii (key_str k) ++ ": " ++ iterencode v (S level)
          ++ encode_rest (S level)
               (fun kv => encode_basestring_ascii (key_str (fst kv)) ++ ": "
                            ++ iterencode (snd kv) (S level)) d
          ++ newline_indent level ++ "}"
  end.

(** The text [json.dump(obj, fp, indent=2)] writes to [fp]. *)
Definition json_dumps (obj : value) : string := iterencode obj 0.

(** ** json.load(fp): the scanner *)

Definition is_ws (c : ascii) : bool :=
  Ascii.eqb c " " || Ascii.eqb c TAB || Ascii.eqb c LF || Ascii.eqb c CR.

Fixpoint skip_ws (s : string) : string :=
  match s with
  | String c r => if is_ws c then skip_ws r else s
  | EmptyString => ""
  end.

Definition is_digit (c : ascii) : bool := ((48 <=? code c) && (code c <=? 57))%N.

Definition hexval (c : ascii) : option N :=
  let n := code c in
  if ((48 <=? n) && (n <=? 57))%N then Some (n - 48)%N
  else if ((97 <=? n) && (n <=? 102))%N then Some (n - 87)%N
  else if ((65 <=? n) && (n <=? 70))%N then Some (n - 55)%N
  else None.

(** The escape table of the decoder. *)
Definition unescape (e : ascii) : option ascii :=
  if Ascii.eqb e dquote then Some dquote
  else if Ascii.eqb e backslash then Some backslash
  else if Ascii.eqb e "/" then Some "/"%char
  else if Ascii.eqb e "b" then Some BS
  else if Ascii.eqb e "f" then Some FF
  else if Ascii.eqb e "n" then Some LF
  else if Ascii.eqb e "r" then Some CR
  else if Ascii.eqb e "t" then Some TAB
  else None.

Definition is_high_surrogate (n : N) : bool := ((55296 <=? n) && (n <=? 56319))%N.
Definition is_low_surrogate (n : N) : bool := ((56320 <=? n) && (n <=? 57343))%N.

(** [scanstring], from just after the opening quote (strict mode).  A high
    surrogate escape followed at once by a low surrogate escape makes one
    code point; a [\u] that follows a high surrogate must in any case be
    well formed. *)
Fixpoint scanstring (s : string) : scan pystr :=
  match s with
  | EmptyString => DecodeError
  | String c r =>
      if Ascii.eqb c dquote then Scanned [] r
      else if Ascii.eqb c backslash then
        match r with
        | EmptyString => DecodeError
        | String e r' =>
            if Ascii.eqb e "u" then
              match r' with
              | String h1 (String h2 (String h3 (String h4 r''))) =>
                  match hexval h1, hexval h2, hexval h3, hexval h4 with
                  | Some x1, Some x2, Some x3, Some x4 =>
                      let uni := (x1 * 4096 + x2 * 256 + x3 * 16 + x4)%N in
                      match r'' with
                      | String b1 (String b2 (String g1 (String g2 (String g3 (String g4 r3))))) =>
                          if is_high_surrogate uni && Ascii.eqb b1 backslash && Ascii.eqb b2 "u"
                          then
                            match hexval g1, hexval g2, hexval g3, hexval g4 with
                            | Some y1, Some y2, Some y3, Some y4 =>
                                let uni2 := (y1 * 4096 + y2 * 256 + y3 * 16 + y4)%N in
                                if is_low_surrogate uni2
                                then scan_map
                                       (cons (65536 + N.lor (N.shiftl (uni - 55296) 10)
                                                            (uni2 - 56320))%N)
                                       (scanstring r3)
                                else scan_map (cons uni) (scanstring r'')
                            | _, _, _, _ => DecodeError
                            end
                          else scan_map (cons uni) (scanstring r'')
                      | _ => scan_map (cons uni) (scanstring r'')
                      end
                  | _, _, _, _ => DecodeError
                  end
              | _ => DecodeError
              end
            else
              match unescape e with
              | Some ch => scan_map (cons (code ch)) (scanstring r')
              | None => DecodeError
              end
        end
      else if (code c <? 32)%N then DecodeError
      else scan_map (cons (code c)) (scanstring r)
  end.

(** The longest run of decimal digits at the front. *)
Fixpoint scan_digits (s : string) : string * string :=
  match s with
  | String c r =>
      if is_digit c then let (ds, rest) := scan_digits r in (String c ds, rest)
      else ("", s)
  | EmptyString => ("", "")
  end.

(** The integer part of the number pattern: [0], or a digit from 1 to 9
    and any digits. *)
Definition int_part (s : string) : option (string * string) :=
  match s with
  | String c r =>
      if Ascii.eqb c "0" then Some ("0", r)
      else if is_digit c then Some (scan_digits s)
      else None
  | EmptyString => None
  end.

(** The fraction of the number pattern, a point and one digit or more, when
    there is one. *)
Definition frac_part (s : string) : string * string :=
  match s with
  | String c r =>
      if Ascii.eqb c "." then
        match scan_digits r with
        | (EmptyString, _) => ("", s)
        | (ds, rest) => (String c ds, rest)
        end
      else ("", s)
  | EmptyString => ("", s)
  end.

(** The exponent of the number pattern: [e] or [E], a sign or none, and one
    digit or more, when there is one. *)
Definition exp_part (s : string) : string * string :=
  match s with
  | String e r =>
      if Ascii.eqb e "e" || Ascii.eqb e "E" then
        let '(sign, r1) :=
          match r with
          | String c r' =>
              if Ascii.eqb c "+" || Ascii.eqb c "-" then (char c, r') else ("", r)
          | EmptyString => ("", r)
          end in
        match scan_digits r1 with
        | (EmptyString, _) => ("", s)
        | (ds, rest) => (String e (sign ++ ds), rest)
        end
      else ("", s)
  | EmptyString => ("", s)
  end.

(** The number pattern: an optional minus, the integer part, then a
    fraction and an exponent if there are any; with either of them the
    number is a float and [float] reads its text, otherwise [int] does.
    [None] when the text does not start with a number. *)
Definition match_number (s : string) : option (scan value) :=
  let '(minus, s1) :=
    match s with
    | String c r => if Ascii.eqb c "-" then (true, r) else (false, s)
    | EmptyString => (false, s)
    end in
  match int_part s1 with
  | None => None
  | Some (ds, rest) =>
      let '(frac, rest1) := frac_part rest in
      let '(exp, rest2) := exp_part rest1 in
      match frac, exp with
      | EmptyString, EmptyString =>
          match NilZero.uint_of_string ds with
          | Some d =>
              Some (Scanned (PyInt (if minus : bool then - Z.of_uint d else Z.of_uint d)) rest)
          | None => Some DecodeError
          end
      | _, _ =>
          Some (Scanned
                  (PyFloat (float_of_str ((if minus : bool then "-" else "")
                                          ++ ds ++ frac ++ exp)))
                  rest2)
      end
  end.

(** The text after the prefix [p], when the text starts with [p]. *)
Fixpoint starts_with (p s : string) : option string :=
  match p with
  | EmptyString => Some s
  | String a p' =>
      match s with
      | String b s' => if Ascii.eqb a b then starts_with p' s' else None
      | EmptyString => None
      end
  end.

(** The constants and the numbers. *)
Definition scan_atom (s : string) : scan value :=
  match starts_with "null" s, starts_with "true" s, starts_with "false" s with
  | Some rest, _, _ => Scanned PyNone rest
  | _, Some rest, _ => Scanned (PyBool true) rest
  | _, _, Some rest => Scanned (PyBool false) rest
  | _, _, _ =>
      match match_number s with
      | Some r => r
      | None =>
          match starts_with "NaN" s, starts_with "Infinity" s,
                starts_with "-Infinity" s with
          | Some rest, _, _ => Scanned (PyFloat nan) rest
          | _, Some rest, _ => Scanned (PyFloat inf) rest
          | _, _, Some rest => Scanned (PyFloat neg_inf) rest
          | None, None, None => DecodeError
          end
      end
  end.

Fixpoint scan_once (fuel : nat) (s : string) : scan value :=
  match fuel with
  | O => Exhausted
  | S fuel' =>
      match s with
      | EmptyString => DecodeError
      | String c r =>
          if Ascii.eqb c dquote then scan_map PyStr (scanstring r)
          else if Ascii.eqb c "{" then
            match skip_ws r with
            | String c' r' =>
                if Ascii.eqb c' "}" then Scanned (PyDict []) r'
                else if Ascii.eqb c' dquote
                then scan_map (fun kvs => PyDict (dict_of_pairs kvs)) (JSONObject fuel' r')
                else DecodeError
            | EmptyString => DecodeError
            end
          else if Ascii.eqb c "[" then
            match skip_ws r with
            | String c' r' =>
                if Ascii.eqb c' "]" then Scanned (PyList []) r'
                else scan_map PyList (JSONArray fuel' (String c' r'))
            | EmptyString => DecodeError
            end
          else scan_atom s
      end
  end

(** The loop of [JSONArray], from the start of an item. *)
with JSONArray (fuel : nat) (s : string) : scan (list value) :=
  match fuel with
  | O => Exhausted
  | S fuel' =>
      match scan_once fuel' s with
      | Scanned v rest =>
          match skip_ws rest with
          | String c r =>
              if Ascii.eqb c "]" then Scanned [v] r
              else if Ascii.eqb c ","
              then scan_map (cons v) (JSONArray fuel' (skip_ws r))
              else DecodeError
          | EmptyString => DecodeError
          end
      | DecodeError => DecodeError
      | Exhausted => Exhausted
      end
  end

(** The loop of [JSONObject], from just after the opening quote of a key. *)
with JSONObject (fuel : nat) (s : string) : scan (list (pystr * value)) :=
  match fuel with
  | O => Exhausted
  | S fuel' =>
      match scanstring s with
      | Scanned key rest =>
          match skip_ws rest with
          | String colon r =>
              if Ascii.eqb colon ":" then
                match scan_once fuel' (skip_ws r) with
                | Scanned v rest' =>
                    match skip_ws rest' with
                    | String c r' =>
                        if Ascii.eqb c "}" then Scanned [(key, v)] r'
                        else if Ascii.eqb c "," then
                          match skip_ws r' with
                          | String q r'' =>
                              if Ascii.eqb q dquote
                              then scan_map (cons (key, v)) (JSONObject fuel' r'')
                              else DecodeError
                          | EmptyString => DecodeError
                          end
                        else DecodeError
                    | EmptyString => DecodeError
                    end
                | DecodeError => DecodeError
                | Exhausted => Exhausted
                end
              else DecodeError
          | EmptyString => DecodeError
          end
      | DecodeError => DecodeError
      | Exhausted => Exhausted
      end
  end.

(** What [json.loads] answers: the value, or the decoder's exception.  The
    third answer stands for fuel running out and is never given. *)
Inductive loaded : Type :=
| Loaded (v : value)
| JSONDecodeError
| OutOfFuel.

(** [json.loads(text)]: leading whitespace, one value, trailing whitespace,
    end of text.  A level of nesting costs two units of fuel and at least
    one character. *)
Definition json_loads (text : string) : loaded :=
  match scan_once (S (2 * String.length text)) (skip_ws text) with
  | Scanned v rest =>
      match skip_ws rest with
      | EmptyString => Loaded v
      | _ => JSONDecodeError
      end
  | DecodeError => JSONDecodeError
  | Exhausted => OutOfFuel
  end.

(** ** The external client *)

Record client : Type := {
  (** what awaiting [client.scholar.search_scholar(query=, num_results=,
      start_year=, end_year=)] ends with *)
  search_scholar : string -> Z -> string -> string -> result value
}.

(** The environment of one run: what [get_client()] gives, and the order in
    which the event loop sees the submitted calls finish (positions in the
    argument list of [gather]). *)
Record env : Type := {
  get_client : result client;
  schedule : list nat
}.

(** ** asyncio.gather *)

Record gather_state : Type := {
  children : list (option (result value));  (* a done child holds its outcome *)
  nfinished : nat;
  outer : option (result (list value))      (* the future [gather] returns *)
}.

(** [fut.result()] for each child, in argument order (it is only asked for
    when every child has returned). *)
Fixpoint collect (cs : list (option (result value))) : list value :=
  match cs with
  | [] => []
  | Some (Ret v) :: cs' => v :: collect cs'
  | _ :: cs' => collect cs'
  end.

(** [_done_callback(fut)] for child [i] ending with [o]: count it; nothing
    more once the outer future is done; the first exception goes to the
    outer future; the last result makes the list. *)
Definition done_callback (nfuts : nat) (i : nat) (o : result value)
    (st : gather_state) : gather_state :=
  let cs := <[i := Some o]> (children st) in
  let n := S (nfinished st) in
  match outer st with
  | Some _ => {| children := cs; nfinished := n; outer := outer st |}
  | None =>
      match o with
      | Raise e => {| children := cs; nfinished := n; outer := Some (Raise e) |}
      | _ =>
          {| children := cs; nfinished := n;
             outer := if Nat.eqb n nfuts then Some (Ret (collect cs)) else None |}
      end
  end.

(** One tick of the loop: the call at position [i] finishes, if it is one
    of the children, has not finished before and does finish at all. *)
Definition complete (tasks : list (result value)) (st : gather_state) (i : nat)
  : gather_state :=
  match tasks !! i, children st !! i with
  | Some Hang, _ => st
  | Some o, Some None => done_callback (List.length tasks) i o st
  | _, _ => st
  end.

Definition gather_init (tasks : list (result value)) : gather_state :=
  {| children := map (fun _ => None) tasks; nfinished := 0%nat;
     outer := match tasks with [] => Some (Ret []) | _ => None end |}.

(** [await asyncio.gather] of the submitted calls under a completion order. *)
Definition gather (tasks : list (result value)) (sched : list nat)
  : result (list value) :=
  match outer (fold_left (complete tasks) sched (gather_init tasks)) with
  | Some r => r
  | None => Hang
  end.

(** ** search_scholar_papers *)

Definition search_scholar_papers (E : env) : result value :=
  rbind (get_client E) (fun client =>
  let search_tasks := [
    search_scholar client "automated content curation AI newsletter systems" 20 "2020" "2025";
    search_scholar client "personalized recommendation systems content filtering" 20 "2020" "2025";
    search_scholar client "automated report generation machine learning" 20 "2020" "2025";
    search_scholar client "financial data visualization real-time analytics" 20 "2020" "2025";
    search_scholar client "content aggregation news summarization NLP" 20 "2020" "2025"
  ] in
  rbind (gather search_tasks (schedule E)) (fun results =>
  rbind (getitem results 0) (fun r0 =>
  rbind (getitem results 1) (fun r1 =>
  rbind (getitem results 2) (fun r2 =>
  rbind (getitem results 3) (fun r3 =>
  rbind (getitem results 4) (fun r4 =>
  Ret (PyDict (dict_of_pairs [
    ("content_curation" : pystr, r0);
    ("recommendation_systems" : pystr, r1);
    ("automated_reporting" : pystr, r2);
    ("financial_visualization" : pystr, r3);
    ("content_aggregation" : pystr, r4)
  ]))))))))).

(** ** The world and the effect monad *)

Inductive loop_state : Type := LoopOpen | LoopClosed.

Record pool_state : Type := {
  workers : list nat;       (* threads the pool has started *)
  pool_shutdown : bool
}.

Record world : Type := {
  files : gmap string string;     (* regular files and their text *)
  can_open : string -> bool;      (* can the path be opened for writing? *)
  loops : list loop_state;        (* every loop created so far, by number *)
  current_loop : gmap nat nat;    (* thread |-> its current event loop *)
  pools : list pool_state;        (* every executor created so far, by number *)
  driven : list (nat * nat);      (* (thread, loop) of each run_until_complete *)
  running : gset nat;             (* threads that are inside a running loop *)
  stdout : list pystr             (* lines printed *)
}.

Definition M (A : Type) : Type := world -> result A * world.

Definition ret {A} (a : A) : M A := fun w => (Ret a, w).
Definition raise {A} (e : exn) : M A := fun w => (Raise e, w).
Definition lift {A} (r : result A) : M A := fun w => (r, w).

Definition bind {A B} (m : M A) (k : A -> M B) : M B :=
  fun w =>
    match m w with
    | (Ret a, w') => k a w'
    | (Raise e, w') => (Raise e, w')
    | (Hang, w') => (Hang, w')
    end.

Notation "x <- m ;; k" := (bind m (fun x => k))
  (at level 100, m at next level, right associativity).
Notation "m ;;; k" := (bind m (fun _ => k))
  (at level 100, right associativity).

(** [try: body / finally: fin]: [fin] runs when [body] returns or raises,
    and the outcome of [body] stands unless [fin] itself fails. *)
Definition try_finally {A} (body : M A) (fin : M unit) : M A :=
  fun w =>
    match body w with
    | (Hang, w') => (Hang, w')
    | (r, w') =>
        match fin w' with
        | (Ret _, w'') => (r, w'')
        | (Raise e, w'') => (Raise e, w'')
        | (Hang, w'') => (Hang, w'')
        end
    end.

(** [with enter as x: body], for a context manager whose [__exit__] lets
    exceptions through. *)
Definition with_ {X A} (enter : M X) (exit : X -> M unit) (body : X -> M A) : M A :=
  x <- enter ;; try_finally (body x) (exit x).

Fixpoint for_each {A} (xs : list A) (body : A -> M unit) : M unit :=
  match xs with
  | [] => ret tt
  | x :: xs' => body x ;;; for_each xs' body
  end.

(** *** concurrent.futures and asyncio *)

(** [ThreadPoolExecutor()]: a pool starts no thread before work is submitted. *)
Definition ThreadPoolExecutor : M nat :=
  fun w =>
    (Ret (List.length (pools w)),
     {| files := files w; can_open := can_open w; loops := loops w;
        current_loop := current_loop w;
        pools := pools w ++ [{| workers := []; pool_shutdown := false |}];
        driven := driven w; running := running w; stdout := stdout w |}).

(** [executor.shutdown(wait=True)], the [__exit__] of the pool. *)
Definition shutdown (executor : nat) : M unit :=
  fun w =>
    (Ret tt,
     {| files := files w; can_open := can_open w; loops := loops w;
        current_loop := current_loop w;
        pools := alter (fun p => {| workers := workers p; pool_shutdown := true |})
                   executor (pools w);
        driven := driven w; running := running w; stdout := stdout w |}).

Definition new_event_loop : M nat :=
  fun w =>
    (Ret (List.length (loops w)),
     {| files := files w; can_open := can_open w; loops := loops w ++ [LoopOpen];
        current_loop := current_loop w; pools := pools w;
        driven := driven w; running := running w; stdout := stdout w |}).

Definition set_event_loop (me : nat) (loop : nat) : M unit :=
  fun w =>
    (Ret tt,
     {| files := files w; can_open := can_open w; loops := loops w;
        current_loop := <[me := loop]> (current_loop w); pools := pools w;
        driven := driven w; running := running w; stdout := stdout w |}).

(** [loop.run_until_complete(coro)]: refused on a closed loop and on a
    thread that is already inside a running loop; otherwise the calling
    thread drives the loop until the coroutine is done and hands back its
    outcome. *)
Definition run_until_complete {A} (me : nat) (loop : nat) (coro : result A) : M A :=
  fun w =>
    match loops w !! loop with
    | Some LoopOpen =>
        if decide (me ∈ running w) then (Raise RuntimeError, w)
        else
          (coro,
           {| files := files w; can_open := can_open w; loops := loops w;
              current_loop := current_loop w; pools := pools w;
              driven := driven w ++ [(me, loop)];
              running := match coro with
                         | Hang => {[me]} ∪ running w
                         | _ => running w
                         end;
              stdout := stdout w |})
    | _ => (Raise RuntimeError, w)
    end.

Definition close (loop : nat) : M unit :=
  fun w =>
    (Ret tt,
     {| files := files w; can_open := can_open w;
        loops := <[loop := LoopClosed]> (loops w);
        current_loop := current_loop w; pools := pools w;
        driven := driven w; running := running w; stdout := stdout w |}).

(** ** run_async_with_thread_pool, called on thread [me] *)

Definition run_async_with_thread_pool (me : nat) (E : env) : M value :=
  with_ ThreadPoolExecutor shutdown (fun executor =>
    loop <- new_event_loop ;;
    set_event_loop me loop ;;;
    try_finally
      (results <- run_until_complete me loop (search_scholar_papers E) ;;
       ret results)
      (close loop)).

(** *** files and the console *)

(** [open(path, 'w')]: the file is created or emptied. *)
Definition open_w (path : string) : M string :=
  fun w =>
    if can_open w path then
      (Ret path,
       {| files := <[path := ""]> (files w); can_open := can_open w;
          loops := loops w; current_loop := current_loop w; pools := pools w;
          driven := driven w; running := running w; stdout := stdout w |})
    else (Raise OSError, w).

Definition write (f : string) (text : string) : M unit :=
  fun w =>
    (Ret tt,
     {| files := <[f := default "" (files w !! f) ++ text]> (files w);
        can_open := can_open w;
        loops := loops w; current_loop := current_loop w; pools := pools w;
        driven := driven w; running := running w; stdout := stdout w |}).

Definition close_file (f : string) : M unit := ret tt.

(** [json.dump(obj, fp, indent=2)] *)
Definition json_dump (obj : value) (fp : string) : M unit :=
  write fp (json_dumps obj).

(** [print(line)], on a console that takes every str. *)
Definition print (line : pystr) : M unit :=
  fun w =>
    (Ret tt,
     {| files := files w; can_open := can_open w;
        loops := loops w; current_loop := current_loop w; pools := pools w;
        driven := driven w; running := running w; stdout := stdout w ++ [line] |}).

(** [d.items()] *)
Definition items (o : value) : result (list (key * value)) :=
  match o with
  | PyDict d => Ret d
  | _ => Raise AttributeError
  end.

(** ** The script body *)

Definition output_path : string := "/workspace/data/scholar_research_results.json".

(** One turn of the summary loop. *)
Definition summary (entry : key * value) : M unit :=
  let '(category, results) := entry in
  success <- lift (py_get results "success" PyNone) ;;
  if truthy success then
    data <- lift (py_get results "data" (PyDict [])) ;;
    papers <- lift (py_get data "papers" (PyList [])) ;;
    paper_count <- lift (py_len papers) ;;
    print (py_str (key_value category) +++ ": Found " +++ int_repr paper_count +++ " papers")
  else
    error <- lift (py_get results "error" (PyStr "Unknown error")) ;;
    print (py_str (key_value category) +++ ": Search failed - " +++ py_str error).

Definition main (me : nat) (E : env) : M unit :=
  scholar_results <- run_async_with_thread_pool me E ;;
  with_ (open_w output_path) close_file
    (fun f => json_dump scholar_results f) ;;;
  entries <- lift (items scholar_results) ;;
  for_each entries summary.

(** The exit status of the interpreter: 0 at the end of the script, 1 after
    an exception nobody caught; none while it hangs. *)
Definition exit_status (r : result unit) : option Z :=
  match r with
  | Ret _ => Some 0
  | Raise _ => Some 1
  | Hang => None
  end.


(** ** The invariant of the join *)

Definition count_done (cs : list (option (result value))) : nat :=
  List.length (filter is_Some cs).

(** What holds of the state of [gather] after any number of completions:
    done children hold the outcome of their call; while the outer future is
    pending only results have come in and [nfinished] counts them; a result
    in the outer future means every child returned; an exception in it is
    the exception of one of the calls. *)
Record ginv (tasks : list (result value)) (st : gather_state) : Prop := {
  g_len : List.length (children st) = List.length tasks;
  g_done : forall i o, children st !! i = Some (Some o) ->
             tasks !! i = Some o /\ o <> Hang;
  g_none : outer st = None ->
             nfinished st = count_done (children st)
             /\ (forall i e, children st !! i <> Some (Some (Raise e)))
             /\ (nfinished st < List.length tasks)%nat;
  g_ret : forall vs, outer st = Some (Ret vs) ->
             Forall2 (fun c v => c = Some (Ret v)) (children st) vs;
  g_raise : forall e, outer st = Some (Raise e) ->
             exists i, tasks !! i = Some (Raise e);
  g_hang : outer st <> Some Hang
}.

(** ** Vocabulary of the statements *)

(** The five query texts and the five labels, in the order of the source. *)
Definition queries : list string := [
  "automated content curation AI newsletter systems";
  "personalized recommendation systems content filtering";
  "automated report generation machine learning";
  "financial data visualization real-time analytics";
  "content aggregation news summarization NLP"
].

Definition labels : list string := [
  "content_curation";
  "recommendation_systems";
  "automated_reporting";
  "financial_visualization";
  "content_aggregation"
].

(** The labels as the keys of the bundle. *)
Definition label_keys : list key := map (fun label => KStr (str_of label)) labels.

(** What awaiting each submitted call ends with, in submission order. *)
Definition calls (c : client) : list (result value) :=
  map (fun q => search_scholar c q 20 "2020" "2025") queries.

(** Every submitted call is seen to finish. *)
Definition fair (sched : list nat) : Prop :=
  forall j, (j < List.length queries)%nat -> j ∈ sched.

(** The world once [run_async_with_thread_pool] has come back on thread
    [me]: one more pool, shut down, that never started a thread; one more
    loop, closed, made current for [me] and driven by [me]. *)
Definition adapted (me : nat) (w : world) : world :=
  {| files := files w; can_open := can_open w;
     loops := loops w ++ [LoopClosed];
     current_loop := <[me := List.length (loops w)]> (current_loop w);
     pools := pools w ++ [{| workers := []; pool_shutdown := true |}];
     driven := driven w ++ [(me, List.length (loops w))]; running := running w;
     stdout := stdout w |}.

(** The world left behind when the coroutine never finishes. *)
Definition stuck (me : nat) (w : world) : world :=
  {| files := files w; can_open := can_open w;
     loops := loops w ++ [LoopOpen];
     current_loop := <[me := List.length (loops w)]> (current_loop w);
     pools := pools w ++ [{| workers := []; pool_shutdown := false |}];
     driven := driven w ++ [(me, List.length (loops w))];
     running := {[me]} ∪ running w;
     stdout := stdout w |}.

(** The world when [run_until_complete] refuses to start: the loop was made
    and is closed, the pool is shut down, and nothing was driven. *)
Definition refused (me : nat) (w : world) : world :=
  {| files := files w; can_open := can_open w;
     loops := loops w ++ [LoopClosed];
     current_loop := <[me := List.length (loops w)]> (current_loop w);
     pools := pools w ++ [{| workers := []; pool_shutdown := true |}];
     driven := driven w; running := running w;
     stdout := stdout w |}.

Definition stored (path text : string) (w : world) : world :=
  {| files := <[path := text]> (files w); can_open := can_open w;
     loops := loops w; current_loop := current_loop w; pools := pools w;
     driven := driven w; running := running w; stdout := stdout w |}.

Definition emit (lines : list pystr) (w : world) : world :=
  {| files := files w; can_open := can_open w;
     loops := loops w; current_loop := current_loop w; pools := pools w;
     driven := driven w; running := running w; stdout := stdout w ++ lines |}.

(** The count the specification gives for a success-flagged result: the
    number of items of [data.papers], zero when [data] or [papers] is
    missing; it says nothing for other shapes. *)
Definition spec_paper_count (d : list (key * value)) : option Z :=
  match dict_get d "data" with
  | None => Some 0
  | Some (PyDict data) =>
      match dict_get data "papers" with
      | None => Some 0
      | Some (PyList papers) => Some (Z.of_nat (List.length papers))
      | Some _ => None
      end
  | Some _ => None
  end.

Definition found_line (category : pystr) (n : Z) : pystr :=
  category +++ ": Found " +++ int_repr n +++ " papers".

Definition failed_line (category : pystr) (error : pystr) : pystr :=
  category +++ ": Search failed - " +++ error.

Fixpoint distinct (ks : list pystr) : bool :=
  match ks with
  | [] => true
  | k :: ks' => negb (existsb (str_eqb k) ks') && distinct ks'
  end.

(** No high surrogate is followed at once by a low surrogate. *)
Fixpoint no_pair (s : pystr) : bool :=
  match s with
  | c :: s' =>
      match s' with
      | c' :: _ => negb (is_high_surrogate c && is_low_surrogate c')
      | [] => true
      end && no_pair s'
  | [] => true
  end.

(** A str of code points (below 0x110000) in which no surrogate pair is
    spelled as two code points. *)
Definition str_ok (s : pystr) : bool :=
  forallb (fun c => (c <? 1114112)%N) s && no_pair s.

Definition key_ok (k : key) : bool :=
  match k with
  | KStr s => str_ok s
  | _ => false
  end.

(** The values a JSON text stands for one to one: [None], booleans,
    integers, floats other than NaN, strs as above, lists, and dicts whose
    keys are such strs and are unique, at every depth; no tuple and no key
    of another type. *)
Fixpoint wf (v : value) : bool :=
  match v with
  | PyFloat x => float_eqb x x
  | PyStr s => str_ok s
  | PyList xs => forallb wf xs
  | PyTuple _ => false
  | PyDict d =>
      forallb (fun kv => key_ok (fst kv)) d
      && distinct (map (fun kv => key_str (fst kv)) d)
      && forallb (fun kv => wf (snd kv)) d
  | _ => true
  end.

(** The line one turn of the summary loop prints, as a pure function (shown
    below to be what [summary] does). *)
Definition summary_line (entry : key * value) : result pystr :=
  let '(category, results) := entry in
  rbind (py_get results "success" PyNone) (fun success =>
  if truthy success then
    rbind (py_get results "data" (PyDict [])) (fun data =>
    rbind (py_get data "papers" (PyList [])) (fun papers =>
    rbind (py_len papers) (fun paper_count =>
    Ret (found_line (py_str (key_value category)) paper_count))))
  else
    rbind (py_get results "error" (PyStr "Unknown error")) (fun error =>
    Ret (failed_line (py_str (key_value category)) (py_str error)))).

(** A result the specification calls a success: a dict with a true
    [success] whose count the specification defines. *)
Definition succeeded (r : value) : bool :=
  match r with
  | PyDict d =>
      match dict_get d "success", spec_paper_count d with
      | Some s, Some _ => truthy s
      | _, _ => false
      end
  | _ => false
  end.

(** ** Sample runs *)

Definition sample_fields (n : nat) : list (key * value) :=
  [(KStr "success", PyBool true);
   (KStr "data",
    PyDict [(KStr "papers", PyList (replicate n (PyDict [(KStr "title", PyStr "t")])))])].

Definition sample_success (n : nat) : value := PyDict (sample_fields n).

Definition sample_failure : value :=
  PyDict [(KStr "success", PyBool false); (KStr "error", PyStr "rate limited")].

(** Every search finds three papers. *)
Definition steady_client : client :=
  {| search_scholar := fun _ _ _ _ => Ret (sample_success 3) |}.

(** The second query is turned away with an error-flagged result. *)
Definition limited_client : client :=
  {| search_scholar := fun q _ _ _ =>
       if String.eqb q "personalized recommendation systems content filtering"
       then Ret sample_failure else Ret (sample_success 3) |}.

(** The third query raises. *)
Definition broken_client : client :=
  {| search_scholar := fun q _ _ _ =>
       if String.eqb q "automated report generation machine learning"
       then Raise (ClientFault "timeout") else Ret (sample_success 3) |}.

(** The five searches find 3, 5, 0, 12 and 7 papers. *)
Definition counting_client : client :=
  {| search_scholar := fun q _ _ _ =>
       if String.prefix "automated content" q then Ret (sample_success 3)
       else if String.prefix "personalized" q then Ret (sample_success 5)
       else if String.prefix "automated report" q then Ret (sample_success 0)
       else if String.prefix "financial" q then Ret (sample_success 12)
       else Ret (sample_success 7) |}.

(** Every search finds one paper, with a title that has an en dash and a
    Greek letter in it, a score and an unbounded cap. *)
Definition scored_result : value :=
  PyDict [(KStr "success", PyBool true);
          (KStr "data",
           PyDict [(KStr "papers",
                    PyList [PyDict [(KStr "title",
                                     PyStr ("Curation " +++ [8211; 32; 945]%N +++ "-rank"));
                                    (KStr "score", PyFloat (float_of_str "0.5"));
                                    (KStr "cap", PyFloat inf)]])])].

Definition scored_client : client :=
  {| search_scholar := fun _ _ _ _ => Ret scored_result |}.

(** Every search finds one paper, its citations counted under the year (an
    int key) and its years a tuple. *)
Definition yearly_result : value :=
  PyDict [(KStr "success", PyBool true);
          (KStr "data",
           PyDict [(KStr "papers",
                    PyList [PyDict [(KStr "citations", PyDict [(KInt 2020, PyInt 3)]);
                                    (KStr "years", PyTuple [PyInt 2020; PyInt 2025])]])])].

Definition yearly_client : client :=
  {| search_scholar := fun _ _ _ _ => Ret yearly_result |}.

(** What the file of such a run holds: the year a str, the tuple a list. *)
Definition yearly_loaded : value :=
  PyDict [(KStr "success", PyBool true);
          (KStr "data",
           PyDict [(KStr "papers",
                    PyList [PyDict [(KStr "citations", PyDict [(KStr "2020", PyInt 3)]);
                                    (KStr "years", PyList [PyInt 2020; PyInt 2025])]])])].

Definition sample_env (c : client) (sched : list nat) : env :=
  {| get_client := Ret c; schedule := sched |}.

(** A fresh process: no loop, no pool, nothing printed; one stale file. *)
Definition sample_world : world :=
  {| files := {[ output_path := "stale" ]}; can_open := fun _ => true;
     loops := []; current_loop := ∅; pools := []; driven := []; running := ∅;
     stdout := [] |}.


(** ** Vocabulary of the round trip *)

(** What may follow a value in the text the encoder writes: the end, the
    item separator, or the newline before a closing bracket. *)
Definition delimited (rest : string) : Prop :=
  match rest with
  | EmptyString => True
  | String c _ => c = ","%char \/ c = LF
  end.

Definition no_digit (rest : string) : Prop :=
  match rest with
  | EmptyString => True
  | String c _ => is_digit c = false
  end.

(** The characters a number starts with send the scanner to the atoms. *)
Definition number_start (c : ascii) : bool := is_digit c || Ascii.eqb c "-".

Definition value_start (c : ascii) : bool :=
  number_start c || Ascii.eqb c dquote || Ascii.eqb c "{" || Ascii.eqb c "["
  || Ascii.eqb c "n" || Ascii.eqb c "t" || Ascii.eqb c "f"
  || Ascii.eqb c "N" || Ascii.eqb c "I".

(** The number of nodes of a value, counting each item once more. *)
Fixpoint size (v : value) : nat :=
  match v with
  | PyList xs => S (list_sum (map (fun x => S (size x)) xs))
  | PyTuple xs => S (list_sum (map (fun x => S (size x)) xs))
  | PyDict d => S (list_sum (map (fun kv => S (size (snd kv))) d))
  | _ => 1
  end.

(** What the induction carries for one value. *)
Definition scans_back (v : value) : Prop :=
  forall level fuel rest,
    (size v <= fuel)%nat -> delimited rest ->
    scan_once fuel (iterencode v level ++ rest) = Scanned v rest.

(** The text of a dict item from just after the opening quote of its key. *)
Definition item_tail (k : pystr) (after : string) : string :=
  escape_str k ++ String dquote (String ":" (String " " after)).

Definition quoted (s : string) : string := String dquote (s ++ char dquote).

(** The text does not go on with the escape of a low surrogate. *)
Definition no_low_next (T : string) : Prop :=
  forall g1 g2 g3 g4 r3,
    T = String backslash (String "u" (String g1 (String g2 (String g3 (String g4 r3))))) ->
    exists y1 y2 y3 y4,
      hexval g1 = Some y1 /\ hexval g2 = Some y2 /\ hexval g3 = Some y3 /\ hexval g4 = Some y4
      /\ is_low_surrogate (y1 * 4096 + y2 * 256 + y3 * 16 + y4) = false.

(** The pairs the scanner reads for the items of a dict. *)
Definition read_items (d : list (key * value)) : list (pystr * value) :=
  map (fun kv => (key_str (fst kv), snd kv)) d.


(** What the induction on the fuel carries: enough fuel is never used up,
    and a scan that succeeds has consumed something. *)
Definition fuel_fits (fuel : nat) : Prop :=
  (forall s, (2 * String.length s < fuel)%nat -> scan_once fuel s <> Exhausted)
  /\ (forall s v rest, scan_once fuel s = Scanned v rest ->
        (String.length rest < String.length s)%nat)
  /\ (forall s, (2 * String.length s + 2 <= fuel)%nat -> JSONArray fuel s <> Exhausted)
  /\ (forall s vs rest, JSONArray fuel s = Scanned vs rest ->
        (String.length rest < String.length s)%nat)
  /\ (forall s, (2 * String.length s + 4 <= fuel)%nat -> JSONObject fuel s <> Exhausted)
  /\ (forall s kvs rest, JSONObject fuel s = Scanned kvs rest ->
        (String.length rest < String.length s)%nat).

(** A scan that is not cut off and that eats something when it succeeds. *)
Definition progresses {A} (r : scan A) (s : string) : Prop :=
  r <> Exhausted
  /\ forall a rest, r = Scanned a rest -> (String.length rest < String.length s)%nat.

(** The text is made of ASCII characters only, so that its bytes are its
    characters in every encoding that extends ASCII. *)
Fixpoint all_chars (p : ascii -> bool) (s : string) : bool :=
  match s with
  | EmptyString => true
  | String c s' => p c && all_chars p s'
  end.

Definition is_ascii (c : ascii) : bool := (code c <? 128)%N.

(** ** Vocabulary of the layout *)

(** Where a reader of a JSON text stands: outside the strings, inside one,
    or inside one just behind a backslash. *)
Inductive place : Type := Outside | Inside | Escaped.

Definition opener (c : ascii) : bool := Ascii.eqb c "[" || Ascii.eqb c "{".
Definition closer (c : ascii) : bool := Ascii.eqb c "]" || Ascii.eqb c "}".

(** The spaces a line starts with, and the first character behind them. *)
Fixpoint margin (line : string) : nat :=
  match line with
  | String c r => if Ascii.eqb c " " then S (margin r) else 0%nat
  | EmptyString => 0%nat
  end.

Fixpoint ink (line : string) : option ascii :=
  match line with
  | String c r => if Ascii.eqb c " " then ink r else Some c
  | EmptyString => None
  end.

(** A line under [depth] open brackets: two spaces for each of them, a
    closing bracket standing as far in as the line of its opening bracket;
    no line is blank. *)
Definition line_ok (depth : nat) (line : string) : bool :=
  match ink line with
  | Some c =>
      if closer c then (0 <? depth)%nat && (margin line =? 2 * (depth - 1))%nat
      else (margin line =? 2 * depth)%nat
  | None => false
  end.

Definition starts_line (s : string) : bool :=
  match s with
  | String c _ => Ascii.eqb c LF
  | EmptyString => false
  end.

Definition closes_or_starts_line (s : string) : bool :=
  match s with
  | String c _ => closer c || Ascii.eqb c LF
  | EmptyString => false
  end.

(** A text laid out with an indentation of 2, read from a place under
    [depth] open brackets: outside the strings, an opening bracket is
    followed by its closing bracket or by a line break, a comma by a line
    break, and a line break by a line indented for the brackets open there;
    at the end no string and no bracket is open. *)
Fixpoint indented (depth : nat) (p : place) (s : string) : bool :=
  match s with
  | EmptyString =>
      match p with
      | Outside => (depth =? 0)%nat
      | _ => false
      end
  | String c r =>
      match p with
      | Escaped => indented depth Inside r
      | Inside =>
          if Ascii.eqb c backslash then indented depth Escaped r
          else if Ascii.eqb c dquote then indented depth Outside r
          else indented depth Inside r
      | Outside =>
          if Ascii.eqb c dquote then indented depth Inside r
          else if opener c then closes_or_starts_line r && indented (S depth) Outside r
          else if closer c then (0 <? depth)%nat && indented (depth - 1) Outside r
          else if Ascii.eqb c "," then starts_line r && indented depth Outside r
          else if Ascii.eqb c LF then line_ok depth r && indented depth Outside r
          else indented depth Outside r
      end
  end.

(** The characters that mean nothing to the layout outside the strings. *)
Definition quiet (c : ascii) : bool :=
  negb (Ascii.eqb c dquote || opener c || closer c || Ascii.eqb c "," || Ascii.eqb c LF).

(** ** Vocabulary of the further properties *)

Definition is_dict (v : value) : bool :=
  match v with
  | PyDict _ => true
  | _ => false
  end.

Definition is_sized (v : value) : bool :=
  match v with
  | PyStr _ => true
  | PyList _ => true
  | PyTuple _ => true
  | PyDict _ => true
  | _ => false
  end.

(** The labelling of the five results, as [search_scholar_papers] does it
    after the join. *)
Definition label_results (results : list value) : result value :=
  rbind (getitem results 0) (fun r0 =>
  rbind (getitem results 1) (fun r1 =>
  rbind (getitem results 2) (fun r2 =>
  rbind (getitem results 3) (fun r3 =>
  rbind (getitem results 4) (fun r4 =>
  Ret (PyDict (dict_of_pairs [
    ("content_curation" : pystr, r0);
    ("recommendation_systems" : pystr, r1);
    ("automated_reporting" : pystr, r2);
    ("financial_visualization" : pystr, r3);
    ("content_aggregation" : pystr, r4)
  ]))))))).

(** No client to be had. *)
Definition clientless_env (sched : list nat) : env :=
  {| get_client := Raise (ClientFault "no credentials"); schedule := sched |}.

(** The second query and the fourth raise, each its own fault. *)
Definition faulty_client : client :=
  {| search_scholar := fun q _ _ _ =>
       if String.prefix "personalized" q then Raise (ClientFault "rate limited")
       else if String.prefix "financial" q then Raise (ClientFault "timeout")
       else Ret (sample_success 3) |}.

(** The fourth search comes back with a [data] that is no dict. *)
Definition sloppy_client : client :=
  {| search_scholar := fun q _ _ _ =>
       if String.prefix "financial" q
       then Ret (PyDict [(KStr "success", PyBool true); (KStr "data", PyList [])])
       else Ret (sample_success 3) |}.

(** Answers the one kind of call the script makes and refuses any other
    page size or range of years. *)
Definition strict_client : client :=
  {| search_scholar := fun _ num_results start_year end_year =>
       if (num_results =? 20)%Z && String.eqb start_year "2020"
          && String.eqb end_year "2025"
       then Ret (sample_success 3) else Raise (ClientFault "bad request") |}.

(** A world in which no file can be opened for writing. *)
Definition readonly_world : world :=
  {| files := {[ output_path := "stale" ]}; can_open := fun _ => false;
     loops := []; current_loop := ∅; pools := []; driven := []; running := ∅;
     stdout := [] |}.


(** * Properties *)

(** ** The join: [asyncio.gather] *)

Section Gather.
Variable tasks : list (result value).

Lemma children_done_callback n i o st :
  children (done_callback n i o st) = <[i := Some o]> (children st).
Proof.
  unfold done_callback. destruct (outer st); [done|]. by destruct o.
Qed.

Lemma count_done_insert (cs : list (option (result value))) i o :
  cs !! i = Some None ->
  count_done (<[i := Some o]> cs) = S (count_done cs).
Proof.
  unfold count_done. revert i. induction cs as [|c cs IH]; intros [|i] H; simplify_eq/=.
  - rewrite !filter_cons. simpl. destruct (decide (is_Some (Some o))) as [|[]]; [|by eauto].
    destruct (decide (is_Some (@None (result value)))) as [[? ?]|]; [done|]. done.
  - rewrite !filter_cons. destruct (decide (is_Some c)); simpl; by rewrite IH.
Qed.

Lemma count_done_full (cs : list (option (result value))) :
  count_done cs = List.length cs -> Forall is_Some cs.
Proof.
  unfold count_done. induction cs as [|c cs IH]; intros H; [constructor|].
  rewrite filter_cons in H. destruct (decide (is_Some c)); simpl in H.
  - constructor; [done|]. apply IH. lia.
  - pose proof (length_filter is_Some cs). lia.
Qed.

Lemma count_done_all (cs : list (option (result value))) :
  Forall is_Some cs -> count_done cs = List.length cs.
Proof.
  unfold count_done. induction 1 as [|c cs Hc _ IH]; [done|].
  rewrite filter_cons. destruct (decide (is_Some c)); [|done]. simpl. by rewrite IH.
Qed.

Lemma collect_all_ret (cs : list (option (result value))) :
  (forall i c, cs !! i = Some c -> exists v, c = Some (Ret v)) ->
  Forall2 (fun c v => c = Some (Ret v)) cs (collect cs).
Proof.
  induction cs as [|c cs IH]; intros H; [constructor|].
  destruct (H 0%nat c eq_refl) as [v ->]. simpl. constructor; [done|].
  apply IH. intros i c' Hi. apply (H (S i)). done.
Qed.

Lemma ginv_init : ginv tasks (gather_init tasks).
Proof.
  unfold gather_init. split; simpl.
  - by rewrite length_map.
  - intros i o. rewrite list_lookup_fmap. destruct (tasks !! i); done.
  - destruct tasks eqn:Et; [done|]. intros _. split_and!.
    + unfold count_done. clear Et. generalize (r :: l). intros l'.
      induction l' as [|? ? IH]; [done|]. simpl. rewrite filter_cons.
      destruct (decide _) as [[? ?]|]; done.
    + intros i e. rewrite list_lookup_fmap. destruct ((r :: l) !! i); done.
    + simpl. lia.
  - intros vs. destruct tasks; [|done]. intros [= <-]. constructor.
  - intros e. destruct tasks; done.
  - destruct tasks; done.
Qed.

Lemma ginv_done_callback st i o :
  ginv tasks st -> tasks !! i = Some o -> children st !! i = Some None -> o <> Hang ->
  ginv tasks (done_callback (List.length tasks) i o st).
Proof.
  intros I Ht Hc Hnh.
  assert (Hi : (i < List.length (children st))%nat) by (eapply lookup_lt_Some; eauto).
  assert (Hdone : forall j o', <[i := Some o]> (children st) !! j = Some (Some o') ->
            tasks !! j = Some o' /\ o' <> Hang).
  { intros j o' Hj. destruct (decide (i = j)) as [<-|Hne].
    - rewrite list_lookup_insert_eq in Hj by done. by simplify_eq.
    - rewrite list_lookup_insert_ne in Hj by done. by eapply (g_done tasks st I). }
  destruct (outer st) as [r|] eqn:Ho.
  - (* the outer future is already done *)
    pose proof (g_ret tasks st I) as Hr. pose proof (g_raise tasks st I) as He.
    pose proof (g_hang tasks st I) as Hh.
    destruct r as [vs| |]; [| |by rewrite Ho in Hh].
    + (* it holds a result: no child is pending *)
      exfalso. specialize (Hr vs Ho).
      destruct (Forall2_lookup_l _ _ _ _ _ Hr Hc) as (v & _ & ?). done.
    + unfold done_callback. rewrite Ho. split; simpl; try done.
      * rewrite length_insert. apply I.
      * intros e' [= <-]. by apply He.
  - destruct (g_none tasks st I Ho) as (Hn & Hnr & Hlt).
    unfold done_callback. rewrite Ho.
    destruct o as [v|e|]; [| |done].
    + (* one more result *)
      split; cbn [children nfinished outer].
      * rewrite length_insert. apply I.
      * done.
      * destruct (Nat.eqb_spec (S (nfinished st)) (List.length tasks)); [done|].
        intros _. split_and!.
        -- rewrite count_done_insert; [|done]. by rewrite Hn.
        -- intros j e Hj. destruct (decide (i = j)) as [<-|Hne].
           ++ rewrite list_lookup_insert_eq in Hj by done. done.
           ++ rewrite list_lookup_insert_ne in Hj by done. by eapply Hnr.
        -- lia.
      * intros vs.
        destruct (Nat.eqb_spec (S (nfinished st)) (List.length tasks)) as [Heq|]; [|done].
        intros [= <-]. apply collect_all_ret.
        intros j c Hj.
        assert (Hfull : Forall is_Some (<[i := Some (Ret v)]> (children st))).
        { apply count_done_full. rewrite count_done_insert by done.
          rewrite length_insert, <- Hn, Heq. symmetry. apply I. }
        rewrite Forall_lookup in Hfull. destruct (Hfull j c Hj) as [o' ->].
        destruct (Hdone j o' Hj) as [_ Hnh'].
        destruct o' as [v'|e'|]; [by eauto| |done].
        exfalso. destruct (decide (i = j)) as [<-|Hne].
        ++ rewrite list_lookup_insert_eq in Hj by done. done.
        ++ rewrite list_lookup_insert_ne in Hj by done. by eapply Hnr.
      * intros e. by destruct (Nat.eqb_spec (S (nfinished st)) (List.length tasks)).
      * by destruct (Nat.eqb_spec (S (nfinished st)) (List.length tasks)).
    + (* the first exception *)
      split; simpl; try done.
      * rewrite length_insert. apply I.
      * intros e' [= <-]. eauto.
Qed.

Lemma ginv_complete st i : ginv tasks st -> ginv tasks (complete tasks st i).
Proof.
  intros I. unfold complete.
  destruct (tasks !! i) as [o|] eqn:Ht; [|done].
  destruct (children st !! i) as [[c|]|] eqn:Hc; [by destruct o| |by destruct o].
  destruct o as [v|e|]; [| |done]; by apply ginv_done_callback.
Qed.

Lemma ginv_run sched st : ginv tasks st -> ginv tasks (fold_left (complete tasks) sched st).
Proof.
  revert st. induction sched as [|i sched IH]; intros st I; [done|].
  simpl. apply IH. by apply ginv_complete.
Qed.

Lemma complete_keeps st i j o :
  children st !! j = Some (Some o) ->
  children (complete tasks st i) !! j = Some (Some o).
Proof.
  intros Hj. unfold complete.
  destruct (tasks !! i) as [o'|] eqn:Ht; [|done].
  destruct (children st !! i) as [[c|]|] eqn:Hc; [by destruct o'| |by destruct o'].
  assert (i <> j) by congruence.
  destruct o'; [| |done]; rewrite children_done_callback, list_lookup_insert_ne; done.
Qed.

Lemma run_keeps sched st j o :
  children st !! j = Some (Some o) ->
  children (fold_left (complete tasks) sched st) !! j = Some (Some o).
Proof.
  revert st. induction sched as [|i sched IH]; intros st Hj; [done|].
  simpl. apply IH. by apply complete_keeps.
Qed.

Lemma complete_marks st j o :
  ginv tasks st -> tasks !! j = Some o -> o <> Hang ->
  children (complete tasks st j) !! j = Some (Some o).
Proof.
  intros I Ht Hnh. unfold complete. rewrite Ht.
  assert (Hlt : (j < List.length (children st))%nat).
  { rewrite (g_len tasks st I). eapply lookup_lt_Some; eauto. }
  destruct (children st !! j) as [[c|]|] eqn:Hc.
  - destruct (g_done tasks st I j c Hc) as [Ht' _].
    assert (c = o) by congruence. subst c. by destruct o.
  - destruct o; [| |done]; rewrite children_done_callback, list_lookup_insert_eq; done.
  - apply lookup_ge_None in Hc. lia.
Qed.

Lemma run_marks sched st j o :
  ginv tasks st -> j ∈ sched -> tasks !! j = Some o -> o <> Hang ->
  children (fold_left (complete tasks) sched st) !! j = Some (Some o).
Proof.
  revert st. induction sched as [|i sched IH]; intros st I Hin Ht Hnh.
  - by apply elem_of_nil in Hin.
  - simpl. apply elem_of_cons in Hin as [<-|Hin].
    + apply run_keeps. by apply complete_marks.
    + apply IH; [by apply ginv_complete|done..].
Qed.

(** Every call returns and every call does finish: the join gives the
    results in argument order, whatever the order of completion. *)
Lemma gather_returns vs sched :
  tasks = map Ret vs ->
  (forall j, (j < List.length vs)%nat -> j ∈ sched) ->
  gather tasks sched = Ret vs.
Proof.
  intros Et Hfair. unfold gather.
  set (st := fold_left (complete tasks) sched (gather_init tasks)).
  assert (I : ginv tasks st) by (apply ginv_run, ginv_init).
  assert (Hall : forall j v, vs !! j = Some v -> children st !! j = Some (Some (Ret v))).
  { intros j v Hj. apply run_marks; [apply ginv_init| |by rewrite Et, list_lookup_fmap, Hj|done].
    apply Hfair. eapply lookup_lt_Some; eauto. }
  assert (Hlen : List.length (children st) = List.length vs).
  { rewrite (g_len tasks st I), Et. apply length_map. }
  destruct (outer st) as [[vs'|e|]|] eqn:Ho.
  - f_equal. pose proof (g_ret tasks st I vs' Ho) as HF.
    apply list_eq_same_length with (List.length vs); [done| |].
    { apply Forall2_length in HF. congruence. }
    intros j x y Hlt Hx Hy.
    destruct (Forall2_lookup_r _ _ _ _ _ HF Hx) as (c & Hc & ->).
    rewrite (Hall j y Hy) in Hc. congruence.
  - destruct (g_raise tasks st I e Ho) as [i Hi].
    rewrite Et, list_lookup_fmap in Hi. destruct (vs !! i); done.
  - by destruct (g_hang tasks st I).
  - exfalso. destruct (g_none tasks st I Ho) as (Hn & _ & Hlt).
    assert (count_done (children st) = List.length (children st));
      [|rewrite (g_len tasks st I) in *; lia].
    apply count_done_all. apply Forall_lookup.
    intros j c Hc. assert (Hj : (j < List.length vs)%nat).
    { rewrite <- Hlen. eapply lookup_lt_Some; eauto. }
    destruct (lookup_lt_is_Some_2 vs j Hj) as [v Hv].
    rewrite (Hall j v Hv) in Hc. simplify_eq. eauto.
Qed.

(** A call that raises and does finish: the join raises, with the
    exception of one of the calls. *)
Lemma gather_raises j e sched :
  tasks !! j = Some (Raise e) -> j ∈ sched ->
  exists e', gather tasks sched = Raise e'
             /\ exists k, tasks !! k = Some (Raise e').
Proof.
  intros Ht Hin. unfold gather.
  set (st := fold_left (complete tasks) sched (gather_init tasks)).
  assert (I : ginv tasks st) by (apply ginv_run, ginv_init).
  assert (Hj : children st !! j = Some (Some (Raise e))).
  { apply run_marks; [apply ginv_init|done..]. }
  destruct (outer st) as [[vs'|e'|]|] eqn:Ho.
  - pose proof (g_ret tasks st I vs' Ho) as HF.
    destruct (Forall2_lookup_l _ _ _ _ _ HF Hj) as (v & _ & ?). done.
  - exists e'. split; [done|]. by apply (g_raise tasks st I).
  - by destruct (g_hang tasks st I).
  - destruct (g_none tasks st I Ho) as (_ & Hnr & _). by destruct (Hnr j e).
Qed.
End Gather.

(** ** The fan-out: [search_scholar_papers] *)

Lemma search_returns E c rs :
  get_client E = Ret c -> calls c = map Ret rs -> fair (schedule E) ->
  search_scholar_papers E = Ret (PyDict (zip label_keys rs)).
Proof.
  intros Hc Hcalls Hfair. unfold search_scholar_papers. rewrite Hc. simpl.
  change [search_scholar c _ 20 "2020" "2025"; search_scholar c _ 20 "2020" "2025";
          search_scholar c _ 20 "2020" "2025"; search_scholar c _ 20 "2020" "2025";
          search_scholar c _ 20 "2020" "2025"] with (calls c).
  rewrite (gather_returns (calls c) rs (schedule E) Hcalls).
  - assert (Hlen : List.length rs = 5%nat).
    { apply (f_equal (@List.length _)) in Hcalls. rewrite length_map in Hcalls.
      by rewrite <- Hcalls. }
    destruct rs as [|r0 [|r1 [|r2 [|r3 [|r4 [|]]]]]]; done.
  - intros j Hj. apply Hfair.
    apply (f_equal (@List.length _)) in Hcalls. rewrite length_map in Hcalls.
    unfold calls in Hcalls. rewrite length_map in Hcalls. lia.
Qed.

Lemma search_raises E c j e :
  get_client E = Ret c -> calls c !! j = Some (Raise e) -> j ∈ schedule E ->
  exists e', search_scholar_papers E = Raise e'
             /\ exists k, calls c !! k = Some (Raise e').
Proof.
  intros Hc Hj Hin. unfold search_scholar_papers. rewrite Hc. simpl.
  change [search_scholar c _ 20 "2020" "2025"; search_scholar c _ 20 "2020" "2025";
          search_scholar c _ 20 "2020" "2025"; search_scholar c _ 20 "2020" "2025";
          search_scholar c _ 20 "2020" "2025"] with (calls c).
  destruct (gather_raises (calls c) j e (schedule E) Hj Hin) as (e' & -> & Hk).
  exists e'. done.
Qed.

(** ** The adapter: [run_async_with_thread_pool] *)

Lemma run_async_spec me E w :
  run_async_with_thread_pool me E w =
    if decide (me ∈ running w) then (Raise RuntimeError, refused me w)
    else
      (search_scholar_papers E,
       match search_scholar_papers E with
       | Hang => stuck me w
       | _ => adapted me w
       end).
Proof.
  unfold run_async_with_thread_pool, with_, try_finally, bind, ThreadPoolExecutor,
    new_event_loop, set_event_loop, run_until_complete, close, shutdown, ret,
    adapted, stuck, refused.
  cbn [files can_open loops current_loop pools driven running stdout].
  rewrite (list_lookup_middle (loops w) [] LoopOpen (List.length (loops w)) eq_refl).
  destruct (decide (me ∈ running w)).
  - cbn [files can_open loops current_loop pools driven running stdout].
    rewrite ?insert_app_r_alt, ?alter_app_r_alt, ?Nat.sub_diag by done. done.
  - destruct (search_scholar_papers E) as [v|e|];
      cbn [files can_open loops current_loop pools driven running stdout];
      rewrite ?insert_app_r_alt, ?alter_app_r_alt, ?Nat.sub_diag by done; done.
Qed.

Lemma run_async_idle me E w :
  me ∉ running w ->
  run_async_with_thread_pool me E w =
    (search_scholar_papers E,
     match search_scholar_papers E with
     | Hang => stuck me w
     | _ => adapted me w
     end).
Proof. intros Hidle. rewrite run_async_spec. by destruct (decide (me ∈ running w)). Qed.

(** ** The script *)

Lemma emit_emit l1 l2 w : emit l2 (emit l1 w) = emit (l1 ++ l2) w.
Proof. unfold emit. simpl. by rewrite app_assoc. Qed.

Lemma emit_nil w : emit [] w = w.
Proof. destruct w. unfold emit. simpl. by rewrite app_nil_r. Qed.

Lemma main_returns me E w d :
  me ∉ running w ->
  search_scholar_papers E = Ret (PyDict d) -> can_open w output_path = true ->
  main me E w =
    for_each d summary (stored output_path (json_dumps (PyDict d)) (adapted me w)).
Proof.
  intros Hidle Hs Hopen. unfold main, bind at 1. rewrite (run_async_idle me E w Hidle), Hs.
  unfold with_, try_finally, bind, open_w, json_dump, write, close_file, ret, lift, stored.
  cbn [files can_open loops current_loop pools driven running stdout adapted items].
  rewrite Hopen. cbn [files can_open loops current_loop pools driven running stdout].
  rewrite lookup_insert_eq, insert_insert_eq. done.
Qed.

Lemma main_raises me E w e :
  me ∉ running w ->
  search_scholar_papers E = Raise e -> main me E w = (Raise e, adapted me w).
Proof.
  intros Hidle Hs. unfold main, bind at 1. by rewrite (run_async_idle me E w Hidle), Hs.
Qed.

Lemma main_cannot_open me E w v :
  me ∉ running w ->
  search_scholar_papers E = Ret v -> can_open w output_path = false ->
  main me E w = (Raise OSError, adapted me w).
Proof.
  intros Hidle Hs Hopen. unfold main, bind at 1. rewrite (run_async_idle me E w Hidle), Hs.
  unfold with_, try_finally, bind, open_w.
  cbn [files can_open loops current_loop pools driven running stdout adapted].
  by rewrite Hopen.
Qed.

(** *** The summary loop *)

Lemma summary_spec entry w :
  summary entry w =
    match summary_line entry with
    | Ret line => (Ret tt, emit [line] w)
    | Raise e => (Raise e, w)
    | Hang => (Hang, w)
    end.
Proof.
  destruct entry as [category results].
  unfold summary, summary_line, bind, lift, print, emit, found_line, failed_line.
  destruct (py_get results "success" PyNone) as [s| |]; simpl; [|done..].
  destruct (truthy s).
  - destruct (py_get results "data" (PyDict [])) as [data| |]; simpl; [|done..].
    destruct (py_get data "papers" (PyList [])) as [papers| |]; simpl; [|done..].
    by destruct (py_len papers).
  - by destruct (py_get results "error" (PyStr "Unknown error")).
Qed.

Lemma summary_found category d s n :
  dict_get d "success" = Some s -> truthy s = true -> spec_paper_count d = Some n ->
  summary_line (category, PyDict d)
    = Ret (found_line (py_str (key_value category)) n).
Proof.
  intros Hs Ht Hn. unfold summary_line, spec_paper_count, py_get in *. rewrite Hs.
  cbn [rbind]. rewrite Ht.
  destruct (dict_get d "data") as [[| | | | | | |data]|]; simplify_eq; [|done].
  cbn [rbind].
  destruct (dict_get data "papers") as [[| | | | |papers| |]|]; by simplify_eq.
Qed.

Lemma summary_failed category d :
  match dict_get d "success" with Some s => truthy s = false | None => True end ->
  summary_line (category, PyDict d) =
    Ret (failed_line (py_str (key_value category))
           (py_str (default (PyStr "Unknown error") (dict_get d "error")))).
Proof.
  intros Hs. unfold summary_line, py_get.
  destruct (dict_get d "success") as [s|]; cbn [rbind truthy]; [rewrite Hs|];
    by destruct (dict_get d "error").
Qed.

Lemma summary_succeeded category r :
  succeeded r = true ->
  exists n, summary_line (category, r) = Ret (found_line (py_str (key_value category)) n).
Proof.
  destruct r as [| | | | | | |d]; try done. unfold succeeded.
  destruct (dict_get d "success") as [s|] eqn:Hs; [|done].
  destruct (spec_paper_count d) as [n|] eqn:Hn; [|done].
  intros Ht. exists n. by eapply summary_found.
Qed.

Lemma for_each_lines entries lines w :
  Forall2 (fun entry line => summary_line entry = Ret line) entries lines ->
  for_each entries summary w = (Ret tt, emit lines w).
Proof.
  intros HF. revert w. induction HF as [|entry line entries lines Hl _ IH]; intros w.
  - by rewrite emit_nil.
  - simpl. unfold bind. rewrite summary_spec, Hl, IH, emit_emit. done.
Qed.

Lemma for_each_files entries w :
  files (snd (for_each entries summary w)) = files w
  /\ can_open (snd (for_each entries summary w)) = can_open w
  /\ running (snd (for_each entries summary w)) = running w.
Proof.
  revert w. induction entries as [|entry entries IH]; intros w; [done|].
  simpl. unfold bind. rewrite summary_spec.
  destruct (summary_line entry) as [line| |]; [|done..].
  destruct (IH (emit [line] w)) as (-> & -> & ->). done.
Qed.

Lemma for_each_app {A} (xs ys : list A) (body : A -> M unit) w :
  for_each (xs ++ ys) body w =
    match for_each xs body w with
    | (Ret _, w') => for_each ys body w'
    | other => other
    end.
Proof.
  revert w. induction xs as [|x xs IH]; intros w; [done|].
  simpl. unfold bind. destruct (body x w) as [[[]| |] w']; [|done..]. apply IH.
Qed.

(** The turn of one category, once the loop has come through the
    categories before it. *)
Lemma for_each_turn pre entry post w w1 :
  for_each pre summary w = (Ret tt, w1) ->
  for_each (pre ++ entry :: post) summary w =
    match summary_line entry with
    | Ret line => for_each post summary (emit [line] w1)
    | Raise e => (Raise e, w1)
    | Hang => (Hang, w1)
    end.
Proof.
  intros Hpre. rewrite for_each_app, Hpre. simpl. unfold bind.
  rewrite summary_spec. by destruct (summary_line entry).
Qed.

Lemma fair_intro sched :
  forallb (fun j => bool_decide (j ∈ sched)) (seq 0 (List.length queries)) = true ->
  fair sched.
Proof.
  intros H j Hj. rewrite forallb_forall in H.
  specialize (H j). rewrite bool_decide_eq_true in H. apply H, in_seq. lia.
Qed.

Lemma calls_length c rs : calls c = map Ret rs -> List.length rs = 5%nat.
Proof.
  intros H. apply (f_equal (@List.length _)) in H.
  rewrite length_map in H. by rewrite <- H.
Qed.


(** ** The written file parses back *)

Lemma append_cons x (a b : string) : String x a ++ b = String x (a ++ b).
Proof. reflexivity. Qed.

Lemma append_nil_l (b : string) : "" ++ b = b.
Proof. reflexivity. Qed.

Lemma append_assoc (a b c : string) : (a ++ b) ++ c = a ++ (b ++ c).
Proof.
  induction a as [|x a IH]; [done|]. rewrite !append_cons. by rewrite IH.
Qed.

Lemma append_nil_r (a : string) : a ++ "" = a.
Proof.
  induction a as [|x a IH]; [done|]. rewrite append_cons. by rewrite IH.
Qed.

Lemma length_append (a b : string) :
  String.length (a ++ b) = (String.length a + String.length b)%nat.
Proof.
  induction a as [|x a IH]; [done|]. rewrite append_cons. simpl. by rewrite IH.
Qed.

Ltac norm_text :=
  repeat first [rewrite append_assoc | rewrite append_cons | rewrite append_nil_l].

(** *** Hexadecimal digits and surrogates *)

Lemma small_cases (P : N -> Prop) (k : nat) :
  (forall i, (i < k)%nat -> P (N.of_nat i)) -> forall n, (n < N.of_nat k)%N -> P n.
Proof.
  intros H n Hn. rewrite <- (N2Nat.id n). apply H. lia.
Qed.

Lemma hexval_hexdigit d : (d < 16)%N -> hexval (hexdigit d) = Some d.
Proof.
  revert d. apply (small_cases _ 16). intros i Hi.
  do 16 (destruct i as [|i]; [reflexivity|]). lia.
Qed.

Lemma hexdigit_plain d :
  (d < 16)%N ->
  Ascii.eqb (hexdigit d) dquote = false /\ Ascii.eqb (hexdigit d) backslash = false
  /\ (code (hexdigit d) <? 128)%N = true.
Proof.
  revert d. apply (small_cases _ 16). intros i Hi.
  do 16 (destruct i as [|i]; [done|]). lia.
Qed.

(** The four digits of [hex 4 n] and what the decoder makes of them. *)
Lemma hex4_digits n :
  (n < 65536)%N ->
  exists h1 h2 h3 h4 x1 x2 x3 x4,
    hex 4 n = String h1 (String h2 (String h3 (String h4 "")))
    /\ hexval h1 = Some x1 /\ hexval h2 = Some x2
    /\ hexval h3 = Some x3 /\ hexval h4 = Some x4
    /\ (x1 * 4096 + x2 * 256 + x3 * 16 + x4)%N = n.
Proof.
  intros Hn.
  exists (hexdigit (n / 16 / 16 / 16 mod 16)), (hexdigit (n / 16 / 16 mod 16)),
         (hexdigit (n / 16 mod 16)), (hexdigit (n mod 16)),
         (n / 16 / 16 / 16 mod 16)%N, (n / 16 / 16 mod 16)%N, (n / 16 mod 16)%N,
         (n mod 16)%N.
  split_and!; try (apply hexval_hexdigit; apply N.mod_upper_bound; lia).
  - reflexivity.
  - pose proof (N.div_mod n 16 ltac:(lia)).
    pose proof (N.div_mod (n / 16) 16 ltac:(lia)).
    pose proof (N.div_mod (n / 16 / 16) 16 ltac:(lia)).
    pose proof (N.div_mod (n / 16 / 16 / 16) 16 ltac:(lia)).
    pose proof (N.mod_upper_bound n 16 ltac:(lia)).
    pose proof (N.mod_upper_bound (n / 16) 16 ltac:(lia)).
    pose proof (N.mod_upper_bound (n / 16 / 16) 16 ltac:(lia)).
    assert ((n / 16 / 16 / 16 / 16 = 0)%N).
    { rewrite !N.Div0.div_div. apply N.div_small. lia. }
    lia.
Qed.

Lemma lor_disjoint a x : N.land a x = 0%N -> N.lor a x = (a + x)%N.
Proof.
  intros H. rewrite N.add_nocarry_lxor by done. by rewrite N.lxor_lor.
Qed.

Lemma land_low_bits a y : N.land a 1023 = 0%N -> N.land a (N.land y 1023) = 0%N.
Proof.
  intros H. rewrite (N.land_comm y), N.land_assoc, H. apply N.land_0_l.
Qed.

Lemma land_1023 y : N.land y 1023 = (y mod 1024)%N.
Proof. change 1023%N with (N.ones 10). by rewrite N.land_ones. Qed.

(** The two surrogates the encoder writes for a code point above U+FFFF. *)
Lemma surrogates v :
  (v < 1048576)%N ->
  let s1 := N.lor 55296 (N.land (N.shiftr v 10) 1023) in
  let s2 := N.lor 56320 (N.land v 1023) in
  (s1 < 65536)%N /\ (s2 < 65536)%N
  /\ is_high_surrogate s1 = true /\ is_low_surrogate s2 = true
  /\ N.lor (N.shiftl (s1 - 55296) 10) (s2 - 56320) = v.
Proof.
  intros Hv s1 s2.
  assert (H1 : s1 = (55296 + v / 1024)%N).
  { unfold s1. rewrite lor_disjoint by (by apply land_low_bits).
    rewrite land_1023, N.shiftr_div_pow2. change (2 ^ 10)%N with 1024%N.
    rewrite N.mod_small; [done|]. apply N.Div0.div_lt_upper_bound. lia. }
  assert (H2 : s2 = (56320 + v mod 1024)%N).
  { unfold s2. rewrite lor_disjoint by (by apply land_low_bits). by rewrite land_1023. }
  pose proof (N.mod_upper_bound v 1024 ltac:(lia)) as Hm.
  assert (Hd : (v / 1024 < 1024)%N) by (apply N.Div0.div_lt_upper_bound; lia).
  unfold is_high_surrogate, is_low_surrogate. rewrite H1, H2.
  clear H1 H2. clearbody s1 s2.
  pose proof (N.le_0_l (v / 1024)) as Hq. pose proof (N.le_0_l (v mod 1024)) as Hr.
  split_and!; try lia.
  - apply andb_true_intro; split; apply N.leb_le; lia.
  - apply andb_true_intro; split; apply N.leb_le; lia.
  - replace (55296 + v / 1024 - 55296)%N with (v / 1024)%N by lia.
    replace (56320 + v mod 1024 - 56320)%N with (v mod 1024)%N by lia.
    rewrite N.shiftl_mul_pow2. change (2 ^ 10)%N with 1024%N.
    rewrite lor_disjoint.
    + pose proof (N.div_mod v 1024 ltac:(lia)). lia.
    + rewrite <- land_1023, <- (N.shiftl_mul_pow2 _ 10).
      apply N.bits_inj. intros n. rewrite N.land_spec, N.bits_0.
      destruct (N.ltb_spec n 10) as [Hlt|Hge].
      * rewrite N.shiftl_spec_low by done. done.
      * rewrite N.land_spec. change 1023%N with (N.ones 10).
        rewrite N.ones_spec_high by done. by rewrite !andb_false_r.
Qed.

(** *** Strings *)

Lemma code_ascii_of_N c : (c < 256)%N -> code (ascii_of_N c) = c.
Proof. intros H. by apply N_ascii_embedding. Qed.

Lemma scan_unicode_escape c T :
  (c < 65536)%N -> (is_high_surrogate c = true -> no_low_next T) ->
  scanstring ("\u" ++ hex 4 c ++ T) = scan_map (cons c) (scanstring T).
Proof.
  intros Hc Hnext.
  destruct (hex4_digits c Hc) as (h1 & h2 & h3 & h4 & x1 & x2 & x3 & x4 & -> & H1 & H2 & H3 & H4 & Hsum).
  norm_text. cbn [scanstring].
  change (Ascii.eqb "\" dquote) with false. change (Ascii.eqb "\" backslash) with true.
  change (Ascii.eqb "u" "u") with true. cbv iota.
  rewrite H1, H2, H3, H4, Hsum.
  destruct T as [|b1 [|b2 [|g1 [|g2 [|g3 [|g4 r3]]]]]]; try reflexivity.
  destruct (is_high_surrogate c) eqn:Hhigh; [|reflexivity].
  destruct (Ascii.eqb b1 backslash) eqn:Hb1; [|reflexivity].
  destruct (Ascii.eqb b2 "u") eqn:Hb2; [|reflexivity].
  apply Ascii.eqb_eq in Hb1, Hb2. subst b1 b2.
  destruct (Hnext eq_refl g1 g2 g3 g4 r3 eq_refl)
    as (y1 & y2 & y3 & y4 & -> & -> & -> & -> & Hlow).
  cbn [andb]. by rewrite Hlow.
Qed.

Lemma scan_plain_char c T :
  (32 <= c)%N -> (c <= 126)%N -> c <> 34%N -> c <> 92%N ->
  scanstring (String (ascii_of_N c) T) = scan_map (cons c) (scanstring T).
Proof.
  intros H1 H2 H3 H4. assert (Hc : (c < N.of_nat 127)%N) by lia.
  revert c Hc H1 H2 H3 H4.
  apply (small_cases
           (fun c => (32 <= c)%N -> (c <= 126)%N -> c <> 34%N -> c <> 92%N ->
                     scanstring (String (ascii_of_N c) T) = scan_map (cons c) (scanstring T))
           127).
  intros i Hi.
  do 127 (destruct i as [|i]; [try (intros; lia); intros; reflexivity|]). lia.
Qed.

Lemma plain_char_not_backslash c :
  (32 <= c)%N -> (c <= 126)%N -> c <> 92%N -> ascii_of_N c <> backslash.
Proof.
  intros H1 H2 H3 Heq. apply (f_equal code) in Heq.
  rewrite code_ascii_of_N in Heq by lia. by simplify_eq.
Qed.

Ltac split_escape c :=
  unfold escape_char;
  destruct (N.eqb_spec c (code dquote)) as [->|?];
  [|destruct (N.eqb_spec c (code backslash)) as [->|?];
    [|destruct (N.leb_spec 32 c); cbn [andb];
      [destruct (N.leb_spec c 126); cbn [andb]|];
      [|destruct (N.eqb_spec c (code LF)) as [->|?];
        [|destruct (N.eqb_spec c (code CR)) as [->|?];
          [|destruct (N.eqb_spec c (code TAB)) as [->|?];
            [|destruct (N.eqb_spec c (code BS)) as [->|?];
              [|destruct (N.eqb_spec c (code FF)) as [->|?];
                [|destruct (N.ltb_spec c 65536)]]]]]..]]].

Lemma scanstring_escape_char c T :
  (c < 1114112)%N -> (is_high_surrogate c = true -> no_low_next T) ->
  scanstring (escape_char c ++ T) = scan_map (cons c) (scanstring T).
Proof.
  intros Hc Hnext. split_escape c; try reflexivity;
    try (by apply scan_unicode_escape);
    try (unfold char; rewrite append_cons, append_nil_l; apply scan_plain_char;
         unfold code in *; simpl in *; lia).
  all: cbv zeta; destruct (surrogates (c - 65536) ltac:(lia)) as (Hs1 & Hs2 & Hh & Hl & Hv);
    destruct (hex4_digits _ Hs1)
      as (h1 & h2 & h3 & h4 & x1 & x2 & x3 & x4 & -> & E1 & E2 & E3 & E4 & Hsum1);
    destruct (hex4_digits _ Hs2)
      as (g1 & g2 & g3 & g4 & y1 & y2 & y3 & y4 & -> & G1 & G2 & G3 & G4 & Hsum2);
    norm_text; cbn [scanstring];
    change (Ascii.eqb "\" dquote) with false; change (Ascii.eqb "\" backslash) with true;
    change (Ascii.eqb "u" "u") with true; cbv iota;
    rewrite E1, E2, E3, E4, Hsum1, Hh; cbn [andb];
    rewrite G1, G2, G3, G4, Hsum2, Hl, Hv;
    replace (65536 + (c - 65536))%N with c by lia; reflexivity.
Qed.

Lemma escape_head_not_low s rest :
  match s with
  | c :: _ => (c < 1114112)%N /\ is_low_surrogate c = false
  | [] => True
  end ->
  no_low_next (escape_str s ++ String dquote rest).
Proof.
  intros H g1 g2 g3 g4 r3 Heq. destruct s as [|c s]; [discriminate|].
  destruct H as [Hc Hlow]. cbn [escape_str] in Heq. rewrite append_assoc in Heq.
  revert Heq. split_escape c; try discriminate.
  all: try (unfold char; rewrite append_cons, append_nil_l; intros [= Hb _];
            exfalso; revert Hb; apply plain_char_not_backslash;
            unfold code in *; simpl in *; lia).
  all: try (destruct (hex4_digits c ltac:(lia))
              as (h1 & h2 & h3 & h4 & x1 & x2 & x3 & x4 & -> & E1 & E2 & E3 & E4 & Hsum);
            norm_text; intros [= <- <- <- <- _]; exists x1, x2, x3, x4; by rewrite Hsum).
  all: cbv zeta; destruct (surrogates (c - 65536) ltac:(lia)) as (Hs1 & Hs2 & Hh & Hl & Hv);
    destruct (hex4_digits _ Hs1)
      as (h1 & h2 & h3 & h4 & x1 & x2 & x3 & x4 & -> & E1 & E2 & E3 & E4 & Hsum1);
    norm_text; intros [= <- <- <- <- _]; exists x1, x2, x3, x4; rewrite Hsum1;
    split_and!; try done; unfold is_high_surrogate, is_low_surrogate in *;
    apply andb_true_iff in Hh as [_ Hh]; apply N.leb_le in Hh;
    apply andb_false_iff; left; apply N.leb_gt; lia.
Qed.

Lemma str_ok_cons c s :
  str_ok (c :: s) = true ->
  (c < 1114112)%N /\ str_ok s = true
  /\ (is_high_surrogate c = true ->
      match s with
      | c' :: _ => (c' < 1114112)%N /\ is_low_surrogate c' = false
      | [] => True
      end).
Proof.
  unfold str_ok. cbn [forallb no_pair]. intros H.
  apply andb_true_iff in H as [H1 H2]. apply andb_true_iff in H1 as [Hc Hall].
  apply andb_true_iff in H2 as [Hp Hno]. apply N.ltb_lt in Hc.
  split_and!; [done|by rewrite Hall, Hno|]. intros Hh.
  destruct s as [|c' s']; [done|]. cbn [forallb] in Hall.
  apply andb_true_iff in Hall as [Hc' _]. apply N.ltb_lt in Hc'.
  rewrite Hh in Hp. cbn [andb] in Hp. apply negb_true_iff in Hp. done.
Qed.

Lemma scanstring_encode s rest :
  str_ok s = true ->
  scanstring (escape_str s ++ String dquote rest) = Scanned s rest.
Proof.
  induction s as [|c s IH]; intros Hok; [reflexivity|].
  destruct (str_ok_cons c s Hok) as (Hc & Hs & Hnext).
  cbn [escape_str]. rewrite append_assoc, scanstring_escape_char, IH; [done..|].
  intros Hh. apply escape_head_not_low. by apply Hnext.
Qed.

(** *** Numbers *)

Lemma to_uint_head p : forall d, Pos.to_uint p <> D0 d.
Proof.
  intros d Hd.
  assert (Hn : unorm (Pos.to_uint p) = Pos.to_uint p).
  { rewrite <- (DecimalPos.Unsigned.to_of (Pos.to_uint p)).
    by rewrite DecimalPos.Unsigned.of_to. }
  rewrite Hd, unorm_D0 in Hn. unfold unorm in Hn.
  destruct (nzhead d) eqn:Hz; try (by eapply nzhead_nonzero; rewrite Hz; eauto).
  injection Hn as <-. by apply (DecimalPos.Unsigned.to_uint_nonzero p).
Qed.

Lemma scan_digits_uint d rest :
  no_digit rest ->
  scan_digits (NilEmpty.string_of_uint d ++ rest) = (NilEmpty.string_of_uint d, rest).
Proof.
  intros Hr. induction d; cbn [NilEmpty.string_of_uint]; rewrite ?append_cons, ?append_nil_l;
    try (simpl; by rewrite IHd).
  destruct rest as [|c r]; [done|]. simpl in *. by rewrite Hr.
Qed.

(** The digits [NilZero.string_of_uint] writes: one at least. *)
Lemma string_of_uint_digits d :
  exists c s, NilZero.string_of_uint d = String c s /\ is_digit c = true
              /\ forall rest, no_digit rest ->
                   scan_digits (String c s ++ rest) = (String c s, rest).
Proof.
  destruct d as [|d|d|d|d|d|d|d|d|d|d];
  [exists "0"%char, ""; split_and!; [done..|]; intros rest Hr;
   destruct rest as [|c r]; [done|]; simpl in *; by rewrite Hr
   |exists "0"%char, (NilEmpty.string_of_uint d)
   |exists "1"%char, (NilEmpty.string_of_uint d)
   |exists "2"%char, (NilEmpty.string_of_uint d)
   |exists "3"%char, (NilEmpty.string_of_uint d)
   |exists "4"%char, (NilEmpty.string_of_uint d)
   |exists "5"%char, (NilEmpty.string_of_uint d)
   |exists "6"%char, (NilEmpty.string_of_uint d)
   |exists "7"%char, (NilEmpty.string_of_uint d)
   |exists "8"%char, (NilEmpty.string_of_uint d)
   |exists "9"%char, (NilEmpty.string_of_uint d)];
  (split; [reflexivity|]; split; [done|]; intros rest Hr;
   rewrite append_cons; cbn [scan_digits];
   match goal with |- context [is_digit ?c] => change (is_digit c) with true end;
   cbv iota; by rewrite (scan_digits_uint d rest Hr)).
Qed.

Lemma delimited_no_digit rest : delimited rest -> no_digit rest.
Proof. destruct rest as [|c r]; [done|]. by intros [-> | ->]. Qed.

Lemma frac_part_delimited rest : delimited rest -> frac_part rest = ("", rest).
Proof. destruct rest as [|c r]; [done|]. by intros [-> | ->]. Qed.

Lemma exp_part_delimited rest : delimited rest -> exp_part rest = ("", rest).
Proof. destruct rest as [|c r]; [done|]. by intros [-> | ->]. Qed.

Lemma frac_part_digits d more :
  no_digit more ->
  frac_part ("." ++ NilZero.string_of_uint d ++ more)
    = ("." ++ NilZero.string_of_uint d, more).
Proof.
  intros Hm. destruct (string_of_uint_digits d) as (c & s & -> & Hc & Hs).
  rewrite append_cons, append_nil_l. unfold frac_part.
  change (Ascii.eqb "." ".") with true. cbv iota. by rewrite (Hs more Hm).
Qed.

Lemma exp_part_digits e rest :
  no_digit rest ->
  exp_part (print_exponent e ++ rest) = (print_exponent e, rest).
Proof.
  intros Hr. unfold print_exponent.
  destruct (string_of_uint_digits (exp_digits e)) as (c & s & -> & Hc & Hs).
  destruct (exp_minus e); norm_text; unfold exp_part;
    change (Ascii.eqb "e" "e") with true; cbn [orb];
    [change (Ascii.eqb "-" "+" || Ascii.eqb "-" "-") with true
    |change (Ascii.eqb "+" "+" || Ascii.eqb "+" "-") with true];
    cbv iota beta; rewrite <- append_cons, (Hs rest Hr); reflexivity.
Qed.

Lemma print_exponent_head e : exists s, print_exponent e = String "e" s.
Proof. unfold print_exponent. rewrite append_cons. by eexists. Qed.

(** The tail of a float text: what the pattern takes for the fraction and
    for the exponent, one of them at least. *)
Lemma tail_parts t rest :
  delimited rest ->
  exists frac exp,
    frac_part (print_tail t ++ rest) = (frac, exp ++ rest)
    /\ exp_part (exp ++ rest) = (exp, rest)
    /\ print_tail t = frac ++ exp
    /\ (frac <> "" \/ exp <> "")
    /\ no_digit (print_tail t ++ rest).
Proof.
  intros Hr. pose proof (delimited_no_digit rest Hr) as Hd.
  destruct t as [frac [e|]|e]; cbn [print_tail].
  - exists ("." ++ NilZero.string_of_uint frac), (print_exponent e).
    destruct (print_exponent_head e) as [s Hs].
    rewrite !append_assoc. rewrite frac_part_digits.
    + split_and!; [done|by apply exp_part_digits|done|by left|done].
    + rewrite Hs. done.
  - exists ("." ++ NilZero.string_of_uint frac), "".
    rewrite append_assoc, frac_part_digits by done. rewrite append_nil_l, append_nil_r.
    split_and!; [done|by apply exp_part_delimited|done|by left|done].
  - exists "", (print_exponent e).
    destruct (print_exponent_head e) as [s Hs].
    split_and!; [by rewrite Hs|by apply exp_part_digits|done|right; by rewrite Hs|by rewrite Hs].
Qed.

Lemma int_part_pos p more :
  no_digit more ->
  int_part (NilZero.string_of_uint (Pos.to_uint p) ++ more)
    = Some (NilZero.string_of_uint (Pos.to_uint p), more).
Proof.
  intros Hr. pose proof (to_uint_head p) as Hhd.
  pose proof (DecimalPos.Unsigned.to_uint_nonnil p) as Hnil.
  pose proof (scan_digits_uint (Pos.to_uint p) more Hr) as Hs.
  destruct (Pos.to_uint p) as [|d|d|d|d|d|d|d|d|d|d]; [done|by destruct (Hhd d)|..];
    unfold NilZero.string_of_uint; unfold int_part;
    cbn [NilEmpty.string_of_uint] in *; rewrite ?append_cons in *;
    cbn [Ascii.eqb Bool.eqb is_digit code N_of_ascii N_of_digits N.leb N.compare
         Pos.compare Pos.compare_cont andb N.add N.mul]; by rewrite Hs.
Qed.

Lemma int_part_N n more :
  no_digit more ->
  int_part (NilZero.string_of_uint (N.to_uint n) ++ more)
    = Some (NilZero.string_of_uint (N.to_uint n), more).
Proof.
  intros Hr. destruct n as [|p]; [reflexivity|]. by apply int_part_pos.
Qed.

Lemma uint_value p :
  NilZero.uint_of_string (NilZero.string_of_uint (Pos.to_uint p)) = Some (Pos.to_uint p)
  /\ Z.of_uint (Pos.to_uint p) = Z.pos p.
Proof.
  split.
  - apply NilZero.usu, DecimalPos.Unsigned.to_uint_nonnil.
  - unfold Z.of_uint. by rewrite DecimalPos.Unsigned.of_to.
Qed.

Lemma string_of_uint_head p :
  exists c s, NilZero.string_of_uint (Pos.to_uint p) = String c s
              /\ is_digit c = true /\ Ascii.eqb c "-" = false.
Proof.
  pose proof (DecimalPos.Unsigned.to_uint_nonnil p) as Hnil.
  destruct (Pos.to_uint p); [done|..]; eexists _, _; split; try reflexivity; done.
Qed.

Lemma string_of_N_head n :
  exists c s, NilZero.string_of_uint (N.to_uint n) = String c s
              /\ is_digit c = true /\ Ascii.eqb c "-" = false.
Proof.
  destruct n as [|p]; [by eexists _, _|]. apply string_of_uint_head.
Qed.

Lemma match_number_repr n rest :
  delimited rest ->
  match_number (int_repr n ++ rest) = Some (Scanned (PyInt n) rest).
Proof.
  intros Hr. pose proof (frac_part_delimited rest Hr) as Hf.
  pose proof (exp_part_delimited rest Hr) as He.
  pose proof (delimited_no_digit rest Hr) as Hd.
  destruct n as [|p|p]; unfold int_repr, Z.to_int, NilZero.string_of_int.
  - change (NilZero.string_of_uint zero) with "0". rewrite append_cons, append_nil_l.
    unfold match_number, int_part.
    change (Ascii.eqb "0" "-") with false. cbv iota beta. rewrite Ascii.eqb_refl.
    cbv iota beta. by rewrite Hf, He.
  - pose proof (int_part_pos p rest Hd) as Hi.
    destruct (uint_value p) as [Hu Hz].
    destruct (string_of_uint_head p) as (c & s & Hs & Hc & Hm).
    rewrite Hs in *. rewrite append_cons in *.
    unfold match_number. rewrite Hm, Hi. cbv iota beta. rewrite Hf, He, Hu, Hz. done.
  - pose proof (int_part_pos p rest Hd) as Hi.
    destruct (uint_value p) as [Hu Hz].
    rewrite append_cons. unfold match_number.
    change (Ascii.eqb "-" "-") with true. cbv iota beta.
    rewrite Hi. cbv iota beta. rewrite Hf, He, Hu, Hz. done.
Qed.

Lemma match_number_float t rest :
  delimited rest ->
  match_number (print_float t ++ rest)
    = Some (Scanned (PyFloat (float_of_str (print_float t))) rest).
Proof.
  intros Hr. unfold print_float.
  destruct (tail_parts (text_tail t) rest Hr) as (frac & exp & Hf & He & Ht & Hne & Hd).
  pose proof (int_part_N (text_int t) (print_tail (text_tail t) ++ rest) Hd) as Hi.
  destruct (string_of_N_head (text_int t)) as (c & s & Hs & Hc & Hm).
  assert (Hfloat : forall (minus : bool) ds,
            match frac, exp with
            | EmptyString, EmptyString =>
                match NilZero.uint_of_string ds with
                | Some d =>
                    Some (Scanned (PyInt (if minus then - Z.of_uint d else Z.of_uint d))
                            (exp ++ rest))
                | None => Some DecodeError
                end
            | _, _ =>
                Some (Scanned
                        (PyFloat (float_of_str ((if minus then "-" else "")
                                                ++ ds ++ frac ++ exp)))
                        rest)
            end
            = Some (Scanned
                      (PyFloat (float_of_str ((if minus then "-" else "")
                                              ++ ds ++ frac ++ exp)))
                      rest)).
  { intros minus ds. destruct frac, exp; try done. by destruct Hne. }
  destruct (text_minus t).
  - rewrite !append_assoc, append_cons, append_nil_l. unfold match_number.
    change (Ascii.eqb "-" "-") with true. cbv iota beta.
    rewrite Hi. cbv iota beta. rewrite Hf, He. rewrite Ht.
    destruct frac, exp; try (by destruct Hne); reflexivity.
  - rewrite append_nil_l, !append_assoc. unfold match_number.
    rewrite Hs in *. rewrite append_cons in *. rewrite Hm. rewrite Hi.
    cbv iota beta. rewrite Hf, He, Ht.
    destruct frac, exp; try (by destruct Hne); reflexivity.
Qed.

Lemma scan_once_number_start fuel c r :
  number_start c = true ->
  scan_once (S fuel) (String c r) =
    match match_number (String c r) with
    | Some x => x
    | None =>
        match starts_with "-Infinity" (String c r) with
        | Some rest => Scanned (PyFloat neg_inf) rest
        | None => DecodeError
        end
    end.
Proof.
  destruct c as [[] [] [] [] [] [] [] []]; try discriminate; intros _; reflexivity.
Qed.

Lemma int_repr_head n :
  exists c s, int_repr n = String c s /\ number_start c = true.
Proof.
  destruct n as [|p|p]; unfold int_repr, Z.to_int, NilZero.string_of_int.
  - by eexists _, _.
  - destruct (string_of_uint_head p) as (c & s & Hs & Hd & Hm).
    exists c, s. split; [done|]. unfold number_start. by rewrite Hd.
  - by eexists _, _.
Qed.

Lemma scan_once_int fuel n rest :
  delimited rest ->
  scan_once (S fuel) (int_repr n ++ rest) = Scanned (PyInt n) rest.
Proof.
  intros Hr. pose proof (match_number_repr n rest Hr) as Hm.
  destruct (int_repr_head n) as (c & s & Hs & Hc).
  rewrite Hs in *. rewrite append_cons in *.
  by rewrite (scan_once_number_start fuel c _ Hc), Hm.
Qed.

Lemma print_float_head t :
  exists c s, print_float t = String c s /\ number_start c = true.
Proof.
  unfold print_float. destruct (text_minus t); [by eexists _, _|].
  destruct (string_of_N_head (text_int t)) as (c & s & Hs & Hd & _).
  rewrite append_nil_l, Hs, append_cons. eexists c, _. split; [done|].
  unfold number_start. by rewrite Hd.
Qed.

Lemma floatstr_head x :
  exists c s, floatstr x = String c s /\ value_start c = true.
Proof.
  unfold floatstr, float_repr.
  destruct (float_eqb x x); cbn [negb]; [|by eexists _, _].
  destruct (float_eqb x inf); [by eexists _, _|].
  destruct (float_eqb x neg_inf); [by eexists _, _|].
  destruct (print_float_head (float_digits x)) as (c & s & Hs & Hc).
  exists c, s. split; [done|]. unfold value_start. by rewrite Hc.
Qed.

Section RoundTrip.
Context {laws : runtime_laws rt}.

(** A float that is no NaN is read back from the text written for it. *)
Lemma scan_once_float fuel x rest :
  float_eqb x x = true -> delimited rest ->
  scan_once (S fuel) (floatstr x ++ rest) = Scanned (PyFloat x) rest.
Proof.
  intros Hx Hr. unfold floatstr, float_repr. rewrite Hx. cbn [negb].
  destruct (float_eqb x inf) eqn:Hi.
  { apply eqb_inf in Hi as ->. reflexivity. }
  destruct (float_eqb x neg_inf) eqn:Hn.
  { apply eqb_neg_inf in Hn as ->. reflexivity. }
  pose proof (match_number_float (float_digits x) rest Hr) as Hm.
  destruct (print_float_head (float_digits x)) as (c & s & Hs & Hc).
  rewrite Hs in Hm |- *. rewrite append_cons in Hm |- *.
  rewrite (scan_once_number_start fuel c _ Hc), Hm, <- Hs.
  by rewrite repr_reads_back.
Qed.

End RoundTrip.

(** *** Whitespace and the first character of a value *)

Lemma skip_ws_spaces n s : skip_ws (spaces n ++ s) = skip_ws s.
Proof. induction n as [|n IH]; [done|]. simpl. by rewrite ?append_cons. Qed.

Lemma skip_ws_newline_indent level s : skip_ws (newline_indent level ++ s) = skip_ws s.
Proof. unfold newline_indent. rewrite ?append_cons. simpl. apply skip_ws_spaces. Qed.

Lemma skip_ws_value_start c r : value_start c = true -> skip_ws (String c r) = String c r.
Proof.
  intros H. simpl.
  assert (is_ws c = false) as ->; [|done].
  destruct c as [[] [] [] [] [] [] [] []]; try discriminate; reflexivity.
Qed.

Lemma value_start_not_close c :
  value_start c = true -> Ascii.eqb c "]" = false /\ Ascii.eqb c "}" = false.
Proof. destruct c as [[] [] [] [] [] [] [] []]; try discriminate; done. Qed.

Lemma iterencode_head v level :
  exists c s, iterencode v level = String c s /\ value_start c = true.
Proof.
  destruct v as [|[]|n|x|s|[|y xs]|[|y xs]|[|[k v] d]]; try (by eexists _, _).
  - destruct (int_repr_head n) as (c & s & Hs & Hc).
    exists c, s. split; [done|]. unfold value_start. by rewrite Hc.
  - apply floatstr_head.
Qed.

Lemma skip_ws_iterencode v level rest :
  skip_ws (iterencode v level ++ rest) = iterencode v level ++ rest.
Proof.
  destruct (iterencode_head v level) as (c & s & -> & Hc).
  rewrite append_cons. by apply skip_ws_value_start.
Qed.

(** *** Nested values *)

Lemma value_ind (P : value -> Prop) :
  P PyNone -> (forall b, P (PyBool b)) -> (forall n, P (PyInt n)) ->
  (forall x, P (PyFloat x)) ->
  (forall s, P (PyStr s)) ->
  (forall xs, Forall P xs -> P (PyList xs)) ->
  (forall xs, Forall P xs -> P (PyTuple xs)) ->
  (forall d, Forall (fun kv => P (snd kv)) d -> P (PyDict d)) ->
  forall v, P v.
Proof.
  intros HN HB HI HF HS HL HT HD. fix IH 1.
  intros [|b|n|x|s|xs|xs|d]; [exact HN|apply HB|apply HI|apply HF|apply HS|..].
  - apply HL. induction xs as [|x xs IHxs]; constructor; [apply IH|apply IHxs].
  - apply HT. induction xs as [|x xs IHxs]; constructor; [apply IH|apply IHxs].
  - apply HD. induction d as [|[k v] d IHd]; constructor; [apply IH|apply IHd].
Qed.

Lemma scan_once_str fuel s rest :
  str_ok s = true ->
  scan_once (S fuel) (encode_basestring_ascii s ++ rest) = Scanned (PyStr s) rest.
Proof.
  intros Hs. unfold encode_basestring_ascii, char.
  rewrite ?append_cons, ?append_assoc, ?append_cons, ?append_nil_l.
  cbn [scan_once]. change (Ascii.eqb dquote dquote) with true. cbv iota.
  by rewrite scanstring_encode.
Qed.

Lemma JSONArray_last fuel s x level r :
  scan_once fuel s = Scanned x (newline_indent level ++ String "]" r) ->
  JSONArray (S fuel) s = Scanned [x] r.
Proof. intros H. cbn [JSONArray]. by rewrite H, skip_ws_newline_indent. Qed.

Lemma JSONArray_more fuel s x level r :
  scan_once fuel s = Scanned x (String "," (newline_indent level ++ r)) ->
  JSONArray (S fuel) s = scan_map (cons x) (JSONArray fuel (skip_ws r)).
Proof.
  intros H. cbn [JSONArray]. rewrite H.
  change (skip_ws (String "," (newline_indent level ++ r)))
    with (String "," (newline_indent level ++ r)).
  cbv iota. change (Ascii.eqb "," "]") with false. change (Ascii.eqb "," ",") with true.
  cbv iota. by rewrite skip_ws_newline_indent.
Qed.

Lemma JSONArray_items level x xs :
  Forall scans_back (x :: xs) ->
  forall fuel rest,
    (list_sum (map (fun y => S (size y)) (x :: xs)) <= fuel)%nat ->
    JSONArray fuel
      (iterencode x (S level)
         ++ encode_rest (S level) (fun y => iterencode y (S level)) xs
         ++ newline_indent level ++ String "]" rest)
    = Scanned (x :: xs) rest.
Proof.
  revert x. induction xs as [|y ys IH]; intros x HF fuel rest Hfuel;
    apply Forall_cons in HF as [Hx HF]; simpl in Hfuel;
    (destruct fuel as [|fuel]; [lia|]).
  - cbn [encode_rest]. rewrite append_nil_l.
    apply JSONArray_last with level. apply Hx; [lia|by right].
  - cbn [encode_rest]. norm_text.
    rewrite (JSONArray_more fuel _ x (S level)
               (iterencode y (S level)
                  ++ encode_rest (S level) (fun y => iterencode y (S level)) ys
                  ++ newline_indent level ++ String "]" rest)).
    + rewrite skip_ws_iterencode, IH; [done|done|]. simpl. lia.
    + apply Hx; [lia|by left].
Qed.

Lemma encode_item k (after : string) :
  encode_basestring_ascii k ++ String ":" (String " " after)
    = String dquote (item_tail k after).
Proof. unfold encode_basestring_ascii, item_tail, char. by norm_text. Qed.

Lemma JSONObject_last fuel k v lv level rest :
  str_ok k = true ->
  scan_once fuel (iterencode v lv ++ newline_indent level ++ String "}" rest)
    = Scanned v (newline_indent level ++ String "}" rest) ->
  JSONObject (S fuel)
    (item_tail k (iterencode v lv ++ newline_indent level ++ String "}" rest))
    = Scanned [(k, v)] rest.
Proof.
  intros Hk H. unfold item_tail. cbn [JSONObject]. rewrite scanstring_encode by done.
  change (skip_ws (String ":" ?r)) with (String ":" r). cbv iota.
  change (Ascii.eqb ":" ":") with true. cbv iota.
  change (skip_ws (String " " ?r)) with (skip_ws r).
  by rewrite skip_ws_iterencode, H, skip_ws_newline_indent.
Qed.

Lemma JSONObject_more fuel k v lv level k' after :
  str_ok k = true ->
  scan_once fuel
    (iterencode v lv ++ String "," (newline_indent level ++ String dquote (item_tail k' after)))
    = Scanned v (String "," (newline_indent level ++ String dquote (item_tail k' after))) ->
  JSONObject (S fuel)
    (item_tail k
       (iterencode v lv
          ++ String "," (newline_indent level ++ String dquote (item_tail k' after))))
    = scan_map (cons (k, v)) (JSONObject fuel (item_tail k' after)).
Proof.
  intros Hk H. unfold item_tail at 1. cbn [JSONObject]. rewrite scanstring_encode by done.
  change (skip_ws (String ":" ?r)) with (String ":" r). cbv iota.
  change (Ascii.eqb ":" ":") with true. cbv iota.
  change (skip_ws (String " " ?r)) with (skip_ws r).
  rewrite skip_ws_iterencode, H.
  change (skip_ws (String "," ?r)) with (String "," r). cbv iota.
  change (Ascii.eqb "," "}") with false. change (Ascii.eqb "," ",") with true. cbv iota.
  rewrite skip_ws_newline_indent.
  change (skip_ws (String dquote ?r)) with (String dquote r). cbv iota.
  change (Ascii.eqb dquote dquote) with true. done.
Qed.

Lemma JSONObject_items level k v d :
  Forall (fun kv => str_ok (key_str (fst kv)) = true /\ scans_back (snd kv)) ((k, v) :: d) ->
  forall fuel rest,
    (list_sum (map (fun kv => S (size (snd kv))) ((k, v) :: d)) <= fuel)%nat ->
    JSONObject fuel
      (item_tail (key_str k)
         (iterencode v (S level)
            ++ encode_rest (S level)
                 (fun kv => encode_basestring_ascii (key_str (fst kv)) ++ ": "
                              ++ iterencode (snd kv) (S level)) d
            ++ newline_indent level ++ String "}" rest))
    = Scanned (read_items ((k, v) :: d)) rest.
Proof.
  revert k v. induction d as [|[k' v'] d IH]; intros k v HF fuel rest Hfuel;
    apply Forall_cons in HF as [[Hk Hv] HF]; simpl in Hfuel, Hv, Hk;
    (destruct fuel as [|fuel]; [lia|]).
  - cbn [encode_rest]. rewrite append_nil_l.
    apply JSONObject_last; [done|]. apply Hv; [lia|by right].
  - cbn [encode_rest fst snd]. norm_text.
    rewrite encode_item.
    rewrite (JSONObject_more fuel (key_str k) v (S level) (S level) (key_str k')); [|done|].
    + rewrite IH; [done|done|]. simpl. lia.
    + apply Hv; [lia|by left].
Qed.

(** *** [dict(pairs)] of pairs with distinct keys *)

Lemma str_eqb_eq a b : str_eqb a b = true <-> a = b.
Proof.
  revert b. induction a as [|x a IH]; intros [|y b]; simpl; try done.
  rewrite andb_true_iff, N.eqb_eq, IH. split; [by intros [-> ->]|by intros [= -> ->]].
Qed.

Lemma str_eqb_refl a : str_eqb a a = true.
Proof. by apply str_eqb_eq. Qed.

Lemma str_eqb_sym a b : str_eqb a b = str_eqb b a.
Proof.
  destruct (str_eqb a b) eqn:H1, (str_eqb b a) eqn:H2; try done.
  - apply str_eqb_eq in H1 as ->. by rewrite str_eqb_refl in H2.
  - apply str_eqb_eq in H2 as ->. by rewrite str_eqb_refl in H1.
Qed.

Lemma dict_set_fresh acc k v :
  existsb (str_eqb k) (map (fun kv => key_str (fst kv)) acc) = false ->
  Forall (fun kv => key_ok (fst kv) = true) acc ->
  dict_set acc k v = (acc ++ [(KStr k, v)])%list.
Proof.
  induction acc as [|[k' v'] acc IH]; [done|]. simpl. intros H HF.
  apply Forall_cons in HF as [Hk HF]. destruct k' as [| | | |s]; try done.
  simpl in *. rewrite (str_eqb_sym s k). destruct (str_eqb k s); [done|].
  simpl in H. by rewrite IH.
Qed.

Lemma existsb_app_false {A} (f : A -> bool) xs ys :
  existsb f (xs ++ ys)%list = false <-> existsb f xs = false /\ existsb f ys = false.
Proof. rewrite existsb_app. apply orb_false_iff. Qed.

Lemma dict_of_pairs_distinct_from acc d :
  Forall (fun kv => key_ok (fst kv) = true) acc ->
  Forall (fun kv => key_ok (fst kv) = true) d ->
  distinct (map (fun kv => key_str (fst kv)) d) = true ->
  (forall k, In k (map (fun kv => key_str (fst kv)) d) ->
     existsb (str_eqb k) (map (fun kv => key_str (fst kv)) acc) = false) ->
  fold_left (fun d kv => dict_set d (fst kv) (snd kv)) (read_items d) acc = (acc ++ d)%list.
Proof.
  revert acc. induction d as [|[k v] d IH]; intros acc Ha Hk Hd Hacc.
  - by rewrite app_nil_r.
  - apply Forall_cons in Hk as [Hk0 Hk].
    simpl in Hd. apply andb_true_iff in Hd as [Hfresh Hd]. apply negb_true_iff in Hfresh.
    simpl. rewrite dict_set_fresh; [|apply Hacc; by left|done].
    destruct k as [| | | |s]; try done. cbn [key_str] in *.
    rewrite IH; [by rewrite <- app_assoc|..|done|].
    + apply Forall_app. split; [done|]. by constructor.
    + done.
    + intros k' Hin. rewrite map_app. apply existsb_app_false. split.
      * apply Hacc. by right.
      * simpl. rewrite orb_false_r. destruct (str_eqb k' s) eqn:He; [|done].
        apply str_eqb_eq in He as ->.
        apply not_true_iff_false in Hfresh. exfalso. apply Hfresh. apply existsb_exists.
        exists s. split; [done|apply str_eqb_refl].
Qed.

Lemma dict_of_pairs_distinct d :
  Forall (fun kv => key_ok (fst kv) = true) d ->
  distinct (map (fun kv => key_str (fst kv)) d) = true ->
  dict_of_pairs (read_items d) = d.
Proof.
  intros Hk Hd. unfold dict_of_pairs. by rewrite dict_of_pairs_distinct_from.
Qed.

(** *** Every well-formed value scans back *)

Lemma key_ok_str k : key_ok k = true -> str_ok (key_str k) = true.
Proof. by destruct k. Qed.

Section ScansBack.
Context {laws : runtime_laws rt}.

Lemma scan_once_iterencode v : wf v = true -> scans_back v.
Proof.
  induction v as [|b|n|x|s|xs IH|xs IH|d IH] using value_ind;
    intros Hwf level fuel rest Hfuel Hrest;
    (destruct fuel as [|fuel]; [simpl in Hfuel; lia|]).
  - reflexivity.
  - by destruct b.
  - by apply scan_once_int.
  - by apply scan_once_float.
  - by apply scan_once_str.
  - destruct xs as [|x xs]; [reflexivity|].
    cbn [iterencode encode_list]. norm_text.
    destruct (iterencode_head x (S level)) as (c & s & Hs & Hc).
    destruct (value_start_not_close c Hc) as [Hc1 _].
    cbn [scan_once]. change (Ascii.eqb "[" dquote) with false.
    change (Ascii.eqb "[" "{") with false. change (Ascii.eqb "[" "[") with true. cbv iota.
    rewrite skip_ws_newline_indent, skip_ws_iterencode.
    rewrite Hs at 1. rewrite append_cons, Hc1, <- append_cons, <- Hs.
    rewrite JSONArray_items; [done| |simpl in Hfuel; simpl; lia].
    cbn [wf] in Hwf. rewrite forallb_forall in Hwf. rewrite Forall_forall in IH.
    apply Forall_forall. intros y Hy. apply IH; [done|]. apply Hwf.
    by apply list_elem_of_In.
  - done.
  - destruct d as [|[k v] d]; [reflexivity|].
    cbn [wf] in Hwf. apply andb_true_iff in Hwf as [Hwf Hvals].
    apply andb_true_iff in Hwf as [Hkeys Hdist].
    cbn [iterencode]. norm_text. rewrite encode_item.
    cbn [scan_once]. change (Ascii.eqb "{" dquote) with false.
    change (Ascii.eqb "{" "{") with true. cbv iota.
    rewrite skip_ws_newline_indent.
    change (skip_ws (String dquote ?r)) with (String dquote r). cbv iota.
    change (Ascii.eqb dquote "}") with false. change (Ascii.eqb dquote dquote) with true.
    cbv iota.
    rewrite forallb_forall in Hkeys, Hvals. rewrite Forall_forall in IH.
    rewrite JSONObject_items; [|..|simpl in Hfuel; simpl; lia].
    + cbn [scan_map]. rewrite dict_of_pairs_distinct; [done| |done].
      apply Forall_forall. intros kv Hkv. apply Hkeys. by apply list_elem_of_In.
    + apply Forall_forall. intros kv Hkv. split.
      * apply key_ok_str, Hkeys. by apply list_elem_of_In.
      * apply IH; [done|]. apply Hvals. by apply list_elem_of_In.
Qed.

End ScansBack.

(** *** Fuel: the text is at least as long as the value is big *)

Lemma length_newline_indent level : (1 <= String.length (newline_indent level))%nat.
Proof. unfold newline_indent. simpl. lia. Qed.

Lemma length_encode_rest {A} level (f : A -> string) (sz : A -> nat) xs :
  Forall (fun x => (sz x <= String.length (f x))%nat) xs ->
  (list_sum (map (fun x => S (sz x)) xs)
   <= String.length (encode_rest level f xs))%nat.
Proof.
  induction 1 as [|x xs Hx _ IH]; [done|].
  cbn [encode_rest]. rewrite !length_append. simpl. lia.
Qed.

Lemma length_encode_list level xs :
  Forall (fun x => forall level, (size x <= String.length (iterencode x level))%nat) xs ->
  (S (list_sum (map (fun x => S (size x)) xs))
   <= String.length (encode_list level (fun y => iterencode y (S level)) xs))%nat.
Proof.
  intros IH. destruct xs as [|x xs]; [simpl; lia|].
  apply Forall_cons in IH as [Hx IH].
  cbn [encode_list map list_sum]. rewrite !length_append.
  pose proof (length_newline_indent (S level)).
  pose proof (length_newline_indent level).
  pose proof (Hx (S level)).
  pose proof (length_encode_rest (S level) (fun y => iterencode y (S level)) size xs) as Hr.
  specialize (Hr ltac:(eapply Forall_impl; [exact IH|]; intros y Hy; apply Hy)).
  simpl. lia.
Qed.

Lemma size_le_length v : forall level, (size v <= String.length (iterencode v level))%nat.
Proof.
  induction v as [|b|n|x|s|xs IH|xs IH|d IH] using value_ind; intros level.
  - simpl. lia.
  - destruct b; simpl; lia.
  - destruct (int_repr_head n) as (c & s & Hs & _). simpl. rewrite Hs. simpl. lia.
  - destruct (floatstr_head x) as (c & s & Hs & _). simpl. rewrite Hs. simpl. lia.
  - simpl. lia.
  - by apply length_encode_list.
  - by apply length_encode_list.
  - destruct d as [|[k v] d]; [simpl; lia|].
    apply Forall_cons in IH as [Hv IH]. simpl in Hv.
    cbn [iterencode size map list_sum snd]. rewrite !length_append.
    pose proof (length_newline_indent (S level)).
    pose proof (length_newline_indent level).
    pose proof (Hv (S level)).
    pose proof (length_encode_rest (S level)
                  (fun kv => encode_basestring_ascii (key_str (fst kv)) ++ ": "
                               ++ iterencode (snd kv) (S level))
                  (fun kv => size (snd kv)) d) as Hr.
    specialize (Hr ltac:(eapply Forall_impl; [exact IH|]; intros kv Hkv; simpl;
                         rewrite !length_append; specialize (Hkv (S level)); lia)).
    simpl. lia.
Qed.

(** The text [json.dump] writes for a well-formed value loads to that value. *)
Lemma json_round_trip {laws : runtime_laws rt} v :
  wf v = true -> json_loads (json_dumps v) = Loaded v.
Proof.
  intros Hwf. unfold json_loads, json_dumps.
  pose proof (skip_ws_iterencode v 0 "") as Hs. rewrite append_nil_r in Hs. rewrite Hs.
  pose proof (scan_once_iterencode v Hwf 0%nat
                (S (2 * String.length (iterencode v 0))) "") as H.
  rewrite append_nil_r in H. rewrite H; [done| |done].
  pose proof (size_le_length v 0). lia.
Qed.

(** ** The fuel [json_loads] gives is never used up *)

Lemma skip_ws_length s : (String.length (skip_ws s) <= String.length s)%nat.
Proof.
  induction s as [|c s IH]; [done|]. simpl. destruct (is_ws c); simpl; lia.
Qed.

Lemma scan_map_scanned {A B} (f : A -> B) r b rest :
  scan_map f r = Scanned b rest -> exists a, r = Scanned a rest /\ b = f a.
Proof. destruct r; simpl; intros H; simplify_eq. eauto. Qed.

Lemma scan_map_exhausted {A B} (f : A -> B) r :
  scan_map f r = Exhausted -> r = Exhausted.
Proof. by destruct r. Qed.

Lemma progresses_error {A} s : @progresses A DecodeError s.
Proof. split; [done|]. intros a rest H. done. Qed.

Lemma progresses_map {A B} (f : A -> B) r s' s :
  progresses r s' -> (String.length s' <= String.length s)%nat ->
  progresses (scan_map f r) s.
Proof.
  intros [He Hp] Hlen. split.
  - intros H. by apply scan_map_exhausted in H.
  - intros b rest H. apply scan_map_scanned in H as (a & H & _). apply Hp in H. lia.
Qed.

Lemma scanstring_progress n :
  forall s, (String.length s <= n)%nat -> progresses (scanstring s) s.
Proof.
  induction n as [|n IH]; intros s Hn.
  - destruct s; [|simpl in Hn; lia]. apply progresses_error.
  - destruct s as [|c r]; [apply progresses_error|].
    simpl in Hn. cbn [scanstring].
    destruct (Ascii.eqb c dquote).
    { split; [done|]. intros k rest [= _ <-]. simpl. lia. }
    destruct (Ascii.eqb c backslash).
    + destruct r as [|e r']; [apply progresses_error|].
      simpl in Hn. destruct (Ascii.eqb e "u").
      * destruct r' as [|h1 [|h2 [|h3 [|h4 r'']]]]; try apply progresses_error.
        simpl in Hn.
        destruct (hexval h1), (hexval h2), (hexval h3), (hexval h4);
          try apply progresses_error.
        assert (Hone : forall uni, progresses (scan_map (cons uni) (scanstring r''))
                         (String c (String e (String h1 (String h2 (String h3 (String h4 r''))))))).
        { intros uni. apply progresses_map with r''; [apply IH; lia|simpl; lia]. }
        destruct r'' as [|b1 [|b2 [|g1 [|g2 [|g3 [|g4 r3]]]]]]; try apply Hone.
        destruct (is_high_surrogate _ && Ascii.eqb b1 backslash && Ascii.eqb b2 "u");
          [|apply Hone].
        destruct (hexval g1), (hexval g2), (hexval g3), (hexval g4);
          try apply progresses_error.
        destruct (is_low_surrogate _); [|apply Hone].
        apply progresses_map with r3; [apply IH; simpl in Hn; lia|simpl; lia].
      * destruct (unescape e); [|apply progresses_error].
        apply progresses_map with r'; [apply IH; lia|simpl; lia].
    + destruct (N.ltb (code c) 32); [apply progresses_error|].
      apply progresses_map with r; [apply IH; lia|simpl; lia].
Qed.

Lemma scan_digits_length s :
  (String.length (snd (scan_digits s)) <= String.length s)%nat.
Proof.
  induction s as [|c s IH]; [done|]. simpl. destruct (is_digit c); [|simpl; lia].
  destruct (scan_digits s) as [ds rest]. simpl in *. lia.
Qed.

Lemma int_part_progress s ds rest :
  int_part s = Some (ds, rest) -> (String.length rest < String.length s)%nat.
Proof.
  destruct s as [|c r]; [done|]. unfold int_part.
  destruct (Ascii.eqb c "0"); [intros [= _ <-]; simpl; lia|].
  destruct (is_digit c) eqn:Hd; [|done]. intros [= H].
  pose proof (scan_digits_length r) as Hl. simpl in H. rewrite Hd in H.
  destruct (scan_digits r) as [ds' rest']. simpl in *. simplify_eq. lia.
Qed.

Lemma frac_part_length s :
  (String.length (snd (frac_part s)) <= String.length s)%nat.
Proof.
  destruct s as [|c r]; [done|]. unfold frac_part.
  destruct (Ascii.eqb c "."); [|done].
  pose proof (scan_digits_length r) as Hl.
  destruct (scan_digits r) as [[|d ds] rest]; simpl in *; lia.
Qed.

Lemma exp_part_length s :
  (String.length (snd (exp_part s)) <= String.length s)%nat.
Proof.
  destruct s as [|e r]; [done|]. unfold exp_part.
  destruct (Ascii.eqb e "e" || Ascii.eqb e "E"); [|done].
  destruct r as [|c r'].
  - by simpl.
  - destruct (Ascii.eqb c "+" || Ascii.eqb c "-").
    + pose proof (scan_digits_length r') as Hl.
      destruct (scan_digits r') as [[|d ds] rest]; simpl in *; lia.
    + pose proof (scan_digits_length (String c r')) as Hl.
      destruct (scan_digits (String c r')) as [[|d ds] rest]; simpl in *; lia.
Qed.

Lemma match_number_progress s r : match_number s = Some r -> progresses r s.
Proof.
  unfold match_number. intros H.
  assert (Hcase : exists s1 (minus : bool), (String.length s1 <= String.length s)%nat
            /\ match int_part s1 with
               | Some (ds, rest) =>
                   let '(frac, rest1) := frac_part rest in
                   let '(exp, rest2) := exp_part rest1 in
                   match frac, exp with
                   | EmptyString, EmptyString =>
                       match NilZero.uint_of_string ds with
                       | Some d =>
                           Some (Scanned (PyInt (if minus then - Z.of_uint d
                                                 else Z.of_uint d)) rest)
                       | None => Some DecodeError
                       end
                   | _, _ =>
                       Some (Scanned
                               (PyFloat (float_of_str ((if minus then "-" else "")
                                                       ++ ds ++ frac ++ exp)))
                               rest2)
                   end
               | None => None
               end = Some r).
  { destruct s as [|c s']; [exists "", false; by split|].
    destruct (Ascii.eqb c "-"); [exists s', true|exists (String c s'), false];
      (split; [simpl; lia|done]). }
  clear H. destruct Hcase as (s1 & minus & Hlen & H).
  destruct (int_part s1) as [[ds rest]|] eqn:Hi; [|done].
  apply int_part_progress in Hi.
  pose proof (frac_part_length rest) as Hf.
  destruct (frac_part rest) as [frac rest1].
  pose proof (exp_part_length rest1) as He.
  destruct (exp_part rest1) as [exp rest2]. simpl in Hf, He.
  destruct frac, exp; try destruct (NilZero.uint_of_string ds); simplify_eq;
    (split; [done|]); intros v rest' Heq; simplify_eq; lia.
Qed.

Lemma starts_with_length p s rest :
  starts_with p s = Some rest ->
  String.length s = (String.length p + String.length rest)%nat.
Proof.
  revert s. induction p as [|a p IH]; intros s H; [by simplify_eq/=|].
  destruct s as [|b s]; [done|]. simpl in H.
  destruct (Ascii.eqb a b); [|done]. apply IH in H. simpl. lia.
Qed.

Lemma scan_atom_progress s : progresses (scan_atom s) s.
Proof.
  unfold scan_atom.
  destruct (starts_with "null" s) as [r1|] eqn:H1.
  { apply starts_with_length in H1. split; [done|]. intros v rest [= _ <-]. simpl in H1. lia. }
  destruct (starts_with "true" s) as [r2|] eqn:H2.
  { apply starts_with_length in H2. split; [done|]. intros v rest [= _ <-]. simpl in H2. lia. }
  destruct (starts_with "false" s) as [r3|] eqn:H3.
  { apply starts_with_length in H3. split; [done|]. intros v rest [= _ <-]. simpl in H3. lia. }
  destruct (match_number s) as [r|] eqn:Hm.
  { by apply match_number_progress. }
  destruct (starts_with "NaN" s) as [r4|] eqn:H4.
  { apply starts_with_length in H4. split; [done|]. intros v rest [= _ <-]. simpl in H4. lia. }
  destruct (starts_with "Infinity" s) as [r5|] eqn:H5.
  { apply starts_with_length in H5. split; [done|]. intros v rest [= _ <-]. simpl in H5. lia. }
  destruct (starts_with "-Infinity" s) as [r6|] eqn:H6.
  { apply starts_with_length in H6. split; [done|]. intros v rest [= _ <-]. simpl in H6. lia. }
  apply progresses_error.
Qed.

Lemma fuel_fits_all fuel : fuel_fits fuel.
Proof.
  induction fuel as [|f (IH1 & IH2 & IH3 & IH4 & IH5 & IH6)].
  { unfold fuel_fits. split_and!; intros; simpl in *; try done; lia. }
  assert (P2 : forall s v rest, scan_once (S f) s = Scanned v rest ->
                 (String.length rest < String.length s)%nat).
  { intros [|c r] v rest; [done|]. cbn [scan_once].
    pose proof (skip_ws_length r) as Hsk.
    destruct (Ascii.eqb c dquote).
    { intros H. apply scan_map_scanned in H as (k & H & _).
      apply (scanstring_progress (String.length r) r (le_n _)) in H. simpl. lia. }
    destruct (Ascii.eqb c "{").
    { destruct (skip_ws r) as [|c' r']; [done|]. simpl in Hsk.
      destruct (Ascii.eqb c' "}"); [intros [= _ <-]; simpl; lia|].
      destruct (Ascii.eqb c' dquote); [|done].
      intros H. apply scan_map_scanned in H as (kvs & H & _).
      apply IH6 in H. simpl. lia. }
    destruct (Ascii.eqb c "[").
    { destruct (skip_ws r) as [|c' r']; [done|]. simpl in Hsk.
      destruct (Ascii.eqb c' "]"); [intros [= _ <-]; simpl; lia|].
      intros H. apply scan_map_scanned in H as (vs & H & _).
      apply IH4 in H. simpl in *. lia. }
    apply scan_atom_progress. }
  assert (P4 : forall s vs rest, JSONArray (S f) s = Scanned vs rest ->
                 (String.length rest < String.length s)%nat).
  { intros s vs rest. cbn [JSONArray].
    destruct (scan_once f s) as [v rest0| |] eqn:Hv; try done.
    apply IH2 in Hv. pose proof (skip_ws_length rest0) as Hsk.
    destruct (skip_ws rest0) as [|c r]; [done|]. simpl in Hsk.
    destruct (Ascii.eqb c "]"); [intros [= _ <-]; lia|].
    destruct (Ascii.eqb c ","); [|done].
    intros H. apply scan_map_scanned in H as (vs' & H & _).
    apply IH4 in H. pose proof (skip_ws_length r). lia. }
  assert (P6 : forall s kvs rest, JSONObject (S f) s = Scanned kvs rest ->
                 (String.length rest < String.length s)%nat).
  { intros s kvs rest. cbn [JSONObject].
    destruct (scanstring s) as [key rest0| |] eqn:Hk; try done.
    apply (scanstring_progress (String.length s) s (le_n _)) in Hk.
    pose proof (skip_ws_length rest0) as Hsk.
    destruct (skip_ws rest0) as [|colon r]; [done|]. simpl in Hsk.
    destruct (Ascii.eqb colon ":"); [|done].
    pose proof (skip_ws_length r) as Hsk1.
    destruct (scan_once f (skip_ws r)) as [v rest1| |] eqn:Hv; try done.
    apply IH2 in Hv. pose proof (skip_ws_length rest1) as Hsk2.
    destruct (skip_ws rest1) as [|c r']; [done|]. simpl in Hsk2.
    destruct (Ascii.eqb c "}"); [intros [= _ <-]; lia|].
    destruct (Ascii.eqb c ","); [|done].
    pose proof (skip_ws_length r') as Hsk3.
    destruct (skip_ws r') as [|q r'']; [done|]. simpl in Hsk3.
    destruct (Ascii.eqb q dquote); [|done].
    intros H. apply scan_map_scanned in H as (kvs' & H & _).
    apply IH6 in H. lia. }
  unfold fuel_fits. split_and!; try done.
  - (* scan_once *)
    intros [|c r] Hfuel; [done|]. cbn [scan_once]. simpl in Hfuel.
    pose proof (skip_ws_length r) as Hsk.
    destruct (Ascii.eqb c dquote).
    { intros H. apply scan_map_exhausted in H.
      by apply (scanstring_progress (String.length r) r (le_n _)). }
    destruct (Ascii.eqb c "{").
    { destruct (skip_ws r) as [|c' r']; [done|]. simpl in Hsk.
      destruct (Ascii.eqb c' "}"); [done|].
      destruct (Ascii.eqb c' dquote); [|done].
      intros H. apply scan_map_exhausted in H. revert H. apply IH5. lia. }
    destruct (Ascii.eqb c "[").
    { destruct (skip_ws r) as [|c' r']; [done|]. simpl in Hsk.
      destruct (Ascii.eqb c' "]"); [done|].
      intros H. apply scan_map_exhausted in H. revert H. apply IH3. simpl. lia. }
    apply scan_atom_progress.
  - (* JSONArray *)
    intros s Hfuel. cbn [JSONArray].
    destruct (scan_once f s) as [v rest0| |] eqn:Hv; try done.
    + apply IH2 in Hv. pose proof (skip_ws_length rest0) as Hsk.
      destruct (skip_ws rest0) as [|c r]; [done|]. simpl in Hsk.
      destruct (Ascii.eqb c "]"); [done|].
      destruct (Ascii.eqb c ","); [|done].
      intros H. apply scan_map_exhausted in H. revert H. apply IH3.
      pose proof (skip_ws_length r). lia.
    + exfalso. revert Hv. apply IH1. lia.
  - (* JSONObject *)
    intros s Hfuel. cbn [JSONObject].
    destruct (scanstring s) as [key rest0| |] eqn:Hk; try done.
    + apply (scanstring_progress (String.length s) s (le_n _)) in Hk.
      pose proof (skip_ws_length rest0) as Hsk.
      destruct (skip_ws rest0) as [|colon r]; [done|]. simpl in Hsk.
      destruct (Ascii.eqb colon ":"); [|done].
      pose proof (skip_ws_length r) as Hsk1.
      destruct (scan_once f (skip_ws r)) as [v rest1| |] eqn:Hv; try done.
      * apply IH2 in Hv. pose proof (skip_ws_length rest1) as Hsk2.
        destruct (skip_ws rest1) as [|c r']; [done|]. simpl in Hsk2.
        destruct (Ascii.eqb c "}"); [done|].
        destruct (Ascii.eqb c ","); [|done].
        pose proof (skip_ws_length r') as Hsk3.
        destruct (skip_ws r') as [|q r'']; [done|]. simpl in Hsk3.
        destruct (Ascii.eqb q dquote); [|done].
        intros H. apply scan_map_exhausted in H. revert H. apply IH5. lia.
      * exfalso. revert Hv. apply IH1. lia.
    + exfalso. by apply (scanstring_progress (String.length s) s (le_n _)).
Qed.

(** [json_loads] answers for every text: its fuel is never what stops it. *)
Lemma json_loads_fuel text :
  scan_once (S (2 * String.length text)) (skip_ws text) <> Exhausted.
Proof.
  apply fuel_fits_all. pose proof (skip_ws_length text). lia.
Qed.

Lemma json_loads_answers text : json_loads text <> OutOfFuel.
Proof.
  unfold json_loads. pose proof (json_loads_fuel text) as H.
  destruct (scan_once _ _) as [v rest| |]; [by destruct (skip_ws rest)|done|done].
Qed.

(** ** The written text is ASCII *)

Lemma all_chars_append p (a b : string) :
  all_chars p (a ++ b) = all_chars p a && all_chars p b.
Proof.
  induction a as [|x a IH]; [done|]. rewrite append_cons. simpl.
  by rewrite IH, andb_assoc.
Qed.

Lemma hexdigit_ascii n : is_ascii (hexdigit n) = true.
Proof.
  unfold hexdigit. destruct (N.to_nat n) as [|k]; [done|].
  do 15 (destruct k as [|k]; [done|]). done.
Qed.

Lemma hex_ascii k n : all_chars is_ascii (hex k n) = true.
Proof.
  revert n. induction k as [|k IH]; intros n; [done|].
  cbn [hex]. rewrite all_chars_append, IH. cbn [all_chars char]. by rewrite hexdigit_ascii.
Qed.

Lemma escape_char_ascii c : all_chars is_ascii (escape_char c) = true.
Proof.
  split_escape c; try done; cbv zeta;
    rewrite ?all_chars_append, ?hex_ascii; try done.
  cbn [all_chars char]. rewrite andb_true_r. unfold is_ascii.
  rewrite code_ascii_of_N by lia. apply N.ltb_lt. lia.
Qed.

Lemma encode_basestring_ascii_ascii s :
  all_chars is_ascii (encode_basestring_ascii s) = true.
Proof.
  unfold encode_basestring_ascii. cbn [all_chars]. rewrite all_chars_append.
  apply andb_true_intro. split; [done|]. apply andb_true_intro. split; [|done].
  induction s as [|c s IH]; [done|].
  cbn [escape_str]. by rewrite all_chars_append, escape_char_ascii, IH.
Qed.

Lemma string_of_uint_ascii d : all_chars is_ascii (NilEmpty.string_of_uint d) = true.
Proof. induction d; simpl; done. Qed.

Lemma nilzero_ascii d : all_chars is_ascii (NilZero.string_of_uint d) = true.
Proof.
  destruct d; [done|..];
    change (NilZero.string_of_uint ?x) with (NilEmpty.string_of_uint x);
    apply string_of_uint_ascii.
Qed.

Lemma int_repr_ascii n : all_chars is_ascii (int_repr n) = true.
Proof.
  unfold int_repr, NilZero.string_of_int.
  destruct (Z.to_int n) as [d|d]; [apply nilzero_ascii|].
  cbn [all_chars]. by rewrite nilzero_ascii.
Qed.

Lemma print_float_ascii t : all_chars is_ascii (print_float t) = true.
Proof.
  assert (He : forall e, all_chars is_ascii (print_exponent e) = true).
  { intros e. unfold print_exponent. rewrite !all_chars_append, nilzero_ascii.
    by destruct (exp_minus e). }
  unfold print_float. rewrite !all_chars_append, nilzero_ascii.
  assert (all_chars is_ascii (print_tail (text_tail t)) = true) as ->.
  { destruct (text_tail t) as [frac [e|]|e]; cbn [print_tail];
      rewrite ?all_chars_append, ?nilzero_ascii, ?He; done. }
  by destruct (text_minus t).
Qed.

Lemma floatstr_ascii x : all_chars is_ascii (floatstr x) = true.
Proof.
  unfold floatstr, float_repr.
  destruct (float_eqb x x); cbn [negb]; [|done].
  destruct (float_eqb x inf); [done|]. destruct (float_eqb x neg_inf); [done|].
  apply print_float_ascii.
Qed.

Lemma newline_indent_ascii level : all_chars is_ascii (newline_indent level) = true.
Proof.
  unfold newline_indent. cbn [all_chars]. apply andb_true_intro. split; [done|].
  induction (2 * level)%nat as [|n IH]; [done|]. simpl. exact IH.
Qed.

Lemma encode_rest_ascii {A} level (f : A -> string) xs :
  Forall (fun x => all_chars is_ascii (f x) = true) xs ->
  all_chars is_ascii (encode_rest level f xs) = true.
Proof.
  induction 1 as [|x xs Hx _ IH]; [done|].
  cbn [encode_rest]. by rewrite !all_chars_append, newline_indent_ascii, Hx, IH.
Qed.

Lemma encode_list_ascii level xs :
  Forall (fun x => forall level, all_chars is_ascii (iterencode x level) = true) xs ->
  all_chars is_ascii (encode_list level (fun y => iterencode y (S level)) xs) = true.
Proof.
  intros IH. destruct xs as [|x xs]; [done|]. apply Forall_cons in IH as [Hx IH].
  cbn [encode_list]. rewrite !all_chars_append, !newline_indent_ascii, Hx.
  rewrite encode_rest_ascii; [done|].
  eapply Forall_impl; [exact IH|]. intros y Hy. apply Hy.
Qed.

Lemma iterencode_ascii v : forall level, all_chars is_ascii (iterencode v level) = true.
Proof.
  induction v as [|b|n|x|s|xs IH|xs IH|d IH] using value_ind; intros level.
  - done.
  - by destruct b.
  - apply int_repr_ascii.
  - apply floatstr_ascii.
  - apply encode_basestring_ascii_ascii.
  - by apply encode_list_ascii.
  - by apply encode_list_ascii.
  - destruct d as [|[k v] d]; [done|]. apply Forall_cons in IH as [Hv IH]. simpl in Hv.
    cbn [iterencode]. rewrite !all_chars_append, !newline_indent_ascii, Hv.
    rewrite encode_basestring_ascii_ascii, encode_rest_ascii; [done|].
    eapply Forall_impl; [exact IH|]. intros kv Hkv. cbv beta.
    by rewrite !all_chars_append, encode_basestring_ascii_ascii, Hkv.
Qed.

(** *** The layout of the text *)

Lemma indented_quiet t depth rest :
  all_chars quiet t = true ->
  indented depth Outside (t ++ rest) = indented depth Outside rest.
Proof.
  induction t as [|c t IH]; [done|]. cbn [all_chars]. intros [Hc Ht]%andb_true_iff.
  rewrite append_cons. cbn [indented]. unfold quiet in Hc.
  apply negb_true_iff in Hc. repeat (apply orb_false_iff in Hc as [Hc ?]).
  repeat match goal with H : _ = false |- _ => rewrite H; clear H end. auto.
Qed.

Lemma spaces_quiet n : all_chars quiet (spaces n) = true.
Proof. induction n as [|n IH]; [done|]. cbn [spaces all_chars]. by rewrite IH. Qed.

Lemma margin_spaces n c s :
  Ascii.eqb c " " = false ->
  margin (spaces n ++ String c s) = n /\ ink (spaces n ++ String c s) = Some c.
Proof.
  intros Hc. induction n as [|n [IH1 IH2]]; cbn [spaces].
  - rewrite append_nil_l. cbn [margin ink]. by rewrite Hc.
  - rewrite append_cons. cbn [margin ink]. change (Ascii.eqb " " " ") with true.
    cbv iota. by rewrite IH1, IH2.
Qed.

Lemma indented_line_break depth r :
  indented depth Outside (String LF r) = line_ok depth r && indented depth Outside r.
Proof. reflexivity. Qed.

(** A line break and the line of an item. *)
Lemma indented_newline_item depth c s :
  Ascii.eqb c " " = false -> closer c = false ->
  indented depth Outside (newline_indent depth ++ String c s)
  = indented depth Outside (String c s).
Proof.
  intros Hc Hclose. unfold newline_indent. rewrite append_cons, indented_line_break.
  destruct (margin_spaces (2 * depth) c s Hc) as [Hm Hi].
  unfold line_ok. rewrite Hi, Hclose, Hm, Nat.eqb_refl. cbn [andb].
  apply indented_quiet, spaces_quiet.
Qed.

(** A line break and the line of a closing bracket. *)
Lemma indented_newline_close depth c rest :
  closer c = true ->
  indented (S depth) Outside (newline_indent depth ++ String c rest)
  = indented depth Outside rest.
Proof.
  intros Hclose.
  assert (Hsp : Ascii.eqb c " " = false).
  { unfold closer in Hclose. by destruct c as [[] [] [] [] [] [] [] []]. }
  assert (Hq : Ascii.eqb c dquote = false /\ opener c = false).
  { unfold closer in Hclose. by destruct c as [[] [] [] [] [] [] [] []]. }
  destruct Hq as [Hq Ho].
  unfold newline_indent. rewrite append_cons, indented_line_break.
  destruct (margin_spaces (2 * depth) c rest Hsp) as [Hm Hi].
  unfold line_ok. rewrite Hi, Hclose, Hm.
  replace (S depth - 1)%nat with depth by lia. rewrite Nat.eqb_refl.
  change (0 <? S depth)%nat with true. cbn [andb].
  rewrite (indented_quiet _ _ _ (spaces_quiet _)). cbn [indented].
  rewrite Hq, Ho, Hclose. change (0 <? S depth)%nat with true. cbn [andb].
  by replace (S depth - 1)%nat with depth by lia.
Qed.

Lemma hexdigit_calm n :
  Ascii.eqb (hexdigit n) backslash = false /\ Ascii.eqb (hexdigit n) dquote = false.
Proof.
  unfold hexdigit. destruct (N.to_nat n) as [|k]; [done|].
  do 15 (destruct k as [|k]; [done|]). done.
Qed.

Lemma indented_hex k n depth rest :
  indented depth Inside (hex k n ++ rest) = indented depth Inside rest.
Proof.
  revert n rest. induction k as [|k IH]; intros n rest; [done|].
  cbn [hex]. rewrite append_assoc, IH. unfold char. rewrite append_cons, append_nil_l.
  cbn [indented]. destruct (hexdigit_calm (n mod 16)) as [-> ->]. done.
Qed.

Lemma indented_unicode_escape n depth rest :
  indented depth Inside ("\u" ++ hex 4 n ++ rest) = indented depth Inside rest.
Proof.
  change ("\u" ++ hex 4 n ++ rest)
    with (String backslash (String "u" (hex 4 n ++ rest))).
  cbn [indented]. change (Ascii.eqb backslash backslash) with true. cbv iota.
  apply indented_hex.
Qed.

Lemma indented_escape_char c depth rest :
  indented depth Inside (escape_char c ++ rest) = indented depth Inside rest.
Proof.
  split_escape c; try reflexivity; cbv zeta; rewrite ?append_assoc;
    rewrite ?indented_unicode_escape; try reflexivity.
  unfold char. rewrite append_cons, append_nil_l. cbn [indented].
  assert (Ascii.eqb (ascii_of_N c) backslash = false) as ->.
  { apply Ascii.eqb_neq. intros Heq. apply (f_equal N_of_ascii) in Heq.
    rewrite N_ascii_embedding in Heq by lia. unfold code in *. simpl in *. lia. }
  assert (Ascii.eqb (ascii_of_N c) dquote = false) as ->.
  { apply Ascii.eqb_neq. intros Heq. apply (f_equal N_of_ascii) in Heq.
    rewrite N_ascii_embedding in Heq by lia. unfold code in *. simpl in *. lia. }
  done.
Qed.

Lemma indented_basestring s depth rest :
  indented depth Outside (encode_basestring_ascii s ++ rest) = indented depth Outside rest.
Proof.
  unfold encode_basestring_ascii. rewrite append_cons. cbn [indented].
  change (Ascii.eqb dquote dquote) with true. cbv iota. rewrite append_assoc.
  induction s as [|c s IH]; cbn [escape_str].
  - rewrite append_nil_l. unfold char. rewrite append_cons, append_nil_l. cbn [indented].
    change (Ascii.eqb dquote backslash) with false.
    change (Ascii.eqb dquote dquote) with true. done.
  - rewrite append_assoc, indented_escape_char. apply IH.
Qed.

Lemma string_of_uint_quiet d : all_chars quiet (NilEmpty.string_of_uint d) = true.
Proof. induction d; simpl; done. Qed.

Lemma nilzero_quiet d : all_chars quiet (NilZero.string_of_uint d) = true.
Proof.
  destruct d; [done|..];
    change (NilZero.string_of_uint ?x) with (NilEmpty.string_of_uint x);
    apply string_of_uint_quiet.
Qed.

Lemma int_repr_quiet n : all_chars quiet (int_repr n) = true.
Proof.
  unfold int_repr, NilZero.string_of_int.
  destruct (Z.to_int n) as [d|d]; [apply nilzero_quiet|].
  cbn [all_chars]. by rewrite nilzero_quiet.
Qed.

Lemma print_float_quiet t : all_chars quiet (print_float t) = true.
Proof.
  assert (He : forall e, all_chars quiet (print_exponent e) = true).
  { intros e. unfold print_exponent. rewrite !all_chars_append, nilzero_quiet.
    by destruct (exp_minus e). }
  unfold print_float. rewrite !all_chars_append, nilzero_quiet.
  assert (all_chars quiet (print_tail (text_tail t)) = true) as ->.
  { destruct (text_tail t) as [frac [e|]|e]; cbn [print_tail];
      rewrite ?all_chars_append, ?nilzero_quiet, ?He; done. }
  by destruct (text_minus t).
Qed.

Lemma floatstr_quiet x : all_chars quiet (floatstr x) = true.
Proof.
  unfold floatstr, float_repr.
  destruct (float_eqb x x); cbn [negb]; [|done].
  destruct (float_eqb x inf); [done|]. destruct (float_eqb x neg_inf); [done|].
  apply print_float_quiet.
Qed.

Lemma value_start_ink c :
  value_start c = true -> Ascii.eqb c " " = false /\ closer c = false.
Proof. destruct c as [[] [] [] [] [] [] [] []]; try discriminate; done. Qed.

Lemma indented_comma depth t :
  indented depth Outside ("," ++ newline_indent depth ++ t)
  = indented depth Outside (newline_indent depth ++ t).
Proof. reflexivity. Qed.

Lemma indented_open_list depth t :
  indented depth Outside ("[" ++ newline_indent (S depth) ++ t)
  = indented (S depth) Outside (newline_indent (S depth) ++ t).
Proof. reflexivity. Qed.

Lemma indented_open_dict depth t :
  indented depth Outside ("{" ++ newline_indent (S depth) ++ t)
  = indented (S depth) Outside (newline_indent (S depth) ++ t).
Proof. reflexivity. Qed.

Lemma indented_empty depth (o c : ascii) rest :
  Ascii.eqb o dquote = false -> opener o = true -> closer c = true ->
  indented depth Outside (String o (String c rest)) = indented depth Outside rest.
Proof.
  intros Hq Ho Hc.
  assert (Hc' : Ascii.eqb c dquote = false /\ opener c = false).
  { unfold closer in Hc. by destruct c as [[] [] [] [] [] [] [] []]. }
  destruct Hc' as [Hcq Hco].
  cbn [indented closes_or_starts_line]. rewrite Hq, Ho, Hc, Hcq, Hco.
  change (0 <? S depth)%nat with true. cbn [orb andb].
  by replace (S depth - 1)%nat with depth by lia.
Qed.

(** One item on a line of its own: it starts with something to read that
    closes no bracket, and leaves the reader where it was. *)
Lemma indented_item depth (item : string) t :
  (exists c s, item = String c s /\ Ascii.eqb c " " = false /\ closer c = false) ->
  (forall rest, indented depth Outside (item ++ rest) = indented depth Outside rest) ->
  indented depth Outside (newline_indent depth ++ item ++ t) = indented depth Outside t.
Proof.
  intros (c & s & Hitem & Hc & Hclose) Hgo. rewrite <- (Hgo t).
  rewrite Hitem, append_cons. by apply indented_newline_item.
Qed.

Lemma indented_encode_rest {A} depth (f : A -> string) xs t :
  Forall (fun x =>
            (exists c s, f x = String c s /\ Ascii.eqb c " " = false /\ closer c = false)
            /\ forall rest, indented depth Outside (f x ++ rest)
                            = indented depth Outside rest) xs ->
  indented depth Outside (encode_rest depth f xs ++ t) = indented depth Outside t.
Proof.
  induction 1 as [|x xs [Hhead Hgo] _ IH]; [done|].
  cbn [encode_rest]. rewrite !append_assoc, indented_comma.
  by rewrite indented_item.
Qed.

Lemma indented_encode_list depth xs rest :
  Forall (fun x => forall depth rest,
            indented depth Outside (iterencode x depth ++ rest)
            = indented depth Outside rest) xs ->
  indented depth Outside (encode_list depth (fun y => iterencode y (S depth)) xs ++ rest)
  = indented depth Outside rest.
Proof.
  intros IH.
  assert (Hitems : Forall (fun x =>
            (exists c s, iterencode x (S depth) = String c s
                         /\ Ascii.eqb c " " = false /\ closer c = false)
            /\ forall rest, indented (S depth) Outside (iterencode x (S depth) ++ rest)
                            = indented (S depth) Outside rest) xs).
  { eapply Forall_impl; [exact IH|]. intros x Hx. cbv beta. split; [|apply Hx].
    destruct (iterencode_head x (S depth)) as (c & s & Hs & Hc).
    exists c, s. split; [done|]. by apply value_start_ink. }
  destruct xs as [|x xs]; [by apply indented_empty|].
  apply Forall_cons in Hitems as [[Hhead Hgo] Hitems].
  cbn [encode_list]. rewrite !append_assoc, indented_open_list.
  rewrite (indented_item (S depth) _ _ Hhead Hgo).
  rewrite (indented_encode_rest (S depth) _ xs _ Hitems).
  by apply indented_newline_close.
Qed.

Lemma indented_iterencode v :
  forall depth rest,
    indented depth Outside (iterencode v depth ++ rest) = indented depth Outside rest.
Proof.
  induction v as [|b|n|x|s|xs IH|xs IH|d IH] using value_ind; intros depth rest.
  - by apply indented_quiet.
  - apply indented_quiet. by destruct b.
  - apply indented_quiet, int_repr_quiet.
  - apply indented_quiet, floatstr_quiet.
  - apply indented_basestring.
  - by apply indented_encode_list.
  - by apply indented_encode_list.
  - assert (Hitems : Forall (fun kv : key * value =>
              (exists c s, encode_basestring_ascii (key_str (fst kv)) ++ ": "
                             ++ iterencode (snd kv) (S depth) = String c s
                           /\ Ascii.eqb c " " = false /\ closer c = false)
              /\ forall rest,
                   indented (S depth) Outside
                     ((encode_basestring_ascii (key_str (fst kv)) ++ ": "
                         ++ iterencode (snd kv) (S depth)) ++ rest)
                   = indented (S depth) Outside rest) d).
    { eapply Forall_impl; [exact IH|]. intros kv Hkv. cbv beta. split.
      - unfold encode_basestring_ascii. rewrite append_cons. by eexists _, _.
      - intros t. rewrite !append_assoc, indented_basestring.
        change (": " ++ ?u) with (String ":" (String " " u)). cbn [indented].
        apply Hkv. }
    destruct d as [|[k v] d]; [by apply indented_empty|].
    apply Forall_cons in Hitems as [[Hhead Hgo] Hitems]. cbn [fst snd] in Hhead, Hgo.
    cbn [iterencode]. rewrite !append_assoc, indented_open_dict.
    rewrite <- (append_assoc ": " (iterencode v (S depth))).
    rewrite <- (append_assoc (encode_basestring_ascii (key_str k))).
    rewrite (indented_item (S depth) _ _ Hhead Hgo).
    rewrite (indented_encode_rest (S depth) _ d _ Hitems).
    by apply indented_newline_close.
Qed.

Lemma json_dumps_indented v : indented 0 Outside (json_dumps v) = true.
Proof.
  unfold json_dumps. rewrite <- (append_nil_r (iterencode v 0)).
  by rewrite indented_iterencode.
Qed.

(** * The claims *)

(** C1.  When the client is there, all five calls return and all are seen
    to finish, [search_scholar_papers] returns a dict with exactly the five
    labels as keys, in the order [content_curation], [recommendation_systems],
    [automated_reporting], [financial_visualization], [content_aggregation],
    and the result of the Nth query is the value of the Nth label: this for
    every order of completion. *)
Theorem C1_bundle_is_positional E c rs :
  get_client E = Ret c ->
  calls c = map Ret rs ->
  fair (schedule E) ->
  exists bundle,
    search_scholar_papers E = Ret (PyDict bundle)
    /\ map fst bundle = label_keys
    /\ forall n q r,
         queries !! n = Some q ->
         search_scholar c q 20 "2020" "2025" = Ret r ->
         exists label : string,
           labels !! n = Some label
           /\ bundle !! n = Some (KStr label, r)
           /\ dict_get bundle label = Some r.
Proof.
  intros Hc Hcalls Hfair. exists (zip label_keys rs).
  split; [by apply search_returns with c|].
  pose proof (calls_length c rs Hcalls) as Hlen.
  destruct rs as [|r0 [|r1 [|r2 [|r3 [|r4 [|]]]]]]; try done.
  split; [done|].
  injection Hcalls as H0 H1 H2 H3 H4.
  intros n q r Hq Hr.
  destruct n as [|[|[|[|[|n]]]]]; [..|done]; injection Hq as <-;
    [replace r with r0 by congruence|replace r with r1 by congruence
    |replace r with r2 by congruence|replace r with r3 by congruence
    |replace r with r4 by congruence];
    eexists; split_and!; reflexivity.
Qed.

(** C2.  In the summary loop, the turn of a category whose result has a
    true [success] prints exactly the one line [{category}: Found {N} papers]
    and goes on with the next category, N being the number of items of
    [data.papers], and 0, without a fault, when [data] is absent, when
    [papers] is absent, and when [papers] is the empty list. *)
Theorem C2_success_line pre category d post s n w w1 :
  for_each pre summary w = (Ret tt, w1) ->
  dict_get d "success" = Some s ->
  truthy s = true ->
  spec_paper_count d = Some n ->
  for_each (pre ++ (category, PyDict d) :: post) summary w
    = for_each post summary
        (emit [py_str (key_value category) +++ ": Found " +++ int_repr n +++ " papers"] w1)
  /\ (dict_get d "data" = None -> n = 0)
  /\ (forall data, dict_get d "data" = Some (PyDict data) ->
        dict_get data "papers" = None -> n = 0)
  /\ (forall data papers, dict_get d "data" = Some (PyDict data) ->
        dict_get data "papers" = Some (PyList papers) ->
        n = Z.of_nat (List.length papers) /\ (papers = [] -> n = 0)).
Proof.
  intros Hpre Hs Ht Hn. split_and!.
  - rewrite (for_each_turn pre _ post w w1 Hpre).
    by rewrite (summary_found category d s n Hs Ht Hn).
  - intros Hd. unfold spec_paper_count in Hn. rewrite Hd in Hn. congruence.
  - intros data Hd Hp. unfold spec_paper_count in Hn. rewrite Hd, Hp in Hn. congruence.
  - intros data papers Hd Hp. unfold spec_paper_count in Hn. rewrite Hd, Hp in Hn.
    simplify_eq. split; [done|]. by intros ->.
Qed.

(** C9.  The turn of a category whose result has no [success], or one that
    tests false (false, [None], 0, an empty string, list or dict), takes the
    failure branch: it prints [{category}: Search failed - {error}], with
    [Unknown error] when [error] is absent, and that line is no paper count. *)
Theorem C9_falsy_success_fails pre category d post w w1 :
  for_each pre summary w = (Ret tt, w1) ->
  match dict_get d "success" with
  | Some s => truthy s = false
  | None => True
  end ->
  let error := default (PyStr "Unknown error") (dict_get d "error") in
  let line := py_str (key_value category) +++ ": Search failed - " +++ py_str error in
  for_each (pre ++ (category, PyDict d) :: post) summary w
    = for_each post summary (emit [line] w1)
  /\ (dict_get d "error" = None ->
        line = py_str (key_value category) +++ ": Search failed - Unknown error")
  /\ forall n,
       line <> py_str (key_value category) +++ ": Found " +++ int_repr n +++ " papers".
Proof.
  intros Hpre Hs error line. split_and!.
  - rewrite (for_each_turn pre _ post w w1 Hpre).
    by rewrite (summary_failed category d Hs).
  - intros He. unfold line, error. by rewrite He.
  - intros n. unfold line, str_cat. intros H. apply app_inv_head in H.
    discriminate H.
Qed.

(** C10.  The zero default covers a missing key only: when a success-flagged
    result has a [data] key whose value is [None], the count access raises
    (there is no [get] on [None]), no line is printed for the category and
    the loop stops there; a result with the [data] key missing gets a count
    of 0 in the same place. *)
Theorem C10_null_data_faults pre category d post s w w1 :
  for_each pre summary w = (Ret tt, w1) ->
  dict_get d "success" = Some s ->
  truthy s = true ->
  dict_get d "data" = Some PyNone ->
  for_each (pre ++ (category, PyDict d) :: post) summary w
    = (Raise AttributeError, w1)
  /\ forall d0 s0,
       dict_get d0 "success" = Some s0 -> truthy s0 = true ->
       dict_get d0 "data" = None ->
       for_each (pre ++ (category, PyDict d0) :: post) summary w
         = for_each post summary
             (emit [py_str (key_value category) +++ ": Found " +++ int_repr 0 +++ " papers"]
                w1).
Proof.
  intros Hpre Hs Ht Hd. split.
  - rewrite (for_each_turn pre _ post w w1 Hpre).
    unfold summary_line, py_get. rewrite Hs. cbn [rbind]. rewrite Ht, Hd. done.
  - intros d0 s0 Hs0 Ht0 Hd0. rewrite (for_each_turn pre _ post w w1 Hpre).
    rewrite (summary_found category d0 s0 0 Hs0 Ht0); [done|].
    unfold spec_paper_count. by rewrite Hd0.
Qed.

(** C3.  When one of the five calls returns an error-flagged result
    ([success] false) without raising and the other four succeed, the
    bundle still has all five entries, the script prints five lines, and the
    line of the failing category is [{category}: Search failed - {error}]
    with the [error] of that result, or [Unknown error] when it has none. *)
Theorem C3_error_flagged_result me E w c rs k dk :
  me ∉ running w ->
  get_client E = Ret c ->
  calls c = map Ret rs ->
  fair (schedule E) ->
  can_open w output_path = true ->
  rs !! k = Some (PyDict dk) ->
  dict_get dk "success" = Some (PyBool false) ->
  (forall i r, i <> k -> rs !! i = Some r -> succeeded r = true) ->
  exists bundle lines w',
    search_scholar_papers E = Ret (PyDict bundle)
    /\ map fst bundle = label_keys
    /\ List.length bundle = 5%nat
    /\ main me E w = (Ret tt, w')
    /\ stdout w' = (stdout w ++ lines)%list
    /\ List.length lines = 5%nat
    /\ forall category : string,
         labels !! k = Some category ->
         lines !! k = Some (category +++ ": Search failed - "
                              +++ py_str (default (PyStr "Unknown error")
                                            (dict_get dk "error")))
         /\ (dict_get dk "error" = None ->
               lines !! k = Some (category +++ ": Search failed - Unknown error")).
Proof.
  intros Hidle Hc Hcalls Hfair Hopen Hk Hfalse Hother.
  pose proof (search_returns E c rs Hc Hcalls Hfair) as Hs.
  pose proof (calls_length c rs Hcalls) as Hlen.
  assert (Hlines : forall i (l : string) r, labels !! i = Some l -> rs !! i = Some r ->
            exists line, summary_line (KStr l, r) = Ret line
              /\ (i = k -> line = failed_line l
                                    (py_str (default (PyStr "Unknown error")
                                               (dict_get dk "error"))))).
  { intros i l r Hl Hr. destruct (decide (i = k)) as [->|Hne].
    - rewrite Hk in Hr. injection Hr as <-. eexists. split; [|done].
      apply summary_failed. by rewrite Hfalse.
    - destruct (summary_succeeded (KStr l) r (Hother i r Hne Hr)) as [n Hn].
      exists (found_line l n). done. }
  destruct rs as [|r0 [|r1 [|r2 [|r3 [|r4 [|]]]]]]; try done.
  destruct (Hlines 0%nat _ r0 eq_refl eq_refl) as (l0 & H0 & K0).
  destruct (Hlines 1%nat _ r1 eq_refl eq_refl) as (l1 & H1 & K1).
  destruct (Hlines 2%nat _ r2 eq_refl eq_refl) as (l2 & H2 & K2).
  destruct (Hlines 3%nat _ r3 eq_refl eq_refl) as (l3 & H3 & K3).
  destruct (Hlines 4%nat _ r4 eq_refl eq_refl) as (l4 & H4 & K4).
  eexists _, [l0; l1; l2; l3; l4], _. split_and!; [exact Hs|done|done| | |done|].
  - rewrite (main_returns me E w _ Hidle Hs Hopen).
    apply for_each_lines. repeat constructor; done.
  - done.
  - intros category Hcat.
    assert (Hline : [l0; l1; l2; l3; l4] !! k
                    = Some (failed_line category
                              (py_str (default (PyStr "Unknown error") (dict_get dk "error"))))).
    { destruct k as [|[|[|[|[|k]]]]]; simplify_eq/=; f_equal; auto. }
    split; [exact Hline|]. intros He. rewrite Hline, He. done.
Qed.

(** C4.  When one of the five calls raises (and is seen to finish),
    [search_scholar_papers] returns no bundle but raises, with the exception
    of a call that raised; the script then writes no file, prints nothing
    and ends with exit status 1. *)
Theorem C4_raised_fault_aborts me E w c j e :
  me ∉ running w ->
  get_client E = Ret c ->
  calls c !! j = Some (Raise e) ->
  j ∈ schedule E ->
  exists e' w',
    search_scholar_papers E = Raise e'
    /\ (exists k, calls c !! k = Some (Raise e'))
    /\ ((forall k e2, calls c !! k = Some (Raise e2) -> e2 = e) -> e' = e)
    /\ main me E w = (Raise e', w')
    /\ files w' = files w
    /\ stdout w' = stdout w
    /\ exit_status (fst (main me E w)) = Some 1
    /\ exit_status (fst (main me E w)) <> Some 0.
Proof.
  intros Hidle Hc Hj Hin.
  destruct (search_raises E c j e Hc Hj Hin) as (e' & Hs & k & Hk).
  exists e', (adapted me w). rewrite (main_raises me E w e' Hidle Hs).
  split_and!; try done; eauto.
Qed.

Lemma main_files me E w d :
  me ∉ running w ->
  search_scholar_papers E = Ret (PyDict d) ->
  files (snd (main me E w))
    = (if can_open w output_path
       then <[output_path := json_dumps (PyDict d)]> (files w)
       else files w)
  /\ can_open (snd (main me E w)) = can_open w
  /\ running (snd (main me E w)) = running w.
Proof.
  intros Hidle Hs. destruct (can_open w output_path) eqn:Hopen.
  - rewrite (main_returns me E w d Hidle Hs Hopen).
    destruct (for_each_files d
                (stored output_path (json_dumps (PyDict d)) (adapted me w)))
      as (-> & -> & ->).
    done.
  - by rewrite (main_cannot_open me E w _ Hidle Hs Hopen).
Qed.

(** C6.  Two runs against a client that returns the same results for the
    same queries leave the same text in the output file, whatever the order
    of completion in each run and whatever thread runs them: the second run
    rewrites the file with the text the first one wrote, which is the JSON
    text of the bundle; and that text is ASCII only, so that equal texts
    are equal bytes. *)
Theorem C6_same_responses_same_file me1 me2 E1 E2 c rs w :
  me1 ∉ running w ->
  me2 ∉ running w ->
  get_client E1 = Ret c ->
  get_client E2 = Ret c ->
  calls c = map Ret rs ->
  fair (schedule E1) ->
  fair (schedule E2) ->
  can_open w output_path = true ->
  let text := json_dumps (PyDict (zip label_keys rs)) in
  let w1 := snd (main me1 E1 w) in
  let w2 := snd (main me2 E2 w1) in
  files w1 !! output_path = Some text
  /\ files w2 !! output_path = Some text
  /\ files w2 = files w1
  /\ all_chars is_ascii text = true.
Proof.
  intros Hi1 Hi2 Hc1 Hc2 Hcalls Hf1 Hf2 Hopen text w1 w2.
  pose proof (search_returns E1 c rs Hc1 Hcalls Hf1) as Hs1.
  pose proof (search_returns E2 c rs Hc2 Hcalls Hf2) as Hs2.
  destruct (main_files me1 E1 w _ Hi1 Hs1) as (Hw1 & Ho1 & Hr1).
  fold w1 in Hw1, Ho1, Hr1.
  assert (Hi2' : me2 ∉ running w1) by (by rewrite Hr1).
  destruct (main_files me2 E2 w1 _ Hi2' Hs2) as (Hw2 & Ho2 & _).
  fold w2 in Hw2.
  rewrite Ho1, Hopen in Hw2. rewrite Hopen in Hw1. fold text in Hw1, Hw2.
  assert (files w2 = files w1) as Heq.
  { rewrite Hw2, Hw1. apply insert_insert_eq. }
  assert (files w1 !! output_path = Some text) as Hread.
  { rewrite Hw1. apply lookup_insert_eq. }
  split_and!; [done|by rewrite Heq|done|apply iterencode_ascii].
Qed.


(** C8.  What the code does where the claim expects a worker thread: the
    pool the function creates is handed no work and starts no thread, and
    when the loop is driven at all it is driven by the very thread that
    called [run_async_with_thread_pool]. *)
Theorem C8_loop_runs_on_calling_thread me E w :
  let w' := snd (run_async_with_thread_pool me E w) in
  (exists pool,
     pools w' !! List.length (pools w) = Some pool /\ workers pool = [])
  /\ driven w' = (if decide (me ∈ running w) then driven w
                  else driven w ++ [(me, List.length (loops w))])%list
  /\ forall thread loop,
       (thread, loop) ∈ driven w' -> (thread, loop) ∈ driven w \/ thread = me.
Proof.
  rewrite run_async_spec.
  assert (Hd : driven (snd (if decide (me ∈ running w)
                            then (@Raise value RuntimeError, refused me w)
                            else (search_scholar_papers E,
                                  match search_scholar_papers E with
                                  | Hang => stuck me w
                                  | _ => adapted me w
                                  end)))
               = (if decide (me ∈ running w) then driven w
                  else driven w ++ [(me, List.length (loops w))])%list).
  { destruct (decide (me ∈ running w)); [done|].
    by destruct (search_scholar_papers E). }
  cbv zeta. split_and!.
  - destruct (decide (me ∈ running w)); [|destruct (search_scholar_papers E)];
      eexists; (split; [by apply list_lookup_middle|done]).
  - exact Hd.
  - intros thread loop. rewrite Hd. destruct (decide (me ∈ running w)); [by left|].
    rewrite elem_of_app, list_elem_of_singleton. intros [?|[= -> _]]; auto.
Qed.

Lemma wf_bundle rs :
  List.length rs = 5%nat -> forallb wf rs = true -> wf (PyDict (zip label_keys rs)) = true.
Proof.
  intros Hlen Hwf. destruct rs as [|r0 [|r1 [|r2 [|r3 [|r4 [|]]]]]]; try done.
Qed.

Lemma label_text :
  Forall (fun label : string => encode_basestring_ascii label = quoted label) labels.
Proof. repeat constructor. Qed.

(** C5.  When the bundle is there and the output path can be opened, the
    script leaves at that path, whatever was there before, the JSON text of
    the whole bundle and touches no other file; the text is one object
    whose five items each start a new line behind two spaces, the values
    nested one level deeper.  Loading the text gives the bundle back when
    the results are made of what a JSON text stands for one to one: [None],
    booleans, integers, floats other than NaN, strs, lists and dicts with
    unique str keys (no tuple, no key of another type, no surrogate pair
    spelled as two code points); of the runtime this takes that the text
    [repr] gives a finite float reads back as that float. *)
Theorem C5_persisted_bundle_round_trips (laws : runtime_laws rt) me E w c rs :
  me ∉ running w ->
  get_client E = Ret c ->
  calls c = map Ret rs ->
  fair (schedule E) ->
  can_open w output_path = true ->
  let bundle := PyDict (zip label_keys rs) in
  let w' := snd (main me E w) in
  files w' !! output_path = Some (json_dumps bundle)
  /\ (forall path, path <> output_path -> files w' !! path = files w !! path)
  /\ (forall r0 r1 r2 r3 r4, rs = [r0; r1; r2; r3; r4] ->
        json_dumps bundle =
          "{" ++ char LF
          ++ "  " ++ quoted "content_curation" ++ ": " ++ iterencode r0 1 ++ "," ++ char LF
          ++ "  " ++ quoted "recommendation_systems" ++ ": " ++ iterencode r1 1 ++ "," ++ char LF
          ++ "  " ++ quoted "automated_reporting" ++ ": " ++ iterencode r2 1 ++ "," ++ char LF
          ++ "  " ++ quoted "financial_visualization" ++ ": " ++ iterencode r3 1 ++ "," ++ char LF
          ++ "  " ++ quoted "content_aggregation" ++ ": " ++ iterencode r4 1 ++ char LF
          ++ "}")
  /\ (forallb wf rs = true -> json_loads (json_dumps bundle) = Loaded bundle).
Proof.
  intros Hidle Hc Hcalls Hfair Hopen bundle w'.
  pose proof (search_returns E c rs Hc Hcalls Hfair) as Hs.
  destruct (main_files me E w _ Hidle Hs) as [Hfiles _]. fold w' in Hfiles.
  rewrite Hopen in Hfiles. fold bundle in Hfiles.
  split_and!.
  - rewrite Hfiles. apply lookup_insert_eq.
  - intros path Hpath. rewrite Hfiles. by apply lookup_insert_ne.
  - intros r0 r1 r2 r3 r4 ->. unfold bundle, json_dumps.
    pose proof label_text as HL. unfold labels in HL.
    repeat (apply Forall_cons in HL as [? HL]).
    cbn [zip zip_with label_keys labels map iterencode encode_rest fst snd key_str].
    repeat match goal with H : encode_basestring_ascii _ = _ |- _ => rewrite H; clear H end.
    unfold newline_indent, char. cbn [spaces Nat.mul Nat.add]. by norm_text.
  - intros Hwf. apply json_round_trip, wf_bundle; [by eapply calls_length|done].
Qed.


(** * Further properties of the script *)

(** ** More on the join *)

Lemma outer_complete tasks st i r :
  outer st = Some r -> outer (complete tasks st i) = Some r.
Proof.
  intros Ho. unfold complete.
  destruct (tasks !! i) as [o|]; [|done].
  destruct (children st !! i) as [[c|]|]; [by destruct o| |by destruct o].
  destruct o; [| |done]; unfold done_callback; by rewrite Ho.
Qed.

Lemma outer_run tasks sched st r :
  outer st = Some r -> outer (fold_left (complete tasks) sched st) = Some r.
Proof.
  revert st. induction sched as [|i sched IH]; intros st Ho; [done|].
  simpl. apply IH. by apply outer_complete.
Qed.

(** While child [j] is pending and nothing raises, the join stays pending. *)
Lemma pending_complete tasks st i j :
  ginv tasks st -> outer st = None -> children st !! j = Some None ->
  (forall e, tasks !! i <> Some (Raise e)) ->
  (i <> j \/ tasks !! j = Some Hang) ->
  outer (complete tasks st i) = None
  /\ children (complete tasks st i) !! j = Some None.
Proof.
  intros I Ho Hj Hnr Hij.
  pose proof (ginv_complete tasks st i I) as I'. revert I'.
  unfold complete.
  destruct (tasks !! i) as [o|] eqn:Ht; [|done].
  destruct (children st !! i) as [[c|]|] eqn:Hc; [by destruct o| |by destruct o].
  destruct o as [v|e|]; [|by destruct (Hnr e)|done].
  assert (Hne : i <> j).
  { destruct Hij as [?|Hh]; [done|]. intros ->. congruence. }
  intros I'.
  assert (Hj' : children (done_callback (List.length tasks) i (Ret v) st) !! j
                = Some None).
  { by rewrite children_done_callback, list_lookup_insert_ne. }
  split; [|done].
  destruct (outer (done_callback (List.length tasks) i (Ret v) st))
    as [[vs|e|]|] eqn:Ho'; [| | |done].
  - pose proof (g_ret tasks _ I' vs Ho') as HF.
    destruct (Forall2_lookup_l _ _ _ _ _ HF Hj') as (x & _ & ?). done.
  - exfalso. revert Ho'. unfold done_callback. rewrite Ho. cbn [outer].
    by destruct (Nat.eqb (S (nfinished st)) (List.length tasks)).
  - by destruct (g_hang tasks _ I').
Qed.

Lemma pending_run tasks sched st j :
  ginv tasks st -> outer st = None -> children st !! j = Some None ->
  (forall i e, i ∈ sched -> tasks !! i <> Some (Raise e)) ->
  (j ∉ sched \/ tasks !! j = Some Hang) ->
  outer (fold_left (complete tasks) sched st) = None
  /\ children (fold_left (complete tasks) sched st) !! j = Some None
  /\ ginv tasks (fold_left (complete tasks) sched st).
Proof.
  revert st. induction sched as [|i sched IH]; intros st I Ho Hj Hnr Hjs; [done|].
  simpl.
  destruct (pending_complete tasks st i j I Ho Hj) as [Ho' Hj'].
  - intros e. apply Hnr. by left.
  - destruct Hjs as [Hjs|Hh]; [left|by right]. intros ->. apply Hjs. by left.
  - apply IH; [by apply ginv_complete|done|done| |].
    + intros i' e Hin. apply Hnr. by right.
    + destruct Hjs as [Hjs|Hh]; [left|by right]. intros Hin. apply Hjs. by right.
Qed.

Lemma init_pending tasks j o :
  tasks !! j = Some o ->
  outer (gather_init tasks) = None /\ children (gather_init tasks) !! j = Some None.
Proof.
  intros Ht. unfold gather_init. simpl. split.
  - by destruct tasks.
  - by rewrite list_lookup_fmap, Ht.
Qed.

(** A call that never finishes, and no call that raises: the join never
    finishes either. *)
Lemma gather_hangs tasks sched j o :
  tasks !! j = Some o ->
  (j ∉ sched \/ o = Hang) ->
  (forall i e, i ∈ sched -> tasks !! i <> Some (Raise e)) ->
  gather tasks sched = Hang.
Proof.
  intros Ht Hj Hnr. unfold gather.
  destruct (init_pending tasks j o Ht) as [Ho Hc].
  destruct (pending_run tasks sched (gather_init tasks) j (ginv_init tasks) Ho Hc Hnr)
    as [Hout _]; [|by rewrite Hout].
  destruct Hj as [? | ->]; [by left|by right].
Qed.

(** The first call to finish with an exception decides the join. *)
Lemma gather_first_fault tasks pre j post e :
  tasks !! j = Some (Raise e) ->
  (forall i e', i ∈ pre -> tasks !! i <> Some (Raise e')) ->
  gather tasks (pre ++ j :: post) = Raise e.
Proof.
  intros Ht Hnr. unfold gather. rewrite fold_left_app. simpl.
  destruct (init_pending tasks j _ Ht) as [Ho Hc].
  destruct (pending_run tasks pre (gather_init tasks) j (ginv_init tasks) Ho Hc Hnr)
    as (Ho' & Hc' & I').
  { left. intros Hin. by apply (Hnr j e Hin). }
  set (st := fold_left (complete tasks) pre (gather_init tasks)) in *.
  assert (Hj : outer (complete tasks st j) = Some (Raise e)).
  { unfold complete. rewrite Ht, Hc'. unfold done_callback. by rewrite Ho'. }
  by rewrite (outer_run tasks post _ _ Hj).
Qed.

(** A result of the join is the list of what every call returned. *)
Lemma gather_ret_inv tasks sched vs :
  gather tasks sched = Ret vs -> tasks = map Ret vs.
Proof.
  unfold gather.
  set (st := fold_left (complete tasks) sched (gather_init tasks)).
  assert (I : ginv tasks st) by (apply ginv_run, ginv_init).
  destruct (outer st) as [r|] eqn:Ho; [|done]. intros ->.
  pose proof (g_ret tasks st I vs Ho) as HF.
  apply list_eq_same_length with (List.length tasks); [|done|].
  - rewrite length_map. apply Forall2_length in HF. rewrite <- HF. apply I.
  - intros i x y Hlt Hx Hy. rewrite list_lookup_fmap in Hy.
    destruct (vs !! i) as [v|] eqn:Hv; [|done]. simpl in Hy. injection Hy as <-.
    destruct (Forall2_lookup_r _ _ _ _ _ HF Hv) as (c & Hc & ->).
    destruct (g_done tasks st I i _ Hc) as [Ht _]. congruence.
Qed.

(** ** More on the fan-out *)

Lemma search_gather E c :
  get_client E = Ret c ->
  search_scholar_papers E = rbind (gather (calls c) (schedule E)) label_results.
Proof. intros Hc. unfold search_scholar_papers. by rewrite Hc. Qed.

Lemma search_first_fault E c pre j post e :
  get_client E = Ret c ->
  schedule E = (pre ++ j :: post)%list ->
  calls c !! j = Some (Raise e) ->
  (forall i e', i ∈ pre -> calls c !! i <> Some (Raise e')) ->
  search_scholar_papers E = Raise e.
Proof.
  intros Hc Hs Hj Hpre. rewrite (search_gather E c Hc), Hs.
  by rewrite (gather_first_fault (calls c) pre j post e Hj Hpre).
Qed.

Lemma search_ret_inv E v :
  search_scholar_papers E = Ret v ->
  exists c rs,
    get_client E = Ret c /\ calls c = map Ret rs /\ List.length rs = 5%nat
    /\ v = PyDict (zip label_keys rs).
Proof.
  intros H. destruct (get_client E) as [c| |] eqn:Hc;
    [|by unfold search_scholar_papers in H; rewrite Hc in H..].
  rewrite (search_gather E c Hc) in H.
  destruct (gather (calls c) (schedule E)) as [vs| |] eqn:Hg; [|done..].
  apply gather_ret_inv in Hg. pose proof (calls_length c vs Hg) as Hlen.
  exists c, vs. split_and!; try done.
  destruct vs as [|r0 [|r1 [|r2 [|r3 [|r4 [|]]]]]]; try done.
  simpl in H. by injection H as <-.
Qed.

(** ** More on the script *)

Lemma main_cases me E w :
  main me E w =
    if decide (me ∈ running w) then (Raise RuntimeError, refused me w)
    else
      match search_scholar_papers E with
      | Hang => (Hang, stuck me w)
      | Raise e => (Raise e, adapted me w)
      | Ret v =>
          if can_open w output_path then
            match items v with
            | Ret d => for_each d summary (stored output_path (json_dumps v) (adapted me w))
            | Raise e => (Raise e, stored output_path (json_dumps v) (adapted me w))
            | Hang => (Hang, stored output_path (json_dumps v) (adapted me w))
            end
          else (Raise OSError, adapted me w)
      end.
Proof.
  unfold main, bind at 1. rewrite run_async_spec.
  destruct (decide (me ∈ running w)); [done|].
  destruct (search_scholar_papers E) as [v|e|]; [|done..].
  unfold with_, try_finally, bind, open_w, json_dump, write, close_file, ret, lift, stored.
  cbn [files can_open loops current_loop pools driven running stdout adapted].
  destruct (can_open w output_path); [|done].
  cbn [files can_open loops current_loop pools driven running stdout].
  rewrite lookup_insert_eq, insert_insert_eq. by destruct (items v).
Qed.

Lemma for_each_ret entries w w' :
  for_each entries summary w = (Ret tt, w') ->
  exists lines,
    Forall2 (fun entry line => summary_line entry = Ret line) entries lines
    /\ w' = emit lines w.
Proof.
  revert w. induction entries as [|entry entries IH]; intros w H.
  - exists []. split; [constructor|]. simpl in H. injection H as <-. by rewrite emit_nil.
  - simpl in H. unfold bind in H. rewrite summary_spec in H.
    destruct (summary_line entry) as [line| |] eqn:Hl; [|done..].
    destruct (IH _ H) as (lines & HF & ->).
    exists (line :: lines). split; [by constructor|]. by rewrite emit_emit.
Qed.



(** * Further properties: statements *)

(** X1.  When [get_client()] raises, [search_scholar_papers] raises that
    exception whatever the schedule, and the script ends on it: nothing is
    written, nothing is printed, the loop is closed and the exit status
    is 1. *)
Theorem X1_client_fault_aborts me E w e :
  me ∉ running w ->
  get_client E = Raise e ->
  search_scholar_papers E = Raise e
  /\ main me E w = (Raise e, adapted me w)
  /\ files (snd (main me E w)) = files w
  /\ stdout (snd (main me E w)) = stdout w
  /\ exit_status (fst (main me E w)) = Some 1.
Proof.
  intros Hidle Hc.
  assert (Hs : search_scholar_papers E = Raise e).
  { unfold search_scholar_papers. by rewrite Hc. }
  rewrite (main_raises me E w e Hidle Hs). done.
Qed.

(** X2.  The fault that ends the run is the one of the first call seen to
    finish with an exception: when the calls finishing before it do not
    raise, [search_scholar_papers] raises exactly its exception, whatever
    finishes (or never finishes) afterwards, and the script ends on it. *)
Theorem X2_first_fault_wins me E w c pre j post e :
  me ∉ running w ->
  get_client E = Ret c ->
  schedule E = (pre ++ j :: post)%list ->
  calls c !! j = Some (Raise e) ->
  (forall i e', i ∈ pre -> calls c !! i <> Some (Raise e')) ->
  search_scholar_papers E = Raise e
  /\ main me E w = (Raise e, adapted me w).
Proof.
  intros Hidle Hc Hs Hj Hpre.
  pose proof (search_first_fault E c pre j post e Hc Hs Hj Hpre) as H.
  split; [done|]. by apply main_raises.
Qed.

(** X3.  When two calls raise different exceptions, the order of completion
    decides which of them the caller sees: the run in which one finishes
    first raises its exception, the run in which the other finishes first
    raises the other's. *)
Theorem X3_order_decides_the_fault c i j ei ej rest1 rest2 :
  calls c !! i = Some (Raise ei) ->
  calls c !! j = Some (Raise ej) ->
  ei <> ej ->
  search_scholar_papers (sample_env c (i :: rest1)) = Raise ei
  /\ search_scholar_papers (sample_env c (j :: rest2)) = Raise ej
  /\ search_scholar_papers (sample_env c (i :: rest1))
     <> search_scholar_papers (sample_env c (j :: rest2)).
Proof.
  intros Hi Hj Hne.
  assert (H1 : search_scholar_papers (sample_env c (i :: rest1)) = Raise ei).
  { apply (search_first_fault _ c [] i rest1 ei); try done.
    intros k e' Hk. by apply elem_of_nil in Hk. }
  assert (H2 : search_scholar_papers (sample_env c (j :: rest2)) = Raise ej).
  { apply (search_first_fault _ c [] j rest2 ej); try done.
    intros k e' Hk. by apply elem_of_nil in Hk. }
  rewrite H1, H2. split_and!; [done..|]. congruence.
Qed.

(** X4.  When one of the calls never finishes and none of the calls seen to
    finish raises, the join never finishes: [search_scholar_papers] hangs,
    and so does the script, with nothing written, nothing printed, the
    loop still open and the pool not shut down. *)
Theorem X4_stalled_call_stalls_the_run me E w c j o :
  me ∉ running w ->
  get_client E = Ret c ->
  calls c !! j = Some o ->
  (j ∉ schedule E \/ o = Hang) ->
  (forall i e, i ∈ schedule E -> calls c !! i <> Some (Raise e)) ->
  search_scholar_papers E = Hang
  /\ main me E w = (Hang, stuck me w)
  /\ exit_status (fst (main me E w)) = None
  /\ files (snd (main me E w)) = files w
  /\ stdout (snd (main me E w)) = stdout w
  /\ loops (snd (main me E w)) !! List.length (loops w) = Some LoopOpen
  /\ pools (snd (main me E w)) !! List.length (pools w)
     = Some {| workers := []; pool_shutdown := false |}.
Proof.
  intros Hidle Hc Hj Hstall Hnr.
  assert (Hs : search_scholar_papers E = Hang).
  { rewrite (search_gather E c Hc).
    by rewrite (gather_hangs (calls c) (schedule E) j o Hj Hstall Hnr). }
  assert (Hm : main me E w = (Hang, stuck me w)).
  { rewrite main_cases, Hs. by destruct (decide (me ∈ running w)). }
  rewrite Hm. split_and!; try done; by apply list_lookup_middle.
Qed.

(** X5.  [search_scholar_papers] never returns a partial bundle: whenever it
    returns, the client was there, every one of the five calls returned,
    and the value is the dict of the five labels, in order, over the five
    results. *)
Theorem X5_bundle_only_when_all_returned E v :
  search_scholar_papers E = Ret v ->
  exists c rs,
    get_client E = Ret c
    /\ calls c = map Ret rs
    /\ List.length rs = 5%nat
    /\ v = PyDict (zip label_keys rs)
    /\ map fst (zip label_keys rs) = label_keys.
Proof.
  intros H. destruct (search_ret_inv E v H) as (c & rs & Hc & Hcalls & Hlen & ->).
  exists c, rs. split_and!; try done.
  destruct rs as [|r0 [|r1 [|r2 [|r3 [|r4 [|]]]]]]; done.
Qed.

(** X6.  [search_scholar_papers] asks the client for nothing but the five
    fixed queries, each with 20 results and the years 2020 to 2025: two
    clients that answer those five calls alike give the same outcome under
    the same schedule. *)
Theorem X6_only_the_five_calls_matter c1 c2 sched :
  (forall q, q ∈ queries ->
     search_scholar c1 q 20 "2020" "2025" = search_scholar c2 q 20 "2020" "2025") ->
  search_scholar_papers (sample_env c1 sched) = search_scholar_papers (sample_env c2 sched).
Proof.
  intros H.
  rewrite (search_gather (sample_env c1 sched) c1 eq_refl).
  rewrite (search_gather (sample_env c2 sched) c2 eq_refl).
  cbn [schedule sample_env].
  assert (Hcalls : calls c1 = calls c2); [|by rewrite Hcalls].
  unfold calls. apply map_ext_in. intros q Hq. apply H. by apply list_elem_of_In.
Qed.

(** ** More on the script, continued *)

Lemma main_ret_inv me E w w' :
  main me E w = (Ret tt, w') ->
  (me ∉ running w)
  /\ can_open w output_path = true
  /\ exists c rs lines,
       get_client E = Ret c
       /\ calls c = map Ret rs
       /\ List.length rs = 5%nat
       /\ Forall2 (fun entry line => summary_line entry = Ret line) (zip label_keys rs) lines
       /\ w' = emit lines
                 (stored output_path (json_dumps (PyDict (zip label_keys rs))) (adapted me w)).
Proof.
  rewrite main_cases. destruct (decide (me ∈ running w)); [done|].
  destruct (search_scholar_papers E) as [v|e|] eqn:Hs; [|done..].
  destruct (can_open w output_path) eqn:Ho; [|done].
  destruct (search_ret_inv E v Hs) as (c & rs & Hc & Hcalls & Hlen & ->).
  cbn [items]. intros H. destruct (for_each_ret _ _ _ H) as (lines & HF & ->).
  split_and!; try done. by exists c, rs, lines.
Qed.

Lemma py_len_nonneg o n : py_len o = Ret n -> 0 <= n.
Proof. destruct o; simpl; intros H; simplify_eq; lia. Qed.

Lemma summary_line_shape category r line :
  summary_line (category, r) = Ret line ->
  (exists n, 0 <= n /\ line = found_line (py_str (key_value category)) n)
  \/ (exists text, line = failed_line (py_str (key_value category)) text).
Proof.
  unfold summary_line.
  destruct (py_get r "success" PyNone) as [s| |]; cbn [rbind]; [|done..].
  destruct (truthy s).
  - destruct (py_get r "data" (PyDict [])) as [data| |]; cbn [rbind]; [|done..].
    destruct (py_get data "papers" (PyList [])) as [papers| |]; cbn [rbind]; [|done..].
    destruct (py_len papers) as [n| |] eqn:Hn; cbn [rbind]; [|done..].
    intros H. simplify_eq. left. exists n. split; [by eapply py_len_nonneg|done].
  - destruct (py_get r "error" (PyStr "Unknown error")) as [err| |]; cbn [rbind]; [|done..].
    intros H. simplify_eq. right. by eexists.
Qed.

Lemma summary_line_not_dict category r :
  is_dict r = false -> summary_line (category, r) = Raise AttributeError.
Proof. by destruct r. Qed.

Lemma summary_line_papers category d s data papers :
  dict_get d "success" = Some s -> truthy s = true ->
  dict_get d "data" = Some (PyDict data) ->
  dict_get data "papers" = Some papers ->
  summary_line (category, PyDict d) =
    rbind (py_len papers) (fun n => Ret (found_line (py_str (key_value category)) n)).
Proof.
  intros Hs Ht Hd Hp. unfold summary_line, py_get. rewrite Hs. cbn [rbind].
  rewrite Ht, Hd. cbn [rbind]. rewrite Hp. done.
Qed.

Lemma summary_line_data category d s data :
  dict_get d "success" = Some s -> truthy s = true ->
  dict_get d "data" = Some data -> is_dict data = false ->
  summary_line (category, PyDict d) = Raise AttributeError.
Proof.
  intros Hs Ht Hd Hn. unfold summary_line, py_get at 1 2. rewrite Hs. cbn [rbind].
  rewrite Ht, Hd. cbn [rbind]. by destruct data.
Qed.

Lemma adapter_loops me E w r w' :
  run_async_with_thread_pool me E w = (r, w') -> r <> Hang ->
  w' = (if decide (me ∈ running w) then refused me w else adapted me w).
Proof.
  rewrite run_async_spec. intros H Hr.
  destruct (decide (me ∈ running w)); [by injection H as <- <-|].
  injection H as <- <-. by destruct (search_scholar_papers E).
Qed.

(** X7.  When the results are there but the output file cannot be opened
    for writing, the script ends with [OSError]: the file system is as it
    was, no summary line is printed, and the exit status is 1. *)
Theorem X7_unwritable_file_ends_the_run me E w v :
  me ∉ running w ->
  search_scholar_papers E = Ret v ->
  can_open w output_path = false ->
  main me E w = (Raise OSError, adapted me w)
  /\ files (snd (main me E w)) = files w
  /\ stdout (snd (main me E w)) = stdout w
  /\ exit_status (fst (main me E w)) = Some 1.
Proof.
  intros Hidle Hs Hopen. by rewrite (main_cannot_open me E w v Hidle Hs Hopen).
Qed.

(** X8.  The file is written before the summary starts: when the turn of
    one category raises, the file already holds the text of the whole
    bundle, the lines of the categories before it have been printed and
    none after, and the script ends on that exception with exit status 1. *)
Theorem X8_summary_fault_after_the_file me E w pre category r post lines e :
  me ∉ running w ->
  search_scholar_papers E = Ret (PyDict (pre ++ (category, r) :: post)) ->
  can_open w output_path = true ->
  Forall2 (fun entry line => summary_line entry = Ret line) pre lines ->
  summary_line (category, r) = Raise e ->
  fst (main me E w) = Raise e
  /\ files (snd (main me E w)) !! output_path
     = Some (json_dumps (PyDict (pre ++ (category, r) :: post)))
  /\ stdout (snd (main me E w)) = (stdout w ++ lines)%list
  /\ exit_status (fst (main me E w)) = Some 1.
Proof.
  intros Hidle Hs Hopen Hpre Hr.
  rewrite (main_returns me E w _ Hidle Hs Hopen).
  rewrite (for_each_turn pre (category, r) post _ _ (for_each_lines pre lines _ Hpre)).
  rewrite Hr. split_and!; try done. apply lookup_insert_eq.
Qed.

(** X9.  The script ends with exit status 0 only after everything was done:
    the calling thread was not inside a running loop, the file could be
    opened, the client was there and each of the five calls returned; the
    file then holds the text of the bundle of the five results, five lines
    have been printed after what was on the console, and the loop that was
    made is closed. *)
Theorem X9_clean_exit_means_all_done me E w w' :
  main me E w = (Ret tt, w') ->
  (me ∉ running w)
  /\ can_open w output_path = true
  /\ exists c rs lines,
       get_client E = Ret c
       /\ calls c = map Ret rs
       /\ List.length rs = 5%nat
       /\ files w' = <[output_path := json_dumps (PyDict (zip label_keys rs))]> (files w)
       /\ stdout w' = (stdout w ++ lines)%list
       /\ List.length lines = 5%nat
       /\ loops w' = (loops w ++ [LoopClosed])%list.
Proof.
  intros H. destruct (main_ret_inv me E w w' H)
    as (Hidle & Hopen & c & rs & lines & Hc & Hcalls & Hlen & HF & ->).
  split_and!; try done. exists c, rs, lines. split_and!; try done.
  apply Forall2_length in HF. by rewrite <- HF, length_zip_with, Hlen.
Qed.

(** X10.  Every line of a run that ends with exit status 0 belongs to one
    label, in the order of the labels: the line at each position is either
    that label's count line, with a count that is not negative, or that
    label's failure line. *)
Theorem X10_one_line_per_label me E w w' :
  main me E w = (Ret tt, w') ->
  exists lines,
    stdout w' = (stdout w ++ lines)%list
    /\ List.length lines = List.length labels
    /\ forall k (label : string),
         labels !! k = Some label ->
         exists line,
           lines !! k = Some line
           /\ ((exists n, 0 <= n /\ line = label +++ ": Found " +++ int_repr n +++ " papers")
               \/ (exists text, line = label +++ ": Search failed - " +++ text)).
Proof.
  intros H. destruct (main_ret_inv me E w w' H)
    as (_ & _ & c & rs & lines & _ & _ & Hlen & HF & ->).
  exists lines. split; [done|].
  pose proof (Forall2_length _ _ _ HF) as Hl.
  rewrite length_zip_with, Hlen in Hl. split; [by rewrite <- Hl|].
  intros k label Hk.
  destruct rs as [|r0 [|r1 [|r2 [|r3 [|r4 [|]]]]]]; try done.
  assert (exists r, zip label_keys [r0; r1; r2; r3; r4] !! k = Some (KStr label, r))
    as [r Hr].
  { destruct k as [|[|[|[|[|k]]]]]; [..|done]; injection Hk as <-; eexists; reflexivity. }
  destruct (Forall2_lookup_l _ _ _ _ _ HF Hr) as (line & Hline & Hs).
  exists line. split; [done|]. apply summary_line_shape in Hs. exact Hs.
Qed.

(** X11.  A result that is not a dict has no [get]: its turn of the summary
    loop raises [AttributeError], after the lines of the categories before
    it and before any line of its own. *)
Theorem X11_result_must_be_a_dict pre category r post w w1 :
  for_each pre summary w = (Ret tt, w1) ->
  is_dict r = false ->
  for_each (pre ++ (category, r) :: post) summary w = (Raise AttributeError, w1).
Proof.
  intros Hpre Hr. rewrite (for_each_turn pre _ post w w1 Hpre).
  by rewrite (summary_line_not_dict category r Hr).
Qed.

(** X12.  The count is [len] of whatever [papers] is: a string is counted
    by its characters (code points), a dict by its keys and a tuple by its
    items, as a list is. *)
Theorem X12_papers_counted_by_len pre category d post s data papers n w w1 :
  for_each pre summary w = (Ret tt, w1) ->
  dict_get d "success" = Some s ->
  truthy s = true ->
  dict_get d "data" = Some (PyDict data) ->
  dict_get data "papers" = Some papers ->
  py_len papers = Ret n ->
  for_each (pre ++ (category, PyDict d) :: post) summary w
    = for_each post summary
        (emit [py_str (key_value category) +++ ": Found " +++ int_repr n +++ " papers"] w1)
  /\ (forall text, papers = PyStr text -> n = Z.of_nat (List.length text))
  /\ (forall fields, papers = PyDict fields -> n = Z.of_nat (List.length fields))
  /\ (forall xs, papers = PyTuple xs -> n = Z.of_nat (List.length xs))
  /\ (forall xs, papers = PyList xs -> n = Z.of_nat (List.length xs)).
Proof.
  intros Hpre Hs Ht Hd Hp Hn. split_and!.
  - rewrite (for_each_turn pre _ post w w1 Hpre).
    by rewrite (summary_line_papers category d s data papers Hs Ht Hd Hp), Hn.
  - intros text ->. simpl in Hn. congruence.
  - intros fields ->. simpl in Hn. congruence.
  - intros fields ->. simpl in Hn. congruence.
  - intros xs ->. simpl in Hn. congruence.
Qed.

(** X13.  A [papers] that has no length (None, a bool, an int, a float)
    makes the turn raise [TypeError]; no line is printed for the category. *)
Theorem X13_unsized_papers_fault pre category d post s data papers w w1 :
  for_each pre summary w = (Ret tt, w1) ->
  dict_get d "success" = Some s ->
  truthy s = true ->
  dict_get d "data" = Some (PyDict data) ->
  dict_get data "papers" = Some papers ->
  is_sized papers = false ->
  for_each (pre ++ (category, PyDict d) :: post) summary w = (Raise TypeError, w1).
Proof.
  intros Hpre Hs Ht Hd Hp Hn.
  rewrite (for_each_turn pre _ post w w1 Hpre).
  rewrite (summary_line_papers category d s data papers Hs Ht Hd Hp).
  by destruct papers.
Qed.

(** X14.  A [data] that is present and is not a dict, whatever it is (a
    list, a string, a number, None), makes the turn of a success-flagged
    result raise [AttributeError]. *)
Theorem X14_data_must_be_a_dict pre category d post s data w w1 :
  for_each pre summary w = (Ret tt, w1) ->
  dict_get d "success" = Some s ->
  truthy s = true ->
  dict_get d "data" = Some data ->
  is_dict data = false ->
  for_each (pre ++ (category, PyDict d) :: post) summary w
    = (Raise AttributeError, w1).
Proof.
  intros Hpre Hs Ht Hd Hn.
  rewrite (for_each_turn pre _ post w w1 Hpre).
  by rewrite (summary_line_data category d s data Hs Ht Hd Hn).
Qed.

(** X15.  The pool made by the [with] statement is shut down on every exit
    of [run_async_with_thread_pool], by a return or by an exception: it is
    the one new pool, it is shut down, and the pools that were there are
    as they were. *)
Theorem X15_pool_shut_down_on_every_exit me E w r w' :
  run_async_with_thread_pool me E w = (r, w') ->
  r <> Hang ->
  pools w' = (pools w ++ [{| workers := []; pool_shutdown := true |}])%list
  /\ (forall p, (p < List.length (pools w))%nat -> pools w' !! p = pools w !! p)
  /\ exists pool, pools w' !! List.length (pools w) = Some pool
                  /\ pool_shutdown pool = true.
Proof.
  intros Hrun Hr. rewrite (adapter_loops me E w r w' Hrun Hr).
  assert (Hp : pools (if decide (me ∈ running w) then refused me w else adapted me w)
               = (pools w ++ [{| workers := []; pool_shutdown := true |}])%list).
  { by destruct (decide (me ∈ running w)). }
  rewrite Hp. split_and!.
  - done.
  - intros p Hlt. by rewrite lookup_app_l.
  - eexists. split; [by apply list_lookup_middle|done].
Qed.

(** X16.  [run_async_with_thread_pool] never resets the thread's current
    loop: after it has come back, the loop it made and closed is still the
    current loop of the calling thread, the current loops of the other
    threads are as they were, and driving that loop again is refused with
    [RuntimeError]. *)
Theorem X16_closed_loop_stays_current me E w r w' (coro : result value) :
  run_async_with_thread_pool me E w = (r, w') ->
  r <> Hang ->
  current_loop w' !! me = Some (List.length (loops w))
  /\ loops w' !! List.length (loops w) = Some LoopClosed
  /\ (forall thread, thread <> me -> current_loop w' !! thread = current_loop w !! thread)
  /\ run_until_complete me (List.length (loops w)) coro w' = (Raise RuntimeError, w').
Proof.
  intros Hrun Hr. rewrite (adapter_loops me E w r w' Hrun Hr).
  assert (Hl : loops (if decide (me ∈ running w) then refused me w else adapted me w)
               = (loops w ++ [LoopClosed])%list)
    by (by destruct (decide (me ∈ running w))).
  assert (Hc : current_loop (if decide (me ∈ running w) then refused me w else adapted me w)
               = <[me := List.length (loops w)]> (current_loop w))
    by (by destruct (decide (me ∈ running w))).
  assert (Hk : loops (if decide (me ∈ running w) then refused me w else adapted me w)
                 !! List.length (loops w) = Some LoopClosed).
  { rewrite Hl. by apply list_lookup_middle. }
  split_and!.
  - rewrite Hc. apply lookup_insert_eq.
  - done.
  - intros thread Hne. rewrite Hc. by apply lookup_insert_ne.
  - unfold run_until_complete. by rewrite Hk.
Qed.

(** X17.  A second call on the same thread starts afresh: it makes its own
    loop, drives it with the calling thread and hands back the outcome of
    its own coroutine; the loop of the first call stays closed, and the
    two loops are driven in the order of the calls. *)
Theorem X17_second_call_starts_afresh me E1 E2 w r1 w1 r2 w2 :
  me ∉ running w ->
  run_async_with_thread_pool me E1 w = (r1, w1) ->
  r1 <> Hang ->
  run_async_with_thread_pool me E2 w1 = (r2, w2) ->
  r2 = search_scholar_papers E2
  /\ loops w1 = (loops w ++ [LoopClosed])%list
  /\ current_loop w2 !! me = Some (S (List.length (loops w)))
  /\ loops w2 !! List.length (loops w) = Some LoopClosed
  /\ (r2 <> Hang -> loops w2 = (loops w ++ [LoopClosed; LoopClosed])%list)
  /\ driven w2 = (driven w ++ [(me, List.length (loops w));
                               (me, S (List.length (loops w)))])%list.
Proof.
  intros Hidle H1 Hr1 H2.
  pose proof (adapter_loops me E1 w r1 w1 H1 Hr1) as Hw1.
  destruct (decide (me ∈ running w)); [done|]. subst w1.
  rewrite run_async_spec in H2. cbn [running adapted] in H2.
  destruct (decide (me ∈ running w)); [done|]. injection H2 as <- <-.
  assert (Hlen : List.length (loops w ++ [LoopClosed]) = S (List.length (loops w))).
  { rewrite length_app. simpl. lia. }
  destruct (search_scholar_papers E2) as [v|e|];
    cbn [adapted stuck loops current_loop driven]; rewrite Hlen, <- !app_assoc;
    (split_and!; [done|done|apply lookup_insert_eq| |done|done]);
    by apply (list_lookup_middle (loops w) _ LoopClosed).
Qed.

(** X20.  The file tells the bundles apart: two runs that get different
    bundles, both made of what a JSON text stands for one to one ([None],
    booleans, integers, floats other than NaN, strs, lists and dicts with
    unique str keys), leave different texts in the output file, given of
    the runtime that the text [repr] gives a finite float reads back as
    that float. *)
Theorem X20_different_bundles_different_files
    (laws : runtime_laws rt) me1 me2 E1 E2 w1 w2 d1 d2 :
  me1 ∉ running w1 ->
  me2 ∉ running w2 ->
  search_scholar_papers E1 = Ret (PyDict d1) ->
  search_scholar_papers E2 = Ret (PyDict d2) ->
  can_open w1 output_path = true ->
  can_open w2 output_path = true ->
  wf (PyDict d1) = true ->
  wf (PyDict d2) = true ->
  d1 <> d2 ->
  files (snd (main me1 E1 w1)) !! output_path
  <> files (snd (main me2 E2 w2)) !! output_path.
Proof.
  intros Hi1 Hi2 Hs1 Hs2 Ho1 Ho2 Hwf1 Hwf2 Hne.
  destruct (main_files me1 E1 w1 d1 Hi1 Hs1) as (-> & _).
  destruct (main_files me2 E2 w2 d2 Hi2 Hs2) as (-> & _).
  rewrite Ho1, Ho2, !lookup_insert_eq. intros H. injection H as H.
  pose proof (json_round_trip (PyDict d1) Hwf1) as H1.
  pose proof (json_round_trip (PyDict d2) Hwf2) as H2.
  rewrite H in H1. rewrite H1 in H2. by simplify_eq.
Qed.

(** X21.  The text in the file is laid out with an indentation of 2 at
    every depth, whatever the results are: outside the strings, each
    opening bracket is followed by its closing bracket or by a line break,
    each comma by a line break, and each line starts with exactly two
    spaces for each bracket open there, a closing bracket standing as far
    in as the line of its opening bracket; at the end of the text no
    bracket and no string is open. *)
Theorem X21_file_is_indented_at_every_depth me E w d :
  me ∉ running w ->
  search_scholar_papers E = Ret (PyDict d) ->
  can_open w output_path = true ->
  exists text,
    files (snd (main me E w)) !! output_path = Some text
    /\ text = json_dumps (PyDict d)
    /\ indented 0 Outside text = true.
Proof.
  intros Hidle Hs Hopen. exists (json_dumps (PyDict d)).
  destruct (main_files me E w d Hidle Hs) as [Hfiles _]. rewrite Hopen in Hfiles.
  split_and!; [|done|apply json_dumps_indented].
  rewrite Hfiles. apply lookup_insert_eq.
Qed.

End Script.

(** * The sample runs *)

#[local] Existing Instance sample_runtime.

Lemma sample_laws : runtime_laws sample_runtime.
Proof.
  split.
  - intros []; simpl; congruence.
  - intros []; simpl; congruence.
  - intros []; simpl; intros; try congruence; reflexivity.
Qed.

Lemma C1_witness :
  exists bundle,
    search_scholar_papers (sample_env steady_client [3; 1; 0; 4; 2]%nat)
      = Ret (PyDict bundle)
    /\ map fst bundle = label_keys
    /\ forall n q r,
         queries !! n = Some q ->
         search_scholar steady_client q 20 "2020" "2025" = Ret r ->
         exists label : string,
           labels !! n = Some label
           /\ bundle !! n = Some (KStr label, r)
           /\ dict_get bundle label = Some r.
Proof.
  apply (C1_bundle_is_positional (sample_env steady_client [3; 1; 0; 4; 2]%nat)
           steady_client (replicate 5 (sample_success 3))).
  - reflexivity.
  - reflexivity.
  - apply fair_intro. reflexivity.
Defined.

Lemma C2_witness :
  for_each ([(KStr "content_curation", sample_failure)]
              ++ (KStr "recommendation_systems", PyDict (sample_fields 3)) :: [])
    summary sample_world
    = for_each [] summary
        (emit ["recommendation_systems" +++ ": Found " +++ int_repr 3 +++ " papers"]
           (emit [str_of "content_curation: Search failed - rate limited"] sample_world))
  /\ (dict_get (sample_fields 3) "data" = None -> 3 = 0)
  /\ (forall data, dict_get (sample_fields 3) "data" = Some (PyDict data) ->
        dict_get data "papers" = None -> 3 = 0)
  /\ (forall data papers, dict_get (sample_fields 3) "data" = Some (PyDict data) ->
        dict_get data "papers" = Some (PyList papers) ->
        3 = Z.of_nat (List.length papers) /\ (papers = [] -> 3 = 0)).
Proof.
  apply (C2_success_line [(KStr "content_curation", sample_failure)] (KStr "recommendation_systems")
           (sample_fields 3) [] (PyBool true) 3 sample_world).
  - reflexivity.
  - reflexivity.
  - reflexivity.
  - reflexivity.
Defined.

Lemma C9_witness :
  let error := default (PyStr "Unknown error") (dict_get [(KStr "success", PyInt 0)] "error") in
  let line := "content_curation" +++ ": Search failed - " +++ py_str error in
  for_each ([] ++ (KStr "content_curation", PyDict [(KStr "success", PyInt 0)]) :: []) summary
      sample_world
    = for_each [] summary (emit [line] sample_world)
  /\ (dict_get [(KStr "success", PyInt 0)] "error" = None ->
        line = "content_curation" +++ ": Search failed - Unknown error")
  /\ forall n, line <> "content_curation" +++ ": Found " +++ int_repr n +++ " papers".
Proof.
  apply (C9_falsy_success_fails [] (KStr "content_curation") [(KStr "success", PyInt 0)] []
           sample_world sample_world).
  - reflexivity.
  - reflexivity.
Defined.

Lemma C10_witness :
  for_each ([] ++ (KStr "content_curation",
                   PyDict [(KStr "success", PyBool true); (KStr "data", PyNone)]) :: [])
    summary sample_world
    = (Raise AttributeError, sample_world)
  /\ forall d0 s0,
       dict_get d0 "success" = Some s0 -> truthy s0 = true ->
       dict_get d0 "data" = None ->
       for_each ([] ++ (KStr "content_curation", PyDict d0) :: []) summary sample_world
         = for_each [] summary
             (emit ["content_curation" +++ ": Found " +++ int_repr 0 +++ " papers"]
                sample_world).
Proof.
  apply (C10_null_data_faults [] (KStr "content_curation")
           [(KStr "success", PyBool true); (KStr "data", PyNone)] [] (PyBool true)
           sample_world sample_world).
  - reflexivity.
  - reflexivity.
  - reflexivity.
  - reflexivity.
Defined.

Lemma C3_witness :
  exists bundle lines w',
    search_scholar_papers (sample_env limited_client [4; 0; 3; 2; 1]%nat)
      = Ret (PyDict bundle)
    /\ map fst bundle = label_keys
    /\ List.length bundle = 5%nat
    /\ main 0%nat (sample_env limited_client [4; 0; 3; 2; 1]%nat) sample_world
         = (Ret tt, w')
    /\ stdout w' = (stdout sample_world ++ lines)%list
    /\ List.length lines = 5%nat
    /\ forall category : string,
         labels !! 1%nat = Some category ->
         lines !! 1%nat
           = Some (category +++ ": Search failed - "
                     +++ py_str (default (PyStr "Unknown error")
                                  (dict_get [(KStr "success", PyBool false);
                                             (KStr "error", PyStr "rate limited")] "error")))
         /\ (dict_get [(KStr "success", PyBool false); (KStr "error", PyStr "rate limited")] "error"
               = None ->
               lines !! 1%nat = Some (category +++ ": Search failed - Unknown error")).
Proof.
  apply (C3_error_flagged_result 0%nat (sample_env limited_client [4; 0; 3; 2; 1]%nat)
           sample_world limited_client
           [sample_success 3; sample_failure; sample_success 3; sample_success 3;
            sample_success 3] 1%nat).
  - apply not_elem_of_empty.
  - reflexivity.
  - reflexivity.
  - apply fair_intro. reflexivity.
  - reflexivity.
  - reflexivity.
  - reflexivity.
  - intros i r Hi Hr.
    destruct i as [|[|[|[|[|i]]]]]; simpl in Hr; try discriminate Hr;
      try (injection Hr as <-; reflexivity).
    contradiction Hi; reflexivity.
Defined.

Lemma C4_witness :
  exists e' w',
    search_scholar_papers (sample_env broken_client [0; 1; 2; 3; 4]%nat) = Raise e'
    /\ (exists k, calls broken_client !! k = Some (Raise e'))
    /\ ((forall k e2, calls broken_client !! k = Some (Raise e2) ->
           e2 = ClientFault "timeout") -> e' = ClientFault "timeout")
    /\ main 0%nat (sample_env broken_client [0; 1; 2; 3; 4]%nat) sample_world
         = (Raise e', w')
    /\ files w' = files sample_world
    /\ stdout w' = stdout sample_world
    /\ exit_status (fst (main 0%nat (sample_env broken_client [0; 1; 2; 3; 4]%nat)
                           sample_world)) = Some 1
    /\ exit_status (fst (main 0%nat (sample_env broken_client [0; 1; 2; 3; 4]%nat)
                           sample_world)) <> Some 0.
Proof.
  apply (C4_raised_fault_aborts 0%nat (sample_env broken_client [0; 1; 2; 3; 4]%nat)
           sample_world broken_client 2%nat (ClientFault "timeout")).
  - apply not_elem_of_empty.
  - reflexivity.
  - reflexivity.
  - apply (bool_decide_unpack _). reflexivity.
Defined.

Lemma C6_witness :
  let text := json_dumps (PyDict (zip label_keys (replicate 5 (sample_success 3)))) in
  let w1 := snd (main 0%nat (sample_env steady_client [0; 1; 2; 3; 4]%nat) sample_world) in
  let w2 := snd (main 1%nat (sample_env steady_client [4; 2; 3; 0; 1; 1]%nat) w1) in
  files w1 !! output_path = Some text
  /\ files w2 !! output_path = Some text
  /\ files w2 = files w1
  /\ all_chars is_ascii text = true.
Proof.
  apply (C6_same_responses_same_file 0%nat 1%nat
           (sample_env steady_client [0; 1; 2; 3; 4]%nat)
           (sample_env steady_client [4; 2; 3; 0; 1; 1]%nat)
           steady_client (replicate 5 (sample_success 3)) sample_world).
  - apply not_elem_of_empty.
  - apply not_elem_of_empty.
  - reflexivity.
  - reflexivity.
  - reflexivity.
  - apply fair_intro. reflexivity.
  - apply fair_intro. reflexivity.
  - reflexivity.
Defined.


Lemma C5_witness :
  let bundle := PyDict (zip label_keys (replicate 5 scored_result)) in
  let w' := snd (main 0%nat (sample_env scored_client [2; 0; 1; 4; 3]%nat) sample_world) in
  files w' !! output_path = Some (json_dumps bundle)
  /\ (forall path, path <> output_path ->
        files w' !! path = files sample_world !! path)
  /\ (forall r0 r1 r2 r3 r4, replicate 5 scored_result = [r0; r1; r2; r3; r4] ->
        json_dumps bundle =
          "{" ++ char LF
          ++ "  " ++ quoted "content_curation" ++ ": " ++ iterencode r0 1 ++ "," ++ char LF
          ++ "  " ++ quoted "recommendation_systems" ++ ": " ++ iterencode r1 1 ++ "," ++ char LF
          ++ "  " ++ quoted "automated_reporting" ++ ": " ++ iterencode r2 1 ++ "," ++ char LF
          ++ "  " ++ quoted "financial_visualization" ++ ": " ++ iterencode r3 1 ++ "," ++ char LF
          ++ "  " ++ quoted "content_aggregation" ++ ": " ++ iterencode r4 1 ++ char LF
          ++ "}")
  /\ (forallb wf (replicate 5 scored_result) = true ->
        json_loads (json_dumps bundle) = Loaded bundle).
Proof.
  apply (C5_persisted_bundle_round_trips sample_laws 0%nat
           (sample_env scored_client [2; 0; 1; 4; 3]%nat) sample_world scored_client
           (replicate 5 scored_result)).
  - apply not_elem_of_empty.
  - reflexivity.
  - reflexivity.
  - apply fair_intro. reflexivity.
  - reflexivity.
Defined.

Lemma C5_counterexample :
  exists text,
    search_scholar_papers (sample_env yearly_client [0; 1; 2; 3; 4]%nat)
      = Ret (PyDict (zip label_keys (replicate 5 yearly_result)))
    /\ files (snd (main 0%nat (sample_env yearly_client [0; 1; 2; 3; 4]%nat) sample_world))
         !! output_path = Some text
    /\ json_loads text = Loaded (PyDict (zip label_keys (replicate 5 yearly_loaded)))
    /\ PyDict (zip label_keys (replicate 5 yearly_loaded))
       <> PyDict (zip label_keys (replicate 5 yearly_result)).
Proof.
  eexists. split_and!.
  - reflexivity.
  - vm_compute. reflexivity.
  - vm_compute. reflexivity.
  - discriminate.
Qed.

(** * The script at work on the sample runs *)

Example run_prints_counts :
  let '(r, w) := main 0%nat (sample_env counting_client [4; 2; 0; 1; 3]%nat) sample_world in
  exit_status r = Some 0
  /\ stdout w = map str_of [ "content_curation: Found 3 papers";
                  "recommendation_systems: Found 5 papers";
                  "automated_reporting: Found 0 papers";
                  "financial_visualization: Found 12 papers";
                  "content_aggregation: Found 7 papers" ]
  /\ loops w = [LoopClosed]
  /\ option_map json_loads (files w !! output_path)
     = Some (Loaded (PyDict (zip label_keys (map sample_success [3; 5; 0; 12; 7]%nat)))).
Proof. vm_compute. done. Qed.

Example run_reports_rate_limit :
  stdout (snd (main 0%nat (sample_env limited_client [0; 1; 2; 3; 4]%nat) sample_world))
  = map str_of [ "content_curation: Found 3 papers";
      "recommendation_systems: Search failed - rate limited";
      "automated_reporting: Found 3 papers";
      "financial_visualization: Found 3 papers";
      "content_aggregation: Found 3 papers" ].
Proof. vm_compute. done. Qed.

Example run_never_ends :
  fst (main 0%nat (sample_env steady_client [0; 1; 2; 3]%nat) sample_world) = Hang.
Proof. vm_compute. done. Qed.

Example indented_text :
  json_dumps (PyList [PyInt 1; PyList [PyInt (-2); PyNone]; PyDict []; PyBool true])
  = "[
  1,
  [
    -2,
    null
  ],
  {},
  true
]".
Proof. vm_compute. done. Qed.

Example summary_of_a_list_error :
  summary_line (KStr "content_curation",
                PyDict [(KStr "success", PyNone);
                        (KStr "error", PyList [PyStr "quota"; PyInt 429; PyNone])])
  = Ret (str_of "content_curation: Search failed - ['quota', 429, None]").
Proof. vm_compute. done. Qed.

Example run_with_floats_loads_back :
  option_map json_loads
    (files (snd (main 0%nat (sample_env scored_client [1; 0; 2; 4; 3]%nat) sample_world))
       !! output_path)
  = Some (Loaded (PyDict (zip label_keys (replicate 5 scored_result)))).
Proof. vm_compute. done. Qed.

Example escaped_text :
  json_dumps (PyDict [(KStr [233; 8211; 128512]%N, PyFloat (float_of_str "1.5"));
                      (KInt 2020, PyTuple [PyFloat neg_inf; PyFloat nan]);
                      (KNone, PyFloat (float_of_str "1e+16"))])
  = "{" ++ char LF
    ++ "  " ++ quoted "\u00e9\u2013\ud83d\ude00" ++ ": 1.5," ++ char LF
    ++ "  " ++ quoted "2020" ++ ": [" ++ char LF
    ++ "    -Infinity," ++ char LF
    ++ "    NaN" ++ char LF
    ++ "  ]," ++ char LF
    ++ "  " ++ quoted "null" ++ ": 1e+16" ++ char LF
    ++ "}".
Proof. vm_compute. done. Qed.

(** What does not load back as it was: a surrogate pair spelled as two code
    points comes back as the one code point it stands for, a key that is no
    str as its text, a tuple as a list, and NaN as a float that equals no
    float. *)
Example what_does_not_load_back :
  json_loads (json_dumps (PyStr [55357; 56832]%N)) = Loaded (PyStr [128512]%N)
  /\ json_loads (json_dumps (PyDict [(KBool true, PyNone); (KFloat (float_of_str "0.5"), PyNone)]))
     = Loaded (PyDict [(KStr "true", PyNone); (KStr "0.5", PyNone)])
  /\ json_loads (json_dumps (PyTuple [PyInt 1])) = Loaded (PyList [PyInt 1])
  /\ json_loads (json_dumps (PyFloat nan)) = Loaded (PyFloat nan)
  /\ float_eqb nan nan = false.
Proof. vm_compute. done. Qed.

(** The layout is that of an indentation of 2 and of no other. *)
Example layouts :
  indented 0 Outside ("[" ++ char LF ++ "  1," ++ char LF ++ "  [" ++ char LF
                      ++ "    " ++ quoted "],[" ++ char LF ++ "  ]" ++ char LF ++ "]") = true
  /\ indented 0 Outside "[1, 2]" = false
  /\ indented 0 Outside ("[" ++ char LF ++ "    1" ++ char LF ++ "]") = false
  /\ indented 0 Outside ("[" ++ char LF ++ "  1" ++ char LF ++ "  ]") = false
  /\ indented 0 Outside ("[" ++ char LF ++ "  [" ++ char LF ++ "  1" ++ char LF
                         ++ "  ]" ++ char LF ++ "]") = false.
Proof. vm_compute. done. Qed.

Lemma X1_witness :
  search_scholar_papers (clientless_env [0; 1; 2; 3; 4]%nat)
    = Raise (ClientFault "no credentials")
  /\ main 0%nat (clientless_env [0; 1; 2; 3; 4]%nat) sample_world
     = (Raise (ClientFault "no credentials"), adapted 0%nat sample_world)
  /\ files (snd (main 0%nat (clientless_env [0; 1; 2; 3; 4]%nat) sample_world))
     = files sample_world
  /\ stdout (snd (main 0%nat (clientless_env [0; 1; 2; 3; 4]%nat) sample_world))
     = stdout sample_world
  /\ exit_status (fst (main 0%nat (clientless_env [0; 1; 2; 3; 4]%nat) sample_world))
     = Some 1.
Proof.
  apply (X1_client_fault_aborts 0%nat (clientless_env [0; 1; 2; 3; 4]%nat) sample_world
           (ClientFault "no credentials")).
  - apply not_elem_of_empty.
  - reflexivity.
Defined.

Lemma X2_witness :
  search_scholar_papers (sample_env faulty_client [4; 0; 3; 1]%nat)
    = Raise (ClientFault "timeout")
  /\ main 0%nat (sample_env faulty_client [4; 0; 3; 1]%nat) sample_world
     = (Raise (ClientFault "timeout"), adapted 0%nat sample_world).
Proof.
  apply (X2_first_fault_wins 0%nat (sample_env faulty_client [4; 0; 3; 1]%nat)
           sample_world faulty_client [4; 0]%nat 3%nat [1]%nat (ClientFault "timeout")).
  - apply not_elem_of_empty.
  - reflexivity.
  - reflexivity.
  - reflexivity.
  - intros i e' Hi.
    apply elem_of_cons in Hi as [->|Hi]; [discriminate|].
    apply elem_of_cons in Hi as [->|Hi]; [discriminate|].
    by apply elem_of_nil in Hi.
Defined.

Lemma X3_witness :
  search_scholar_papers (sample_env faulty_client (1 :: [0; 2; 3; 4])%nat)
    = Raise (ClientFault "rate limited")
  /\ search_scholar_papers (sample_env faulty_client (3 :: [0; 1; 2; 4])%nat)
     = Raise (ClientFault "timeout")
  /\ search_scholar_papers (sample_env faulty_client (1 :: [0; 2; 3; 4])%nat)
     <> search_scholar_papers (sample_env faulty_client (3 :: [0; 1; 2; 4])%nat).
Proof.
  apply (X3_order_decides_the_fault faulty_client 1%nat 3%nat
           (ClientFault "rate limited") (ClientFault "timeout")).
  - reflexivity.
  - reflexivity.
  - discriminate.
Defined.

Lemma X4_witness :
  search_scholar_papers (sample_env steady_client [0; 1; 2; 4]%nat) = Hang
  /\ main 0%nat (sample_env steady_client [0; 1; 2; 4]%nat) sample_world
     = (Hang, stuck 0%nat sample_world)
  /\ exit_status (fst (main 0%nat (sample_env steady_client [0; 1; 2; 4]%nat) sample_world))
     = None
  /\ files (snd (main 0%nat (sample_env steady_client [0; 1; 2; 4]%nat) sample_world))
     = files sample_world
  /\ stdout (snd (main 0%nat (sample_env steady_client [0; 1; 2; 4]%nat) sample_world))
     = stdout sample_world
  /\ loops (snd (main 0%nat (sample_env steady_client [0; 1; 2; 4]%nat) sample_world))
       !! List.length (loops sample_world) = Some LoopOpen
  /\ pools (snd (main 0%nat (sample_env steady_client [0; 1; 2; 4]%nat) sample_world))
       !! List.length (pools sample_world)
     = Some {| workers := []; pool_shutdown := false |}.
Proof.
  apply (X4_stalled_call_stalls_the_run 0%nat (sample_env steady_client [0; 1; 2; 4]%nat)
           sample_world steady_client 3%nat (Ret (sample_success 3))).
  - apply not_elem_of_empty.
  - reflexivity.
  - reflexivity.
  - left. apply (bool_decide_unpack _). reflexivity.
  - intros i e Hi. destruct i as [|[|[|[|[|i]]]]]; discriminate.
Defined.

Lemma X5_witness :
  exists c rs,
    get_client (sample_env limited_client [3; 3; 9; 1; 0; 4; 2]%nat) = Ret c
    /\ calls c = map Ret rs
    /\ List.length rs = 5%nat
    /\ PyDict (zip label_keys [sample_success 3; sample_failure; sample_success 3;
                           sample_success 3; sample_success 3])
       = PyDict (zip label_keys rs)
    /\ map fst (zip label_keys rs) = label_keys.
Proof.
  apply (X5_bundle_only_when_all_returned
           (sample_env limited_client [3; 3; 9; 1; 0; 4; 2]%nat)).
  reflexivity.
Defined.

Lemma X6_witness :
  search_scholar_papers (sample_env steady_client [0; 1; 2; 3; 4]%nat)
  = search_scholar_papers (sample_env strict_client [0; 1; 2; 3; 4]%nat).
Proof.
  apply (X6_only_the_five_calls_matter steady_client strict_client [0; 1; 2; 3; 4]%nat).
  intros q Hq. reflexivity.
Defined.

Lemma X7_witness :
  main 0%nat (sample_env steady_client [0; 1; 2; 3; 4]%nat) readonly_world
    = (Raise OSError, adapted 0%nat readonly_world)
  /\ files (snd (main 0%nat (sample_env steady_client [0; 1; 2; 3; 4]%nat) readonly_world))
     = files readonly_world
  /\ stdout (snd (main 0%nat (sample_env steady_client [0; 1; 2; 3; 4]%nat) readonly_world))
     = stdout readonly_world
  /\ exit_status (fst (main 0%nat (sample_env steady_client [0; 1; 2; 3; 4]%nat)
                         readonly_world))
     = Some 1.
Proof.
  apply (X7_unwritable_file_ends_the_run 0%nat
           (sample_env steady_client [0; 1; 2; 3; 4]%nat) readonly_world
           (PyDict (zip label_keys (replicate 5 (sample_success 3))))).
  - apply not_elem_of_empty.
  - reflexivity.
  - reflexivity.
Defined.

Lemma X8_witness :
  fst (main 0%nat (sample_env sloppy_client [0; 1; 2; 3; 4]%nat) sample_world)
    = Raise AttributeError
  /\ files (snd (main 0%nat (sample_env sloppy_client [0; 1; 2; 3; 4]%nat) sample_world))
       !! output_path
     = Some (json_dumps
               (PyDict ([(KStr "content_curation", sample_success 3);
                         (KStr "recommendation_systems", sample_success 3);
                         (KStr "automated_reporting", sample_success 3)]
                        ++ (KStr "financial_visualization",
                            PyDict [(KStr "success", PyBool true); (KStr "data", PyList [])])
                        :: [(KStr "content_aggregation", sample_success 3)])%list))
  /\ stdout (snd (main 0%nat (sample_env sloppy_client [0; 1; 2; 3; 4]%nat) sample_world))
     = (stdout sample_world
        ++ map str_of ["content_curation: Found 3 papers";
            "recommendation_systems: Found 3 papers";
            "automated_reporting: Found 3 papers"])%list
  /\ exit_status (fst (main 0%nat (sample_env sloppy_client [0; 1; 2; 3; 4]%nat)
                         sample_world))
     = Some 1.
Proof.
  apply (X8_summary_fault_after_the_file 0%nat
           (sample_env sloppy_client [0; 1; 2; 3; 4]%nat) sample_world).
  - apply not_elem_of_empty.
  - reflexivity.
  - reflexivity.
  - repeat constructor.
  - reflexivity.
Defined.

Lemma X9_witness :
  (0%nat ∉ running sample_world)
  /\ can_open sample_world output_path = true
  /\ exists c rs lines,
       get_client (sample_env limited_client [4; 3; 2; 1; 0]%nat) = Ret c
       /\ calls c = map Ret rs
       /\ List.length rs = 5%nat
       /\ files (snd (main 0%nat (sample_env limited_client [4; 3; 2; 1; 0]%nat)
                        sample_world))
          = <[output_path := json_dumps (PyDict (zip label_keys rs))]> (files sample_world)
       /\ stdout (snd (main 0%nat (sample_env limited_client [4; 3; 2; 1; 0]%nat)
                         sample_world))
          = (stdout sample_world ++ lines)%list
       /\ List.length lines = 5%nat
       /\ loops (snd (main 0%nat (sample_env limited_client [4; 3; 2; 1; 0]%nat)
                        sample_world))
          = (loops sample_world ++ [LoopClosed])%list.
Proof.
  apply (X9_clean_exit_means_all_done 0%nat
           (sample_env limited_client [4; 3; 2; 1; 0]%nat) sample_world).
  vm_compute. reflexivity.
Defined.

Lemma X10_witness :
  exists lines,
    stdout (snd (main 0%nat (sample_env limited_client [4; 3; 2; 1; 0]%nat) sample_world))
      = (stdout sample_world ++ lines)%list
    /\ List.length lines = List.length labels
    /\ forall k (label : string),
         labels !! k = Some label ->
         exists line,
           lines !! k = Some line
           /\ ((exists n, 0 <= n /\ line = label +++ ": Found " +++ int_repr n +++ " papers")
               \/ (exists text, line = label +++ ": Search failed - " +++ text)).
Proof.
  apply (X10_one_line_per_label 0%nat
           (sample_env limited_client [4; 3; 2; 1; 0]%nat) sample_world).
  vm_compute. reflexivity.
Defined.

Lemma X11_witness :
  for_each ([] ++ (KStr "content_curation", PyNone) :: [(KStr "content_aggregation", sample_failure)])
    summary sample_world
  = (Raise AttributeError, sample_world).
Proof.
  apply (X11_result_must_be_a_dict [] (KStr "content_curation") PyNone
           [(KStr "content_aggregation", sample_failure)] sample_world sample_world).
  - reflexivity.
  - reflexivity.
Defined.

Lemma X12_witness :
  for_each ([] ++ (KStr "content_curation",
                   PyDict [(KStr "success", PyInt 1);
                           (KStr "data", PyDict [(KStr "papers", PyStr "none")])]) :: [])
    summary sample_world
    = for_each [] summary
        (emit ["content_curation" +++ ": Found " +++ int_repr 4 +++ " papers"] sample_world)
  /\ (forall text, PyStr "none" = PyStr text -> 4 = Z.of_nat (List.length text))
  /\ (forall fields, PyStr "none" = PyDict fields -> 4 = Z.of_nat (List.length fields))
  /\ (forall xs, PyStr "none" = PyTuple xs -> 4 = Z.of_nat (List.length xs))
  /\ (forall xs, PyStr "none" = PyList xs -> 4 = Z.of_nat (List.length xs)).
Proof.
  apply (X12_papers_counted_by_len [] (KStr "content_curation")
           [(KStr "success", PyInt 1); (KStr "data", PyDict [(KStr "papers", PyStr "none")])]
           [] (PyInt 1) [(KStr "papers", PyStr "none")] (PyStr "none") 4
           sample_world sample_world).
  - reflexivity.
  - reflexivity.
  - reflexivity.
  - reflexivity.
  - reflexivity.
  - reflexivity.
Defined.

Lemma X13_witness :
  for_each ([] ++ (KStr "content_curation",
                   PyDict [(KStr "success", PyBool true);
                           (KStr "data", PyDict [(KStr "papers", PyNone)])]) :: [])
    summary sample_world
  = (Raise TypeError, sample_world).
Proof.
  apply (X13_unsized_papers_fault [] (KStr "content_curation")
           [(KStr "success", PyBool true); (KStr "data", PyDict [(KStr "papers", PyNone)])]
           [] (PyBool true) [(KStr "papers", PyNone)] PyNone sample_world sample_world).
  - reflexivity.
  - reflexivity.
  - reflexivity.
  - reflexivity.
  - reflexivity.
  - reflexivity.
Defined.

Lemma X14_witness :
  for_each ([] ++ (KStr "financial_visualization",
                   PyDict [(KStr "success", PyBool true); (KStr "data", PyList [])]) :: [])
    summary sample_world
  = (Raise AttributeError, sample_world).
Proof.
  apply (X14_data_must_be_a_dict [] (KStr "financial_visualization")
           [(KStr "success", PyBool true); (KStr "data", PyList [])]
           [] (PyBool true) (PyList []) sample_world sample_world).
  - reflexivity.
  - reflexivity.
  - reflexivity.
  - reflexivity.
  - reflexivity.
Defined.

Lemma X15_witness :
  pools (snd (run_async_with_thread_pool 0%nat
                (sample_env broken_client [0; 1; 2; 3; 4]%nat) sample_world))
    = (pools sample_world ++ [{| workers := []; pool_shutdown := true |}])%list
  /\ (forall p, (p < List.length (pools sample_world))%nat ->
        pools (snd (run_async_with_thread_pool 0%nat
                      (sample_env broken_client [0; 1; 2; 3; 4]%nat) sample_world)) !! p
        = pools sample_world !! p)
  /\ exists pool,
       pools (snd (run_async_with_thread_pool 0%nat
                     (sample_env broken_client [0; 1; 2; 3; 4]%nat) sample_world))
         !! List.length (pools sample_world) = Some pool
       /\ pool_shutdown pool = true.
Proof.
  apply (X15_pool_shut_down_on_every_exit 0%nat
           (sample_env broken_client [0; 1; 2; 3; 4]%nat) sample_world
           (Raise (ClientFault "timeout"))).
  - reflexivity.
  - discriminate.
Defined.

Lemma X16_witness :
  current_loop (snd (run_async_with_thread_pool 0%nat
                       (sample_env steady_client [0; 1; 2; 3; 4]%nat) sample_world))
    !! 0%nat = Some (List.length (loops sample_world))
  /\ loops (snd (run_async_with_thread_pool 0%nat
                   (sample_env steady_client [0; 1; 2; 3; 4]%nat) sample_world))
       !! List.length (loops sample_world) = Some LoopClosed
  /\ (forall thread, thread <> 0%nat ->
        current_loop (snd (run_async_with_thread_pool 0%nat
                             (sample_env steady_client [0; 1; 2; 3; 4]%nat) sample_world))
          !! thread = current_loop sample_world !! thread)
  /\ run_until_complete 0%nat (List.length (loops sample_world)) (Ret PyNone)
       (snd (run_async_with_thread_pool 0%nat
               (sample_env steady_client [0; 1; 2; 3; 4]%nat) sample_world))
     = (Raise RuntimeError,
        snd (run_async_with_thread_pool 0%nat
               (sample_env steady_client [0; 1; 2; 3; 4]%nat) sample_world)).
Proof.
  apply (X16_closed_loop_stays_current 0%nat
           (sample_env steady_client [0; 1; 2; 3; 4]%nat) sample_world
           (Ret (PyDict (zip label_keys (replicate 5 (sample_success 3)))))).
  - reflexivity.
  - discriminate.
Defined.

Lemma X17_witness :
  fst (run_async_with_thread_pool 0%nat (sample_env broken_client [2; 0]%nat)
         (snd (run_async_with_thread_pool 0%nat
                 (sample_env steady_client [0; 1; 2; 3; 4]%nat) sample_world)))
    = search_scholar_papers (sample_env broken_client [2; 0]%nat)
  /\ loops (snd (run_async_with_thread_pool 0%nat
                   (sample_env steady_client [0; 1; 2; 3; 4]%nat) sample_world))
     = (loops sample_world ++ [LoopClosed])%list
  /\ current_loop
       (snd (run_async_with_thread_pool 0%nat (sample_env broken_client [2; 0]%nat)
               (snd (run_async_with_thread_pool 0%nat
                       (sample_env steady_client [0; 1; 2; 3; 4]%nat) sample_world))))
       !! 0%nat = Some (S (List.length (loops sample_world)))
  /\ loops
       (snd (run_async_with_thread_pool 0%nat (sample_env broken_client [2; 0]%nat)
               (snd (run_async_with_thread_pool 0%nat
                       (sample_env steady_client [0; 1; 2; 3; 4]%nat) sample_world))))
       !! List.length (loops sample_world) = Some LoopClosed
  /\ (fst (run_async_with_thread_pool 0%nat (sample_env broken_client [2; 0]%nat)
             (snd (run_async_with_thread_pool 0%nat
                     (sample_env steady_client [0; 1; 2; 3; 4]%nat) sample_world)))
      <> Hang ->
      loops
        (snd (run_async_with_thread_pool 0%nat (sample_env broken_client [2; 0]%nat)
                (snd (run_async_with_thread_pool 0%nat
                        (sample_env steady_client [0; 1; 2; 3; 4]%nat) sample_world))))
      = (loops sample_world ++ [LoopClosed; LoopClosed])%list)
  /\ driven
       (snd (run_async_with_thread_pool 0%nat (sample_env broken_client [2; 0]%nat)
               (snd (run_async_with_thread_pool 0%nat
                       (sample_env steady_client [0; 1; 2; 3; 4]%nat) sample_world))))
     = (driven sample_world ++ [(0%nat, List.length (loops sample_world));
                                (0%nat, S (List.length (loops sample_world)))])%list.
Proof.
  apply (X17_second_call_starts_afresh 0%nat
           (sample_env steady_client [0; 1; 2; 3; 4]%nat)
           (sample_env broken_client [2; 0]%nat) sample_world
           (Ret (PyDict (zip label_keys (replicate 5 (sample_success 3)))))).
  - apply not_elem_of_empty.
  - reflexivity.
  - discriminate.
  - apply surjective_pairing.
Defined.

Lemma X20_witness :
  files (snd (main 0%nat (sample_env scored_client [0; 1; 2; 3; 4]%nat) sample_world))
    !! output_path
  <> files (snd (main 0%nat (sample_env limited_client [0; 1; 2; 3; 4]%nat) sample_world))
       !! output_path.
Proof.
  apply (X20_different_bundles_different_files sample_laws 0%nat 0%nat
           (sample_env scored_client [0; 1; 2; 3; 4]%nat)
           (sample_env limited_client [0; 1; 2; 3; 4]%nat)
           sample_world sample_world
           (zip label_keys (replicate 5 scored_result))
           (zip label_keys [sample_success 3; sample_failure; sample_success 3;
                            sample_success 3; sample_success 3])).
  - apply not_elem_of_empty.
  - apply not_elem_of_empty.
  - reflexivity.
  - reflexivity.
  - reflexivity.
  - reflexivity.
  - reflexivity.
  - reflexivity.
  - discriminate.
Defined.

Lemma X21_witness :
  exists text,
    files (snd (main 0%nat (sample_env scored_client [3; 4; 0; 2; 1]%nat) sample_world))
      !! output_path = Some text
    /\ text = json_dumps (PyDict (zip label_keys (replicate 5 scored_result)))
    /\ indented 0 Outside text = true.
Proof.
  apply (X21_file_is_indented_at_every_depth 0%nat
           (sample_env scored_client [3; 4; 0; 2; 1]%nat) sample_world
           (zip label_keys (replicate 5 scored_result))).
  - apply not_elem_of_empty.
  - reflexivity.
  - reflexivity.
Defined.

